(** * Solar + Storage Optimization: the client components and the engine contract

    A shallow embedding of the React client of the repository
    (UploadForm, ProgressIndicator, App, ResultsDisplay, MonthlyRevenueChart)
    and of the optimisation engine's contract (model builder, financial engine,
    progress reporter), with the properties the specification states about them.

    Conventions of the embedding.
    - A JavaScript number is NaN, an infinity, or the exact rational value of
      a binary64 number ([JsNum]); the arithmetic and [parseFloat] round to
      the nearest binary64 number, ties to even, and overflow to the
      infinities ([round64]). The sign of zero is outside the embedding.
    - A JavaScript string is a [string] of 8-bit code units.
    - A JavaScript object used as a dictionary is a [gmap string _]; an absent
      key reads as [undefined].
    - The object whose enumeration order is observable (the per-year table of
      the chart) is an association list in creation order. *)

From Stdlib Require Import ZArith QArith Qabs Qround Lia Lqa Bool List Permutation Sorted.
From Stdlib Require Import Ascii String DecimalString DecimalPos DecimalN.
From stdpp Require Import gmap strings fin_maps.

Local Open Scope Z_scope.

(* ===================================================================== *)
(** * The JavaScript runtime used by the components *)
(* ===================================================================== *)

Module Js.

(** ** Numbers *)

Inductive JsNum : Type :=
| NaN
| Infinity (negative : bool)
| Finite (q : Q).

Definition Qsgn (q : Q) : Z := Z.sgn (Qnum q).

Definition is_zero (x : JsNum) : bool :=
  match x with Finite q => Qsgn q =? 0 | _ => false end.

Definition is_negative (x : JsNum) : bool :=
  match x with
  | NaN => false
  | Infinity s => s
  | Finite q => Qsgn q <? 0
  end.

(** [isNaN] applied to a number. *)
Definition num_isNaN (x : JsNum) : bool :=
  match x with NaN => true | _ => false end.

(** [x < y]; every comparison with NaN is false. *)
Definition lt (x y : JsNum) : bool :=
  match x, y with
  | NaN, _ | _, NaN => false
  | Infinity true, Infinity true => false
  | Infinity true, _ => true
  | _, Infinity true => false
  | Infinity false, _ => false
  | Finite _, Infinity false => true
  | Finite a, Finite b => negb (Qle_bool b a)
  end.

(** [x <= y]. *)
Definition le (x y : JsNum) : bool :=
  match x, y with
  | NaN, _ | _, NaN => false
  | Infinity true, _ => true
  | _, Infinity false => true
  | Infinity false, _ => false
  | Finite _, Infinity true => false
  | Finite a, Finite b => Qle_bool a b
  end.

(** [x > y]. *)
Definition gt (x y : JsNum) : bool := lt y x.

(** ** Rounding to binary64 *)

(** The integer nearest to [n / d], the even one on a tie ([0 <= n], [0 < d]). *)
Definition div_half_even (n d : Z) : Z :=
  let q := n / d in
  match 2 * (n mod d) ?= d with
  | Lt => q
  | Gt => q + 1
  | Eq => if Z.even q then q else q + 1
  end.

(** The exponent [e] with [2^e <= a / b < 2^(e+1)] ([0 < a], [0 < b]). *)
Definition floor_log2 (a b : Z) : Z :=
  let e := Z.log2 a - Z.log2 b in
  if (if 0 <=? e then b * 2 ^ e <=? a else b <=? a * 2 ^ (- e)) then e else e - 1.

(** The binary64 number nearest to the rational [q]: a significand of 53
    bits, or fewer below [2^-1022] where the unit in the last place stays at
    [2^-1074]; ties go to the even significand, and what rounds to [2^1024]
    or beyond is an infinity. The value is kept in lowest terms. *)
Definition round64 (q : Q) : JsNum :=
  let a := Z.abs (Qnum q) in
  let b := Z.pos (Qden q) in
  if a =? 0 then Finite 0
  else
    let u := Z.max (floor_log2 a b - 52) (-1074) in
    let m := if 0 <=? u then div_half_even a (b * 2 ^ u)
             else div_half_even (a * 2 ^ (- u)) b in
    let m := if Qnum q <? 0 then - m else m in
    if 0 <=? u then
      if 2 ^ 1024 <=? Z.abs m * 2 ^ u then Infinity (Qnum q <? 0)
      else Finite (inject_Z (m * 2 ^ u))
    else Finite (Qred (m # Z.to_pos (2 ^ (- u)))).

(** [x === y] on numbers that are not NaN. *)
Definition num_eqb (x y : JsNum) : bool :=
  match x, y with
  | Infinity s, Infinity t => Bool.eqb s t
  | Finite a, Finite b => Qeq_bool a b
  | _, _ => false
  end.

(** [x + y]. *)
Definition add (x y : JsNum) : JsNum :=
  match x, y with
  | NaN, _ | _, NaN => NaN
  | Infinity s, Infinity t => if Bool.eqb s t then Infinity s else NaN
  | Infinity s, Finite _ | Finite _, Infinity s => Infinity s
  | Finite a, Finite b => round64 (a + b)
  end.

(** [x * y]. *)
Definition mul (x y : JsNum) : JsNum :=
  match x, y with
  | NaN, _ | _, NaN => NaN
  | Infinity s, Infinity t => Infinity (xorb s t)
  | Infinity s, (Finite _ as f) | (Finite _ as f), Infinity s =>
      if is_zero f then NaN else Infinity (xorb s (is_negative f))
  | Finite a, Finite b => round64 (a * b)
  end.

Definition num_of_Z (z : Z) : JsNum := Finite (inject_Z z).

(** ** Strings *)

Definition code (c : ascii) : Z := Z.of_nat (nat_of_ascii c).

(** WhiteSpace and LineTerminator code units: TAB, LF, VT, FF, CR, SP, NBSP. *)
Definition is_whitespace (c : ascii) : bool :=
  ((9 <=? code c) && (code c <=? 13)) || (code c =? 32) || (code c =? 160).

Definition is_digit (c : ascii) : bool := (48 <=? code c) && (code c <=? 57).

Definition digit_value (c : ascii) : Z := code c - 48.

Fixpoint trimStart (s : string) : string :=
  match s with
  | String c r => if is_whitespace c then trimStart r else s
  | EmptyString => EmptyString
  end.

Fixpoint rev_string (s acc : string) : string :=
  match s with
  | EmptyString => acc
  | String c r => rev_string r (String c acc)
  end.

Definition trimEnd (s : string) : string :=
  rev_string (trimStart (rev_string s EmptyString)) EmptyString.

(** [String.prototype.trim]. *)
Definition trim (s : string) : string := trimEnd (trimStart s).

(** Decimal digits of a non-negative integer, ["0"] for zero. *)
Definition digits_of_Z (n : Z) : string :=
  NilZero.string_of_uint (N.to_uint (Z.to_N n)).

Fixpoint zeros (k : nat) : string :=
  match k with O => EmptyString | S k' => String "0" (zeros k') end.

(** [take k s] and [drop k s]: the two halves of [s] cut after [k] units. *)
Fixpoint take (k : nat) (s : string) : string :=
  match k, s with
  | S k', String c r => String c (take k' r)
  | _, _ => EmptyString
  end.

Fixpoint drop (k : nat) (s : string) : string :=
  match k, s with
  | S k', String _ r => drop k' r
  | _, _ => s
  end.

(** The integer nearest to [|q| * 10^f], the larger one on a tie. *)
Definition round_scaled (q : Q) (f : nat) : Z :=
  let num := Z.abs (Qnum q) in
  let den := Z.pos (Qden q) in
  (2 * num * 10 ^ Z.of_nat f + den) / (2 * den).

(** [Number::toString] of the values that are not finite. *)
Definition nonfinite_toString (x : JsNum) : string :=
  match x with
  | Infinity true => "-Infinity"
  | Infinity false => "Infinity"
  | _ => "NaN"
  end.

(** The decimal with [k] significant digits nearest to [x] among those that
    round to the number [x], if there is one: its digits [s] as an integer
    and the position [n] of its decimal point, so that it is
    [s * 10^(n-k)]. [n0] is the number of digits of the integer part of
    [x]; [1 <= k <= n0]. *)
Definition shortest_at (x : Q) (n0 k : nat) : option (Z * nat) :=
  let scale := 10 ^ Z.of_nat (n0 - k) in
  let lo := Qnum x / (Z.pos (Qden x) * scale) in
  let hi := lo + 1 in
  let ok c := num_eqb (round64 (inject_Z (c * scale))) (round64 x) in
  let pick c :=
    if c =? 10 ^ Z.of_nat k then (10 ^ Z.of_nat (k - 1), S n0) else (c, n0) in
  match ok lo, ok hi with
  | true, true =>
      match (x - inject_Z (lo * scale) ?= inject_Z (hi * scale) - x)%Q with
      | Lt => Some (pick lo)
      | Gt => Some (pick hi)
      | Eq => Some (pick (if Z.even lo then lo else hi))
      end
  | true, false => Some (pick lo)
  | false, true => Some (pick hi)
  | false, false => None
  end.

(** The least [k], from [k] on, for which there is such a decimal. *)
Fixpoint shortest (fuel k : nat) (x : Q) (n0 : nat) : option (Z * nat * nat) :=
  match fuel with
  | O => None
  | S fuel' =>
      if (n0 <? k)%nat then None
      else match shortest_at x n0 k with
           | Some (s, n) => Some (s, k, n)
           | None => shortest fuel' (S k) x n0
           end
  end.

(** [Number::toString] of a number [x] of 2^53 or more, which is an integer:
    the shortest decimal that rounds to [x], of at most 17 digits, followed by
    zeros up to 21 digits and written with an exponent beyond. *)
Definition toString_large (x : Q) : string :=
  let whole := Qfloor x in
  let n0 := String.length (digits_of_Z whole) in
  match shortest 17 1 x n0 with
  | Some (s, k, n) =>
      let d := digits_of_Z s in
      if (n <=? 21)%nat then (d ++ zeros (n - k))%string
      else
        let e := digits_of_Z (Z.of_nat n - 1) in
        match d with
        | String c EmptyString => (String c "e+" ++ e)%string
        | String c r => (String c (String "." r) ++ "e+" ++ e)%string
        | EmptyString => EmptyString
        end
  | None => digits_of_Z whole
  end.

(** [Number.prototype.toFixed(f)]: for a magnitude below 10^21 the sign, the
    integer part and [f] decimals after the point, of the integer nearest to
    [|x| * 10^f], the larger one on a tie; from 10^21 on the text of
    [Number::toString]. *)
Definition toFixed (x : JsNum) (f : nat) : string :=
  match x with
  | Finite q =>
      let s := if Qsgn q <? 0 then "-" else "" in
      if Qle_bool (inject_Z (10 ^ 21)) (Qabs q) then (s ++ toString_large (Qabs q))%string
      else
        let m := digits_of_Z (round_scaled q f) in
        let m := (zeros (S f - String.length m) ++ m)%string in
        let k := String.length m in
        match f with
        | O => (s ++ m)%string
        | _ => (s ++ take (k - f) m ++ "." ++ drop (k - f) m)%string
        end
  | _ => nonfinite_toString x
  end.

(** Thousands separators of the en-US locale, on a digit string. *)
Fixpoint group_from (k : nat) (s : string) : string :=
  match s with
  | EmptyString => EmptyString
  | String c r =>
      let rest := group_from (k - 1) r in
      match r with
      | EmptyString => String c rest
      | _ => if Nat.eqb ((k - 1) mod 3) 0 then String c (String "," rest)
             else String c rest
      end
  end.

Definition group_thousands (s : string) : string := group_from (String.length s) s.

(** [new Intl.NumberFormat('en-US', {style: 'currency', currency: 'USD',
    minimumFractionDigits: 0, maximumFractionDigits: 0}).format(x)] on a
    number: rounded half away from zero to whole dollars. The infinity sign
    is the three UTF-8 bytes of U+221E. *)
Definition infinity_sign : string :=
  String (ascii_of_nat 226) (String (ascii_of_nat 136) (String (ascii_of_nat 158) "")).

Definition format_usd (x : JsNum) : string :=
  match x with
  | NaN => "$NaN"
  | Infinity s => ((if s then "-$" else "$") ++ infinity_sign)%string
  | Finite q =>
      let sign := if Qsgn q <? 0 then "-$" else "$" in
      (sign ++ group_thousands (digits_of_Z (round_scaled q 0)))%string
  end.

(** ** [parseFloat] *)

(** The leading decimal digits of [s], accumulated on [acc], their count,
    and what follows them. *)
Fixpoint span_digits (s : string) (acc : Z) (n : nat) : Z * nat * string :=
  match s with
  | String c r =>
      if is_digit c then span_digits r (10 * acc + digit_value c) (S n)
      else (acc, n, s)
  | EmptyString => (acc, n, s)
  end.

(** ExponentPart: [e] or [E], an optional sign, at least one digit; 0 when
    the text does not start with one. *)
Definition exponent_part (s : string) : Z :=
  match s with
  | String c r =>
      if (code c =? 101) || (code c =? 69) then
        let '(neg, r') :=
          match r with
          | String d r1 =>
              if code d =? 45 then (true, r1)
              else if code d =? 43 then (false, r1)
              else (false, r)
          | EmptyString => (false, r)
          end in
        let '(e, n, _) := span_digits r' 0 O in
        match n with
        | O => 0
        | _ => if neg then - e else e
        end
      else 0
  | EmptyString => 0
  end.

Definition pow10 (e : Z) : Q :=
  match e with
  | Z0 => 1
  | Zpos p => inject_Z (10 ^ Zpos p)
  | Zneg p => 1 # (10 ^ p)%positive
  end.

Definition starts_with (p s : string) : bool := String.prefix p s.

(** [parseFloat(s)]: leading white space is skipped, the longest prefix that
    is a StrDecimalLiteral is read and rounded to binary64, and NaN is
    returned when there is none. *)
Definition parseFloat (s : string) : JsNum :=
  let t := trimStart s in
  let '(neg, t) :=
    match t with
    | String c r =>
        if code c =? 45 then (true, r)
        else if code c =? 43 then (false, r)
        else (false, t)
    | EmptyString => (false, t)
    end in
  if starts_with "Infinity" t then Infinity neg
  else
    let '(ip, ni, t1) := span_digits t 0 O in
    let '(m, nf, t2, ok) :=
      match t1 with
      | String c r =>
          if code c =? 46 then
            let '(m, nf, t2) := span_digits r ip O in
            match ni, nf with
            | O, O => (ip, O, t1, false)
            | _, _ => (m, nf, t2, true)
            end
          else (ip, O, t1, negb (Nat.eqb ni 0))
      | EmptyString => (ip, O, t1, negb (Nat.eqb ni 0))
      end in
    if ok then
      let e := exponent_part t2 - Z.of_nat nf in
      let v := (inject_Z m * pow10 e)%Q in
      round64 (if neg then (- v)%Q else v)
    else NaN.

End Js.

(* ===================================================================== *)
(** * Values of the result payload *)
(* ===================================================================== *)

Module Payload.
Import Js.

(** One element of [monthly_revenues]. *)
Record RevenueEntry : Type := {
  year : Z;
  month : Z;
  revenue : JsNum
}.

(** The values a field of the parsed result payload can hold: absent
    ([undefined]), [null], a boolean, a number, or the array of revenue
    entries. *)
Inductive JsVal : Type :=
| JUndefined
| JNull
| JBool (b : bool)
| JNum (n : JsNum)
| JArr (entries : list RevenueEntry).

(** The parsed JSON object: property name to value. *)
Abbreviation Results := (gmap string JsVal).

(** [results.k]: an absent property reads as [undefined]. *)
Definition prop (results : Results) (k : string) : JsVal :=
  default JUndefined (results !! k).

(** ToBoolean. *)
Definition truthy (v : JsVal) : bool :=
  match v with
  | JUndefined | JNull => false
  | JBool b => b
  | JNum n => negb (is_zero n || num_isNaN n)
  | JArr _ => true
  end.

(** ToNumber; an array goes through its string form, which is empty for the
    empty array and not numeric for an array of objects. *)
Definition ToNumber (v : JsVal) : JsNum :=
  match v with
  | JUndefined => NaN
  | JNull => Finite 0
  | JBool b => if b then Finite 1 else Finite 0
  | JNum n => n
  | JArr nil => Finite 0
  | JArr (_ :: _) => NaN
  end.

(** The global [isNaN(v)]. *)
Definition isNaN (v : JsVal) : bool := num_isNaN (ToNumber v).

End Payload.

(* ===================================================================== *)
(** * MonthlyRevenueChart.jsx *)
(* ===================================================================== *)

Module MonthlyRevenueChart.
Import Js Payload.

(** A value of [yearlyData]: [{year, revenue}]. *)
Record YearItem : Type := {
  item_year : Z;
  item_revenue : JsNum
}.

(** [yearlyData]: the own properties of the object in creation order, keyed
    by the year. *)
Definition YearlyData : Type := list (Z * YearItem).

Fixpoint has_key (yearlyData : YearlyData) (k : Z) : bool :=
  match yearlyData with
  | nil => false
  | (k', _) :: rest => (k' =? k) || has_key rest k
  end.

(** [yearlyData[k].revenue += r] on an existing property. *)
Fixpoint add_revenue (yearlyData : YearlyData) (k : Z) (r : JsNum) : YearlyData :=
  match yearlyData with
  | nil => nil
  | (k', it) :: rest =>
      if k' =? k then
        (k', {| item_year := item_year it; item_revenue := add (item_revenue it) r |}) :: rest
      else (k', it) :: add_revenue rest k r
  end.

(** The body of [data.forEach((entry) => ...)]. *)
Definition forEach_body (yearlyData : YearlyData) (entry : RevenueEntry) : YearlyData :=
  let year := year entry in
  let yearlyData :=
    if negb (has_key yearlyData year)
    then yearlyData ++ (year, {| item_year := year; item_revenue := Finite 0 |}) :: nil
    else yearlyData in
  add_revenue yearlyData year (revenue entry).

(** A property key that is an array index is enumerated before the others,
    in ascending order. *)
Definition is_array_index (k : Z) : bool := (0 <=? k) && (k <? 2 ^ 32 - 1).

Fixpoint insert_by_key (x : Z * YearItem) (l : YearlyData) : YearlyData :=
  match l with
  | nil => x :: nil
  | y :: rest => if fst x <=? fst y then x :: l else y :: insert_by_key x rest
  end.

Fixpoint sort_by_key (l : YearlyData) : YearlyData :=
  match l with
  | nil => nil
  | x :: rest => insert_by_key x (sort_by_key rest)
  end.

(** [Object.values(yearlyData)]. *)
Definition Object_values (yearlyData : YearlyData) : list YearItem :=
  map snd
    (sort_by_key (List.filter (fun p => is_array_index (fst p)) yearlyData)
       ++ List.filter (fun p => negb (is_array_index (fst p))) yearlyData).

(** The yearly table after the [forEach]. *)
Definition yearly (data : list RevenueEntry) : YearlyData :=
  fold_left forEach_body data nil.

(** [`${item.year}`], the text of [Number::toString] for the integer [z]:
    an integer of magnitude up to 2^53 is its own shortest decimal. *)
Definition string_of_Z (z : Z) : string :=
  let sign := if z <? 0 then "-" else "" in
  if Z.abs z <=? 2 ^ 53 then (sign ++ digits_of_Z (Z.abs z))%string
  else
    match round64 (inject_Z (Z.abs z)) with
    | Finite q => (sign ++ toString_large q)%string
    | other => (sign ++ nonfinite_toString other)%string
    end.

(** A point of the chart: [{year, revenue, revenueFormatted}]. *)
Record ChartPoint : Type := {
  point_year : string;
  point_revenue : JsNum;
  revenueFormatted : string
}.

Definition to_point (item : YearItem) : ChartPoint :=
  {| point_year := String.append "Year " (string_of_Z (item_year item));
     point_revenue := item_revenue item;
     revenueFormatted := format_usd (item_revenue item) |}.

(** The [useMemo] callback; [None] is a [data] prop that is [null] or
    [undefined]. *)
Definition chartData (data : option (list RevenueEntry)) : list ChartPoint :=
  match data with
  | None => nil
  | Some nil => nil
  | Some entries => map to_point (Object_values (yearly entries))
  end.

(** What the component returns. *)
Inductive ChartView : Type :=
| NoRevenueData                        (* <div>No revenue data available</div> *)
| LineChart (points : list ChartPoint).

Definition MonthlyRevenueChart (data : option (list RevenueEntry)) : ChartView :=
  match chartData data with
  | nil => NoRevenueData
  | points => LineChart points
  end.

(** The sum the chart is to show for year [y]: the revenues of the entries
    of that year, added in the order of the list. *)
Definition year_total (data : list RevenueEntry) (y : Z) : JsNum :=
  fold_left add (map revenue (List.filter (fun e => year e =? y) data)) (Finite 0).

End MonthlyRevenueChart.

(* ===================================================================== *)
(** * ResultsDisplay.jsx *)
(* ===================================================================== *)

Module ResultsDisplay.
Import Js Payload.

Definition formatCurrency (value : JsVal) : string := format_usd (ToNumber value).

Definition formatPercent (value : JsVal) : string :=
  if negb (truthy value) || isNaN value then "N/A"
  else String.append (toFixed (mul (ToNumber value) (Finite 100)) 2) "%".

(** What React shows for [{expr}]: nothing for [undefined], [null] and
    booleans, the text of a number, or an element. *)
Inductive Child (A : Type) : Type :=
| Nothing
| Text (s : string)
| Element (a : A).
Arguments Nothing {A}.
Arguments Text {A} s.
Arguments Element {A} a.

(** The child for a falsy left operand of [&&]. *)
Definition falsy_child {A : Type} (v : JsVal) : Child A :=
  match v with
  | JNum NaN => Text "NaN"
  | JNum _ => Text "0"
  | _ => Nothing
  end.

(** [v.toFixed(2)]: a TypeError ([None]) unless [v] is a number. *)
Definition call_toFixed (v : JsVal) : option string :=
  match v with
  | JNum n => Some (toFixed n 2)
  | _ => None
  end.

(** [v?.toFixed(2)] as a child: nothing for [undefined] and [null]. *)
Definition optional_toFixed (v : JsVal) : option string :=
  match v with
  | JUndefined | JNull => Some EmptyString
  | _ => call_toFixed v
  end.

(** The texts of the result cards and the two conditional sections. *)
Record ResultsView : Type := {
  optimal_pv_size : string;
  optimal_bess_size : string;
  total_capex : string;
  net_present_value : string;
  internal_rate_of_return : string;
  total_revenue : string;
  revenue_chart : Child MonthlyRevenueChart.ChartView;
  scaling_note : Child string
}.

Inductive Rendered : Type :=
| NoResultsAvailable                   (* <div>No results available</div> *)
| TypeError                            (* the render throws *)
| View (v : ResultsView).

Definition chart_section (monthly_revenues : JsVal) : Child MonthlyRevenueChart.ChartView :=
  if truthy monthly_revenues then
    match monthly_revenues with
    | JArr ((_ :: _) as entries) =>
        Element (MonthlyRevenueChart.MonthlyRevenueChart (Some entries))
    | _ => Nothing
    end
  else falsy_child monthly_revenues.

Definition note_section (representative_days_used scale_factor : JsVal)
  : option (Child string) :=
  if truthy representative_days_used then
    match optional_toFixed scale_factor with
    | Some s => Some (Element s)
    | None => None
    end
  else Some (falsy_child representative_days_used).

(** The component; [None] is a [results] prop that is [null] or [undefined]. *)
Definition ResultsDisplay (results : option Results) : Rendered :=
  match results with
  | None => NoResultsAvailable
  | Some results =>
      match call_toFixed (prop results "optimal_pv_size_mw"),
            call_toFixed (prop results "optimal_bess_size_mwh"),
            note_section (prop results "representative_days_used")
                         (prop results "scale_factor") with
      | Some pv, Some bess, Some note =>
          View {|
            optimal_pv_size := String.append pv " MW";
            optimal_bess_size := String.append bess " MWh";
            total_capex := formatCurrency (prop results "capex_total");
            net_present_value := formatCurrency (prop results "npv");
            internal_rate_of_return := formatPercent (prop results "irr");
            total_revenue := formatCurrency (prop results "total_revenue_25_years");
            revenue_chart := chart_section (prop results "monthly_revenues");
            scaling_note := note
          |}
      | _, _, _ => TypeError
      end
  end.

(** The properties of [results] the component reads. *)
Definition fields_read : list string :=
  "optimal_pv_size_mw" :: "optimal_bess_size_mwh" :: "capex_total" :: "npv"
  :: "irr" :: "total_revenue_25_years" :: "monthly_revenues"
  :: "representative_days_used" :: "scale_factor" :: nil.

End ResultsDisplay.

(* ===================================================================== *)
(** * UploadForm.jsx *)
(* ===================================================================== *)

Module UploadForm.
Import Js.

(** The [formData] state: input name to the text of the input. *)
Abbreviation FormData := (gmap string string).

(** The [files] state; [None] is [null]. *)
Record Files : Type := {
  pvProduction : option string;
  pricing : option string
}.

(** The [errors] state: field name to message. *)
Abbreviation Errors := (gmap string string).

Definition initialFormData : FormData :=
  list_to_map
    (("pvCapexPerMw", "") :: ("bessCapexPerMwh", "") :: ("discountRate", "")
     :: ("interconnectionCapacityMw", "") :: ("onsiteLoadPricePerMwh", "")
     :: ("onsiteLoadMaxMw", "") :: ("yoyPriceEscalationRate", "")
     :: ("pvMaxSizeMw", "") :: ("bessMaxSizeMwh", "") :: nil).

(** [handleInputChange] on the form data. *)
Definition handleInputChange (name value : string) (formData : FormData) : FormData :=
  <[name := value]> formData.

(** [!value] for a property of [formData]: true when it is absent or empty. *)
Definition not_value (value : option string) : bool :=
  match value with
  | None | Some EmptyString => true
  | Some _ => false
  end.

(** [value.trim() === ''], the left operand of [||] being false. *)
Definition is_blank (value : option string) : bool :=
  match value with
  | Some s => String.eqb (trim s) ""
  | None => true
  end.

Definition text (value : option string) : string := default EmptyString value.

Definition requiredFields : list string :=
  "pvCapexPerMw" :: "bessCapexPerMwh" :: "discountRate"
  :: "interconnectionCapacityMw" :: "onsiteLoadPricePerMwh"
  :: "onsiteLoadMaxMw" :: "yoyPriceEscalationRate" :: nil.

(** The body of [requiredFields.forEach((field) => ...)]. *)
Definition check_required (formData : FormData) (newErrors : Errors) (field : string)
  : Errors :=
  let value := formData !! field in
  if not_value value || is_blank value then
    <[field := "This field is required"]> newErrors
  else if num_isNaN (parseFloat (text value))
          || le (parseFloat (text value)) (Finite 0) then
    <[field := "Must be a positive number"]> newErrors
  else newErrors.

(** The check of the discount rate. *)
Definition check_discountRate (formData : FormData) (newErrors : Errors) : Errors :=
  if negb (not_value (formData !! "discountRate")) then
    let rate := parseFloat (text (formData !! "discountRate")) in
    if lt rate (Finite 0) || gt rate (Finite 1) then
      <["discountRate" := "Discount rate must be between 0 and 1 (e.g., 0.08 for 8%)"]>
        newErrors
    else newErrors
  else newErrors.

(** The check of an optional field, if provided. *)
Definition check_optional (formData : FormData) (newErrors : Errors) (field : string)
  : Errors :=
  let value := formData !! field in
  if negb (not_value value)
     && (num_isNaN (parseFloat (text value))
         || le (parseFloat (text value)) (Finite 0)) then
    <[field := "Must be a positive number"]> newErrors
  else newErrors.

Definition check_files (files : Files) : Errors :=
  let newErrors : Errors := ∅ in
  let newErrors :=
    match pvProduction files with
    | None => <["pvProduction" := "PV production CSV file is required"]> newErrors
    | Some _ => newErrors
    end in
  match pricing files with
  | None => <["pricing" := "Pricing CSV file is required"]> newErrors
  | Some _ => newErrors
  end.

(** The errors [validateForm] computes. *)
Definition newErrors (files : Files) (formData : FormData) : Errors :=
  let errs := check_files files in
  let errs := fold_left (check_required formData) requiredFields errs in
  let errs := check_discountRate formData errs in
  let errs := check_optional formData errs "pvMaxSizeMw" in
  check_optional formData errs "bessMaxSizeMwh".

(** [validateForm]: [Object.keys(newErrors).length === 0]. *)
Definition validateForm (files : Files) (formData : FormData) : bool :=
  Nat.eqb (size (newErrors files formData)) 0.

(** A value appended to the multipart request body. *)
Inductive FormValue : Type :=
| FileValue (file : option string)
| TextValue (value : option string).

(** The body [handleSubmit] builds, in the order of the [append] calls. *)
Definition submitData (files : Files) (formData : FormData)
  : list (string * FormValue) :=
  (("pv_production_file", FileValue (pvProduction files))
   :: ("pricing_file", FileValue (pricing files))
   :: ("pv_capex_per_mw", TextValue (formData !! "pvCapexPerMw"))
   :: ("bess_capex_per_mwh", TextValue (formData !! "bessCapexPerMwh"))
   :: ("discount_rate", TextValue (formData !! "discountRate"))
   :: ("interconnection_capacity_mw", TextValue (formData !! "interconnectionCapacityMw"))
   :: ("onsite_load_price_per_mwh", TextValue (formData !! "onsiteLoadPricePerMwh"))
   :: ("onsite_load_max_mw", TextValue (formData !! "onsiteLoadMaxMw"))
   :: ("yoy_price_escalation_rate", TextValue (formData !! "yoyPriceEscalationRate"))
   :: nil)
  ++ (if not_value (formData !! "pvMaxSizeMw") then nil
      else ("pv_max_size_mw", TextValue (formData !! "pvMaxSizeMw")) :: nil)
  ++ (if not_value (formData !! "bessMaxSizeMwh") then nil
      else ("bess_max_size_mwh", TextValue (formData !! "bessMaxSizeMwh")) :: nil).

(** [handleSubmit] up to the request: nothing is sent ([None]) unless the
    form validates. *)
Definition handleSubmit (files : Files) (formData : FormData)
  : option (list (string * FormValue)) :=
  if validateForm files formData then Some (submitData files formData) else None.

(** ** The state of the form and its handlers *)

Record State : Type := {
  formData : FormData;
  files : Files;
  errors : Errors;
  isSubmitting : bool
}.

Definition initialState : State :=
  {| formData := initialFormData;
     files := {| pvProduction := None; pricing := None |};
     errors := ∅;
     isSubmitting := false |}.

(** [if (errors[name]) setErrors(...)]: the message of [name] is deleted when
    it is truthy. *)
Definition clear_error (name : string) (errors : Errors) : Errors :=
  if not_value (errors !! name) then errors else delete name errors.

(** [handleInputChange] on the whole state: the form data as above, and the
    errors without the message of the input. *)
Definition inputChange (name value : string) (st : State) : State :=
  {| formData := handleInputChange name value (formData st);
     files := files st;
     errors := clear_error name (errors st);
     isSubmitting := isSubmitting st |}.

(** [{...prev, [name]: file}] on the two properties of [files] that the
    component reads; the two file inputs are named after them. *)
Definition set_file (name file : string) (files : Files) : Files :=
  if String.eqb name "pvProduction" then
    {| pvProduction := Some file; pricing := pricing files |}
  else if String.eqb name "pricing" then
    {| pvProduction := pvProduction files; pricing := Some file |}
  else files.

(** [handleFileChange]; [fileList] is [e.target.files], [None] when it is
    [null]. *)
Definition handleFileChange (name : string) (fileList : option (list string)) (st : State)
  : State :=
  match fileList with
  | Some (file :: _) =>
      {| formData := formData st;
         files := set_file name file (files st);
         errors := clear_error name (errors st);
         isSubmitting := isSubmitting st |}
  | _ => st
  end.

(** The outcome of [await submitOptimization(submitData)]: the task id of the
    response, or a rejection with the [detail] text of the error response,
    if it carries one. *)
Inductive Submission : Type :=
| Accepted (taskId : string)
| Refused (detail : option string).

(** What one run of [handleSubmit] leaves behind: the state, the request
    body if one was sent, and the task id [onOptimizationStart] was called
    with, if it was called. *)
Record Submitted : Type := {
  after : State;
  sent : option (list (string * FormValue));
  onOptimizationStart : option string
}.

(** [handleSubmit] through to the end of its [finally] block; [respond] is
    the server. *)
Definition submit (respond : list (string * FormValue) -> Submission) (st : State)
  : Submitted :=
  let checked := newErrors (files st) (formData st) in
  match handleSubmit (files st) (formData st) with
  | None =>
      {| after := {| formData := formData st; files := files st;
                     errors := checked; isSubmitting := isSubmitting st |};
         sent := None;
         onOptimizationStart := None |}
  | Some body =>
      match respond body with
      | Accepted taskId =>
          {| after := {| formData := formData st; files := files st;
                         errors := checked; isSubmitting := false |};
             sent := Some body;
             onOptimizationStart := Some taskId |}
      | Refused detail =>
          let message :=
            match detail with
            | None | Some EmptyString => "Failed to submit optimization. Please try again."
            | Some d => d
            end in
          {| after := {| formData := formData st; files := files st;
                         errors := {[ "submit" := message ]}; isSubmitting := false |};
             sent := Some body;
             onOptimizationStart := None |}
      end
  end.

(** The handlers the form wires to its inputs and to its submit button. *)
Inductive Event : Type :=
| InputChange (name value : string)
| FileChange (name : string) (fileList : option (list string))
| Submit (respond : list (string * FormValue) -> Submission).

Definition handleEvent (st : State) (e : Event) : State :=
  match e with
  | InputChange name value => inputChange name value st
  | FileChange name fileList => handleFileChange name fileList st
  | Submit respond => after (submit respond st)
  end.

End UploadForm.

(* ===================================================================== *)
(** * ProgressIndicator.jsx and App.jsx *)
(* ===================================================================== *)

Module ProgressIndicator.
Import Js Payload.

(** The body of the status response; [None] is an absent or [null] field. *)
Record StatusData : Type := {
  sd_status : string;
  sd_progress : option JsNum;
  sd_message : option string;
  sd_results : option Results
}.

(** The component state. *)
Record State : Type := {
  status : string;
  progress : JsNum;
  message : string
}.

Definition initialState : State :=
  {| status := "pending"; progress := Finite 0;
     message := "Initializing optimization..." |}.

(** A call of one of the two props. *)
Inductive Callback : Type :=
| onComplete (results : option Results)
| onError (errorMessage : string).

(** The outcome of [await getOptimizationStatus(taskId)]. *)
Inductive Response : Type :=
| Resolved (statusData : StatusData)
| Rejected.

(** [statusData.progress || 0]. *)
Definition progress_or_0 (p : option JsNum) : JsNum :=
  match p with
  | Some n => if is_zero n || num_isNaN n then Finite 0 else n
  | None => Finite 0
  end.

(** [s || fallback] for a string that may be absent. *)
Definition string_or (s : option string) (fallback : string) : string :=
  match s with
  | None | Some EmptyString => fallback
  | Some m => m
  end.

(** What one run of the interval callback does. *)
Record Tick : Type := {
  next : State;
  cleared : bool;                      (* clearInterval(pollInterval) *)
  called : list Callback
}.

Definition poll (st : State) (r : Response) : Tick :=
  match r with
  | Resolved statusData =>
      let st' := {| status := sd_status statusData;
                    progress := progress_or_0 (sd_progress statusData);
                    message := string_or (sd_message statusData) "Processing..." |} in
      if String.eqb (sd_status statusData) "completed" then
        {| next := st'; cleared := true;
           called := onComplete (sd_results statusData) :: nil |}
      else if String.eqb (sd_status statusData) "failed" then
        {| next := st'; cleared := true;
           called := onError (string_or (sd_message statusData) "Optimization failed") :: nil |}
      else {| next := st'; cleared := false; called := nil |}
  | Rejected =>
      {| next := st; cleared := true;
         called := onError "Failed to check optimization status" :: nil |}
  end.

(** A polling run in which every response arrives before the next tick of
    the interval, so that no request is in flight when the interval is
    cleared: the states the component shows, one per response, up to the
    response that clears the interval. (The interval itself has no guard
    against requests in flight; [handled] below is the run in which every
    response is still handled.) *)
Fixpoint observe (st : State) (responses : list Response) : list State :=
  match responses with
  | nil => nil
  | r :: rest =>
      let t := poll st r in
      next t :: (if cleared t then nil else observe (next t) rest)
  end.

(** The calls made in such a run. *)
Fixpoint calls (st : State) (responses : list Response) : list Callback :=
  match responses with
  | nil => nil
  | r :: rest =>
      let t := poll st r in
      (called t ++ (if cleared t then nil else calls (next t) rest))%list
  end.

(** The calls made when every one of the responses is handled, as happens
    to the responses of requests that were in flight when the interval was
    cleared: the callback runs for each of them. *)
Definition handled (st : State) (responses : list Response) : list Callback :=
  flat_map (fun r => called (poll st r)) responses.

(** [getStatusColor], on the status shown. *)
Definition getStatusColor (status : string) : string :=
  if String.eqb status "completed" then "#10b981"
  else if String.eqb status "failed" then "#ef4444"
  else if String.eqb status "processing" then "#3b82f6"
  else "#6b7280".

(** [status === 'processing' && <div className="progress-spinner">]. *)
Definition spinner (st : State) : bool := String.eqb (status st) "processing".

End ProgressIndicator.

Module App.
Import Payload.

Record State : Type := {
  currentTaskId : option string;
  results : option Results;
  error : option string
}.

Definition initialState : State :=
  {| currentTaskId := None; results := None; error := None |}.

Definition handleOptimizationStart (taskId : string) (_ : State) : State :=
  {| currentTaskId := Some taskId; results := None; error := None |}.

Definition handleOptimizationComplete (resultsData : option Results) (st : State) : State :=
  {| currentTaskId := None; results := resultsData; error := error st |}.

Definition handleOptimizationError (errorMessage : string) (st : State) : State :=
  {| currentTaskId := None; results := results st; error := Some errorMessage |}.

Definition handleReset (_ : State) : State := initialState.

(** The props [onComplete] and [onError] the App passes to the indicator. *)
Definition handle (st : State) (c : ProgressIndicator.Callback) : State :=
  match c with
  | ProgressIndicator.onComplete r => handleOptimizationComplete r st
  | ProgressIndicator.onError m => handleOptimizationError m st
  end.

(** The component the main area shows below the error banner. *)
Inductive Screen : Type :=
| ShowUploadForm
| ShowProgressIndicator (taskId : string)
| ShowResults (r : Results).

Definition screen (st : State) : Screen :=
  match results st, currentTaskId st with
  | Some r, _ => ShowResults r
  | None, Some (String _ _ as taskId) => ShowProgressIndicator taskId
  | None, _ => ShowUploadForm
  end.

(** [{error && (<div className="error-banner">...)}]: the banner, with its
    Try Again button, is rendered for an error that is truthy. *)
Definition error_banner (st : State) : option string :=
  match error st with
  | Some (String _ _ as m) => Some m
  | _ => None
  end.

(** What can happen to the App: the upload form hands over a task id, the
    progress indicator calls one of its two props, or one of the two buttons
    that reset is pressed. *)
Inductive Event : Type :=
| OptimizationStart (taskId : string)
| Indicator (c : ProgressIndicator.Callback)
| Reset.

(** An event can occur while the component or the button that raises it is
    rendered. *)
Definition enabled (st : State) (e : Event) : bool :=
  match e, screen st with
  | OptimizationStart _, ShowUploadForm => true
  | Indicator _, ShowProgressIndicator _ => true
  | Reset, ShowResults _ => true
  | Reset, _ => match error_banner st with Some _ => true | None => false end
  | _, _ => false
  end.

Definition dispatch (st : State) (e : Event) : State :=
  if enabled st e then
    match e with
    | OptimizationStart taskId => handleOptimizationStart taskId st
    | Indicator c => handle st c
    | Reset => handleReset st
    end
  else st.

(** One submission of the upload form and the polling that follows it:
    [respond] is the server's answer to the request, [responses] are its
    answers to the status requests, each handled before the next tick of the
    interval ([ProgressIndicator.calls]). *)
Definition session (respond : list (string * UploadForm.FormValue) -> UploadForm.Submission)
    (responses : list ProgressIndicator.Response)
    (form : UploadForm.State) (app : State) : State :=
  match UploadForm.onOptimizationStart (UploadForm.submit respond form) with
  | Some taskId =>
      fold_left dispatch
        (map Indicator
           (ProgressIndicator.calls ProgressIndicator.initialState responses))
        (dispatch app (OptimizationStart taskId))
  | None => app
  end.

End App.

(* ===================================================================== *)
(** * The optimisation engine (backend contract) *)
(* ===================================================================== *)

Module Engine.

Local Open Scope Q_scope.

(** ** Data model *)

Inductive Mode : Type := LP_RELAXED | MILP_STRICT.

(** Modelled from the spec: the scenario record of the engine (section 3 and
    section 6); the backend that declares it is not among the sources. *)
Record ScenarioParameters : Type := {
  pv_capex_per_mw : Q;
  bess_capex_per_mwh : Q;
  discount_rate : Q;
  interconnection_capacity_mw : Q;
  onsite_load_price_per_mwh : Q;
  onsite_load_max_mw : Q;
  yoy_price_escalation_rate : Q;
  pv_max_size_mw : option Q;
  bess_max_size_mwh : option Q;
  horizon : nat;                       (* project years, default 25 *)
  big_M : Q                            (* the bound M of the exclusivity rows *)
}.

(** One representative hour: the weight of its day, the production per
    installed MW and the grid price of year 1. *)
Record RepHour : Type := {
  weight : Q;
  production : Q;
  price : Q
}.

(** Modelled from the spec: a representative day is a weight and its hours in
    chronological order (section 3). *)
Record RepresentativeDay : Type := {
  day_weight : Q;
  day_hours : list (Q * Q)             (* (production, price) *)
}.

Definition hours_of_day (d : RepresentativeDay) : list RepHour :=
  map (fun pp => {| weight := day_weight d; production := fst pp; price := snd pp |})
      (day_hours d).

(** The representative hours of a year, days chained in representative order. *)
Definition rep_hours (days : list RepresentativeDay) : list RepHour :=
  flat_map hours_of_day days.

Inductive Flow : Type :=
| pv_to_grid | pv_to_onsite | pv_to_battery
| battery_to_grid | battery_to_onsite | grid_to_battery.

(** Decision variables; [h] is a representative hour (from 0), [y] a project
    year (from 1); [soc h y] is the state of charge at the start of hour [h]. *)
Inductive Var : Type :=
| pv_size_mw
| bess_size_mwh
| flow (f : Flow) (h y : nat)
| soc (h y : nat)
| battery_mode (h : nat).

Inductive VarKind : Type := Continuous | Binary.

(** A linear expression: terms and a constant. *)
Record Expr : Type := {
  terms : list (Q * Var);
  constant : Q
}.

Definition var (x : Var) : Expr := {| terms := (1, x) :: nil; constant := 0 |}.
Definition const (c : Q) : Expr := {| terms := nil; constant := c |}.
Definition plus (a b : Expr) : Expr :=
  {| terms := (terms a ++ terms b)%list; constant := constant a + constant b |}.
Definition scale (c : Q) (a : Expr) : Expr :=
  {| terms := map (fun t => (c * fst t, snd t)) (terms a); constant := c * constant a |}.
Definition minus (a b : Expr) : Expr := plus a (scale (-1) b).
Definition sum_exprs (l : list Expr) : Expr := fold_right plus (const 0) l.

Inductive Constraint : Type :=
| Le (lhs rhs : Expr)
| Eq (lhs rhs : Expr).

Record Model : Type := {
  variables : list (Var * VarKind);
  constraints : list Constraint;
  objective : Expr                     (* maximised *)
}.

(** ** Semantics of a model *)

Definition Valuation : Type := Var -> Q.

Definition eval (v : Valuation) (e : Expr) : Q :=
  fold_right (fun t acc => fst t * v (snd t) + acc) (constant e) (terms e).

Definition holds (v : Valuation) (c : Constraint) : Prop :=
  match c with
  | Le a b => eval v a <= eval v b
  | Eq a b => eval v a == eval v b
  end.

Definition in_domain (v : Valuation) (d : Var * VarKind) : Prop :=
  match snd d with
  | Continuous => 0 <= v (fst d)
  | Binary => v (fst d) == 0 \/ v (fst d) == 1
  end.

Definition feasible (v : Valuation) (m : Model) : Prop :=
  Forall (in_domain v) (variables m) /\ Forall (holds v) (constraints m).

Definition optimal (v : Valuation) (m : Model) : Prop :=
  feasible v m /\
  forall v', feasible v' m -> eval v' (objective m) <= eval v (objective m).

Definition holdsb (v : Valuation) (c : Constraint) : bool :=
  match c with
  | Le a b => Qle_bool (eval v a) (eval v b)
  | Eq a b => Qeq_bool (eval v a) (eval v b)
  end.

Definition in_domainb (v : Valuation) (d : Var * VarKind) : bool :=
  match snd d with
  | Continuous => Qle_bool 0 (v (fst d))
  | Binary => Qeq_bool (v (fst d)) 0 || Qeq_bool (v (fst d)) 1
  end.

Definition feasibleb (v : Valuation) (m : Model) : bool :=
  forallb (in_domainb v) (variables m) && forallb (holdsb v) (constraints m).

(** ** Model builder *)

Fixpoint powq (b : Q) (n : nat) : Q :=
  match n with
  | O => 1
  | S n' => b * powq b n'
  end.

(** The project years [1 .. horizon]. *)
Definition years (sc : ScenarioParameters) : list nat := seq 1 (horizon sc).

(** The representative hours with their index. *)
Definition indexed (hrs : list RepHour) : list (nat * RepHour) :=
  combine (seq 0 (length hrs)) hrs.

(** [(1 + escalation)^(y-1)]: the escalation of year [y]. *)
Definition escalation (sc : ScenarioParameters) (y : nat) : Q :=
  powq (1 + yoy_price_escalation_rate sc) (y - 1).

Definition charge (h y : nat) : Expr :=
  plus (var (flow pv_to_battery h y)) (var (flow grid_to_battery h y)).

Definition discharge (h y : nat) : Expr :=
  plus (var (flow battery_to_grid h y)) (var (flow battery_to_onsite h y)).

(** Rows 1 to 5 for hour [h] of year [y]. *)
Definition hour_rows (sc : ScenarioParameters) (y : nat) (ih : nat * RepHour)
  : list Constraint :=
  let h := fst ih in
  Eq (scale (production (snd ih)) (var pv_size_mw))
     (plus (var (flow pv_to_grid h y))
           (plus (var (flow pv_to_onsite h y)) (var (flow pv_to_battery h y))))
  :: Le (plus (var (flow pv_to_grid h y)) (var (flow battery_to_grid h y)))
        (const (interconnection_capacity_mw sc))
  :: Le (plus (var (flow pv_to_onsite h y)) (var (flow battery_to_onsite h y)))
        (const (onsite_load_max_mw sc))
  :: Eq (var (soc (S h) y)) (minus (plus (var (soc h y)) (charge h y)) (discharge h y))
  :: Le (var (soc h y)) (var bess_size_mwh)
  :: nil.

(** Row 6, the exclusivity of charging and discharging, for hour [h] of
    year [y]. *)
Definition exclusivity_rows (sc : ScenarioParameters) (h y : nat) : list Constraint :=
  Le (charge h y) (scale (big_M sc) (var (battery_mode h)))
  :: Le (discharge h y) (scale (big_M sc) (minus (const 1) (var (battery_mode h))))
  :: nil.

(** The state of charge carried over the year boundary, its bound at the end
    of the year, and the empty battery at the first hour of year 1. *)
Definition year_rows (n : nat) (y : nat) : list Constraint :=
  Le (var (soc n y)) (var bess_size_mwh)
  :: (match y with
      | 1%nat => Eq (var (soc 0 1)) (const 0)
      | _ => Eq (var (soc 0 y)) (var (soc n (y - 1)))
      end)
  :: nil.

Definition ceiling_rows (sc : ScenarioParameters) : list Constraint :=
  (match pv_max_size_mw sc with
   | Some c => Le (var pv_size_mw) (const c) :: nil
   | None => nil
   end
   ++
   match bess_max_size_mwh sc with
   | Some c => Le (var bess_size_mwh) (const c) :: nil
   | None => nil
   end)%list.

Definition base_rows (sc : ScenarioParameters) (hrs : list RepHour) : list Constraint :=
  (flat_map (fun y => (flat_map (hour_rows sc y) (indexed hrs)
                         ++ year_rows (length hrs) y)%list) (years sc)
   ++ ceiling_rows sc)%list.

Definition all_exclusivity_rows (sc : ScenarioParameters) (hrs : list RepHour)
  : list Constraint :=
  flat_map (fun y => flat_map (fun h => exclusivity_rows sc h y) (seq 0 (length hrs)))
           (years sc).

Definition flows : list Flow :=
  pv_to_grid :: pv_to_onsite :: pv_to_battery
  :: battery_to_grid :: battery_to_onsite :: grid_to_battery :: nil.

Definition base_variables (sc : ScenarioParameters) (hrs : list RepHour)
  : list (Var * VarKind) :=
  ((pv_size_mw, Continuous) :: (bess_size_mwh, Continuous)
   :: flat_map (fun y =>
        (flat_map (fun h => map (fun f => (flow f h y, Continuous)) flows
                              ++ (soc h y, Continuous) :: nil)
                  (seq 0 (length hrs))
         ++ (soc (length hrs) y, Continuous) :: nil))
      (years sc))%list.

Definition mode_variables (hrs : list RepHour) : list (Var * VarKind) :=
  map (fun h => (battery_mode h, Binary)) (seq 0 (length hrs)).

(** The net revenue of hour [h] in year [y]: sales to the grid and on site at
    the escalated prices, less the cost of charging from the grid. *)
Definition hour_net (sc : ScenarioParameters) (y : nat) (ih : nat * RepHour) : Expr :=
  let h := fst ih in
  let p := price (snd ih) * escalation sc y in
  let onsite := onsite_load_price_per_mwh sc * escalation sc y in
  minus
    (plus (scale p (plus (var (flow pv_to_grid h y)) (var (flow battery_to_grid h y))))
          (scale onsite (plus (var (flow pv_to_onsite h y))
                              (var (flow battery_to_onsite h y)))))
    (scale p (var (flow grid_to_battery h y))).

(** The weighted net revenue of year [y]. *)
Definition annual_net (sc : ScenarioParameters) (hrs : list RepHour) (y : nat) : Expr :=
  sum_exprs (map (fun ih => scale (weight (snd ih)) (hour_net sc y ih)) (indexed hrs)).

Definition capex (sc : ScenarioParameters) : Expr :=
  plus (scale (pv_capex_per_mw sc) (var pv_size_mw))
       (scale (bess_capex_per_mwh sc) (var bess_size_mwh)).

(** Modelled from the spec: the objective of section 4.2 (and of PLAN.md,
    Objective Function), year [y] discounted by [(1 + discount_rate)^(y-1)]. *)
Definition objective_expr (sc : ScenarioParameters) (hrs : list RepHour) : Expr :=
  minus
    (sum_exprs (map (fun y => scale (/ powq (1 + discount_rate sc) (y - 1))
                                    (annual_net sc hrs y))
                    (years sc)))
    (capex sc).

(** Modelled from the spec: [build(profiles, scenario, capabilityModels,
    representativeDays, mode)] of section 4.2, for the idealised capability
    models; the model builder of the backend is not among the sources. *)
Definition build (sc : ScenarioParameters) (days : list RepresentativeDay) (mode : Mode)
  : Model :=
  let hrs := rep_hours days in
  match mode with
  | LP_RELAXED =>
      {| variables := base_variables sc hrs;
         constraints := base_rows sc hrs;
         objective := objective_expr sc hrs |}
  | MILP_STRICT =>
      {| variables := (base_variables sc hrs ++ mode_variables hrs)%list;
         constraints := (base_rows sc hrs ++ all_exclusivity_rows sc hrs)%list;
         objective := objective_expr sc hrs |}
  end.

(** ** Solution extractor and financial engine *)

(** Modelled from the spec: the cash-flow series of section 4.4,
    [cashFlow[0] = -capex] and [cashFlow[y]] the weighted net revenue of
    year [y]. *)
Definition extract_cash_flows (sc : ScenarioParameters) (hrs : list RepHour)
    (v : Valuation) : list Q :=
  - eval v (capex sc) :: map (fun y => eval v (annual_net sc hrs y)) (years sc).

Fixpoint discounted_from (y : nat) (cashFlows : list Q) (discountRate : Q) : Q :=
  match cashFlows with
  | nil => 0
  | c :: rest => c / powq (1 + discountRate) y + discounted_from (S y) rest discountRate
  end.

(** Modelled from the spec: [NPV(cashFlows, discountRate)], the sum over [y]
    from 0 of [cashFlows[y] / (1 + discountRate)^y] (section 4.4). *)
Definition NPV (cashFlows : list Q) (discountRate : Q) : Q :=
  discounted_from 0 cashFlows discountRate.

Inductive EngineError : Type :=
| InvalidScenario
| InvalidConfiguration
| SolverInfeasible
| SolverUnbounded
| SolverTimeout
| SolverFailure
| InternalConsistencyError.

(** Modelled from the spec: the consistency check of section 4.4 and
    section 7, a mismatch beyond the tolerance is an internal error. *)
Definition check_consistency (tolerance : Q) (cashFlows : list Q) (discountRate : Q)
    (objectiveValue : Q) : option EngineError :=
  if Qle_bool (Qabs (NPV cashFlows discountRate - objectiveValue)) tolerance
  then None
  else Some InternalConsistencyError.

(** ** Progress reporter *)

Inductive Status : Type := PENDING | PROCESSING | COMPLETED | FAILED.

Inductive Phase : Type := building_model | solving | extracting_financials.

Record ProgressState : Type := {
  status : Status;
  phase : option Phase;
  percent : Z;
  message : string
}.

(** The percentage band of a sub-phase. *)
Definition band (p : Phase) : Z * Z :=
  match p with
  | building_model => (0, 10)%Z
  | solving => (10, 70)%Z
  | extracting_financials => (70, 100)%Z
  end.

Definition phase_message (p : Phase) : string :=
  match p with
  | building_model => "Building optimization model..."
  | solving => "Solving optimization problem..."
  | extracting_financials => "Calculating financial metrics..."
  end.

Definition error_message (e : EngineError) : string :=
  match e with
  | InvalidScenario => "Invalid scenario: a parameter is outside its domain"
  | InvalidConfiguration => "Invalid configuration: representative days or mode"
  | SolverInfeasible => "The constraints admit no solution"
  | SolverUnbounded => "The objective is unbounded"
  | SolverTimeout => "The time budget was exhausted before optimality was proved"
  | SolverFailure => "The solver failed"
  | InternalConsistencyError =>
      "Internal error: the recomputed NPV disagrees with the solver objective"
  end.

Definition pending : ProgressState :=
  {| status := PENDING; phase := None; percent := 0;
     message := "Initializing optimization..." |}.

(** Entering a sub-phase, at the lower end of its band. *)
Definition entering (p : Phase) : ProgressState :=
  {| status := PROCESSING; phase := Some p; percent := fst (band p);
     message := phase_message p |}.

(** A sub-phase done, at the upper end of its band. *)
Definition finished (p : Phase) : ProgressState :=
  {| status := PROCESSING; phase := Some p; percent := snd (band p);
     message := phase_message p |}.

Definition completed : ProgressState :=
  {| status := COMPLETED; phase := None; percent := 100;
     message := "Optimization complete!" |}.

(** A failure during sub-phase [p]: the percentage stays where it was. *)
Definition failed (p : Phase) (e : EngineError) : ProgressState :=
  {| status := FAILED; phase := Some p; percent := fst (band p);
     message := error_message e |}.




(** ** Solver adapter and the engine's entry point *)

Inductive SolverStatus : Type :=
| OPTIMAL | FEASIBLE_SUBOPTIMAL | INFEASIBLE | UNBOUNDED | SOLVER_ERROR.

Record SolverResult : Type := {
  solver_status : SolverStatus;
  variableValues : Valuation;
  objectiveValue : Q
}.

Record Solution : Type := {
  values : Valuation;
  npv : Q;
  cash_flows : list Q;
  suboptimal : bool
}.

Inductive Outcome : Type :=
| Completed (s : Solution)
| Failed (e : EngineError).

(** What the caller fixes besides the scenario. *)
Record Configuration : Type := {
  mode : Mode;
  tolerance : Q;
  accept_incumbent : bool              (* surface a FEASIBLE_SUBOPTIMAL result *)
}.

(** Modelled from the spec: the declared domains of section 3; the discount
    rate is a fraction below 1, the rates are not negative, a ceiling is
    positive. *)
Definition valid_scenario (sc : ScenarioParameters) : bool :=
  Qle_bool 0 (discount_rate sc) && negb (Qle_bool 1 (discount_rate sc))
  && Qle_bool 0 (yoy_price_escalation_rate sc)
  && match pv_max_size_mw sc with Some c => negb (Qle_bool c 0) | None => true end
  && match bess_max_size_mwh sc with Some c => negb (Qle_bool c 0) | None => true end.

Definition valid_days (days : list RepresentativeDay) : bool :=
  negb (Nat.eqb (length days) 0)
  && forallb (fun d => Nat.eqb (length (day_hours d)) 24) days.

(** The failure of a solver status, if it is one. *)
Definition solver_failure (c : Configuration) (s : SolverStatus) : option EngineError :=
  match s with
  | OPTIMAL => None
  | FEASIBLE_SUBOPTIMAL => if accept_incumbent c then None else Some SolverTimeout
  | INFEASIBLE => Some SolverInfeasible
  | UNBOUNDED => Some SolverUnbounded
  | SOLVER_ERROR => Some SolverFailure
  end.

(** Modelled from the spec: the blocking entry point [run] (section 5), the
    phases in strict sequence, the reporter written at each phase boundary
    (section 4.5), every failure ending the run at FAILED (section 7). The
    result is the reporter's history and the outcome. *)
Definition run (solver : Model -> SolverResult) (c : Configuration)
    (sc : ScenarioParameters) (days : list RepresentativeDay)
  : list ProgressState * Outcome :=
  let log := pending :: entering building_model :: nil in
  if negb (valid_scenario sc) then
    (log ++ failed building_model InvalidScenario :: nil, Failed InvalidScenario)%list
  else if negb (valid_days days) then
    (log ++ failed building_model InvalidConfiguration :: nil,
     Failed InvalidConfiguration)%list
  else
    let model := build sc days (mode c) in
    let log := (log ++ finished building_model :: entering solving :: nil)%list in
    let r := solver model in
    match solver_failure c (solver_status r) with
    | Some e => (log ++ failed solving e :: nil, Failed e)%list
    | None =>
        let log := (log ++ finished solving :: entering extracting_financials :: nil)%list in
        let cashFlows := extract_cash_flows sc (rep_hours days) (variableValues r) in
        match check_consistency (tolerance c) cashFlows (discount_rate sc)
                (objectiveValue r) with
        | Some e => (log ++ failed extracting_financials e :: nil, Failed e)%list
        | None =>
            (log ++ finished extracting_financials :: completed :: nil,
             Completed {| values := variableValues r;
                          npv := objectiveValue r;
                          cash_flows := cashFlows;
                          suboptimal :=
                            match solver_status r with
                            | OPTIMAL => false
                            | _ => true
                            end |})%list
        end
    end.

(** Modelled from the spec: the progress payload [{status, progress, message}]
    of section 6 as the status endpoint serves it to the client. *)
Definition status_name (s : Status) : string :=
  match s with
  | PENDING => "pending"
  | PROCESSING => "processing"
  | COMPLETED => "completed"
  | FAILED => "failed"
  end.

Definition status_payload (results : option Payload.Results) (s : ProgressState)
  : ProgressIndicator.StatusData :=
  {| ProgressIndicator.sd_status := status_name (status s);
     ProgressIndicator.sd_progress := Some (Js.num_of_Z (percent s));
     ProgressIndicator.sd_message := Some (message s);
     ProgressIndicator.sd_results :=
       match status s with
       | COMPLETED => results
       | _ => None
       end |}.

End Engine.

(* ===================================================================== *)
(** * Vocabulary of the statements *)
(* ===================================================================== *)

Module Shape.
Import Js.

Fixpoint all_digits (s : string) : bool :=
  match s with
  | EmptyString => true
  | String c r => is_digit c && all_digits r
  end.

(** A percentage with two decimals: an optional minus sign, at least one
    digit, a point, two digits and the percent sign. *)
Definition two_decimal_percent (s : string) : Prop :=
  exists sign int dec : string,
    s = String.append sign (String.append int (String.append "." (String.append dec "%")))
    /\ (sign = EmptyString \/ sign = "-"%string)
    /\ int <> EmptyString /\ all_digits int = true
    /\ String.length dec = 2%nat /\ all_digits dec = true.

End Shape.

Module FormSpec.
Import Js UploadForm.

(** The text of an input is present and parses to a number above 0. *)
Definition positive_number (value : option string) : Prop :=
  exists s, value = Some s /\ trim s <> EmptyString
            /\ gt (parseFloat s) (Finite 0) = true.

(** An optional input is left empty or parses to a number above 0. *)
Definition empty_or_positive (value : option string) : Prop :=
  value = None \/ value = Some EmptyString
  \/ exists s, value = Some s /\ gt (parseFloat s) (Finite 0) = true.

(** The message of the required-field check, if any. *)
Definition required_error (formData : FormData) (field : string) : option string :=
  let value := formData !! field in
  if is_blank value then Some "This field is required"%string
  else if num_isNaN (parseFloat (text value)) || le (parseFloat (text value)) (Finite 0)
       then Some "Must be a positive number"%string
       else None.

(** The form of Scenario A (section 8): capex 0 $/MW and 0 $/MWh, discount
    rate 0.08, interconnection cap 100 MW, on-site cap 0 MW, no escalation;
    the on-site price, which the scenario leaves open, is 50. *)
Definition scenario_A : FormData :=
  list_to_map
    (("pvCapexPerMw", "0") :: ("bessCapexPerMwh", "0") :: ("discountRate", "0.08")
     :: ("interconnectionCapacityMw", "100") :: ("onsiteLoadPricePerMwh", "50")
     :: ("onsiteLoadMaxMw", "0") :: ("yoyPriceEscalationRate", "0")
     :: ("pvMaxSizeMw", "") :: ("bessMaxSizeMwh", "") :: nil).

(** The request of PLAN.md with a discount rate of exactly 1. *)
Definition discount_rate_one : FormData :=
  list_to_map
    (("pvCapexPerMw", "1000000") :: ("bessCapexPerMwh", "300000")
     :: ("discountRate", "1")
     :: ("interconnectionCapacityMw", "100") :: ("onsiteLoadPricePerMwh", "50")
     :: ("onsiteLoadMaxMw", "20") :: ("yoyPriceEscalationRate", "0.02")
     :: ("pvMaxSizeMw", "") :: ("bessMaxSizeMwh", "") :: nil).

(** The scenario fields of the request (section 6), with the input each is
    taken from. *)
Definition scenario_fields : list (string * string) :=
  (("pv_capex_per_mw", "pvCapexPerMw") :: ("bess_capex_per_mwh", "bessCapexPerMwh")
   :: ("discount_rate", "discountRate")
   :: ("interconnection_capacity_mw", "interconnectionCapacityMw")
   :: ("onsite_load_price_per_mwh", "onsiteLoadPricePerMwh")
   :: ("onsite_load_max_mw", "onsiteLoadMaxMw")
   :: ("yoy_price_escalation_rate", "yoyPriceEscalationRate") :: nil)%string.

(** No message is the empty text. *)
Definition messages_nonempty (errs : Errors) : Prop :=
  forall k m, errs !! k = Some m -> m <> EmptyString.

Definition both_files : Files :=
  {| pvProduction := Some "pv_production.csv"; pricing := Some "pricing.csv" |}.

End FormSpec.

Module PayloadSpec.
Import Js Payload.

Definition january : RevenueEntry :=
  {| year := 1; month := 1; revenue := Finite 125000 |}.

Definition common_fields : Results :=
  list_to_map
    (("optimal_pv_size_mw", JNum (Finite (151 # 2)))
     :: ("optimal_bess_size_mwh", JNum (Finite 150))
     :: ("npv", JNum (Finite 2500000))
     :: ("irr", JNum (Finite (1 # 8)))
     :: ("capex_total", JNum (Finite 107500000))
     :: ("monthly_revenues", JArr (january :: nil)) :: nil).

(** The result payload with the field names of section 6 of the
    specification. *)
Definition payload_of_spec : Results :=
  <["total_revenue_over_horizon" := JNum (Finite 150000000)]> common_fields.

(** The same values under the name the component reads. *)
Definition payload_of_code : Results :=
  <["total_revenue_25_years" := JNum (Finite 150000000)]> common_fields.

(** A payload in which every field read holds the number 1. *)
Definition ones : Results :=
  list_to_map (map (fun k => (k, JNum (Finite 1))) ResultsDisplay.fields_read).

End PayloadSpec.

Module DisplaySpec.
Import Js Payload.





(** The integer a text of decimal digits denotes. *)
Definition value_of_digits (s : string) : option Z :=
  option_map (fun d => Z.of_N (N.of_uint d)) (NilZero.uint_of_string s).


End DisplaySpec.

Module EngineSpec.
Import Engine.
Local Open Scope Q_scope.





(** A small scenario: PV at 1000 $/MW up to 2 MW, storage at 1000 $/MWh,
    discount rate 8 %, interconnection cap 100 MW, no on-site load, no
    escalation, one project year. *)
Definition small_scenario : ScenarioParameters :=
  {| pv_capex_per_mw := 1000; bess_capex_per_mwh := 1000;
     discount_rate := 8 # 100;
     interconnection_capacity_mw := 100;
     onsite_load_price_per_mwh := 0; onsite_load_max_mw := 0;
     yoy_price_escalation_rate := 0;
     pv_max_size_mw := Some 2; bess_max_size_mwh := None;
     horizon := 1; big_M := 1000 |}.

(** One representative day for the whole year: production 0.5 MWh/MW at a
    price of 50 $/MWh in its first hour, no production and a price of 0 in
    the other 23. *)
Definition small_day : RepresentativeDay :=
  {| day_weight := 365; day_hours := (1 # 2, 50) :: repeat (0, 0) 23 |}.

Definition small_model : Model := build small_scenario (small_day :: nil) LP_RELAXED.

(** 2 MW of PV, its production of the first hour sold to the grid. *)
Definition small_solution : Valuation :=
  fun x =>
    match x with
    | pv_size_mw => 2
    | flow pv_to_grid 0 1 => 1
    | _ => 0
    end.

Definition small_cash_flows : list Q :=
  extract_cash_flows small_scenario (rep_hours (small_day :: nil)) small_solution.

End EngineSpec.

Module ProgressSpec.
Import Engine.






(** What a polling client has seen of a solve: the initial state of the
    indicator, then the states it shows for the reporter states [samples] that
    its polls happened to read. *)
Definition shown (results : option Payload.Results) (samples : list ProgressState)
  : list ProgressIndicator.State :=
  ProgressIndicator.initialState
  :: ProgressIndicator.observe ProgressIndicator.initialState
       (map (fun s => ProgressIndicator.Resolved (status_payload results s)) samples).




End ProgressSpec.

Module ChartSpec.
Import Js Payload MonthlyRevenueChart.

(** The table after the entries [l]: distinct keys, one per year of [l],
    each holding that year and its total. *)
Definition table_of (l : list RevenueEntry) (yd : YearlyData) : Prop :=
  List.NoDup (map fst yd)
  /\ (forall k, In k (map fst yd) <-> In k (map year l))
  /\ (forall k it, In (k, it) yd ->
        item_year it = k /\ item_revenue it = year_total l k).

End ChartSpec.

Module PollingSpec.

(** The polling of TESTING_E2E.md (Expected Output): 5, 10, 30, 70 and 100
    per cent while processing, then completed. *)
Definition e2e_responses : list ProgressIndicator.Response :=
  map (fun sp =>
         ProgressIndicator.Resolved
           {| ProgressIndicator.sd_status := fst sp;
              ProgressIndicator.sd_progress := Some (Js.num_of_Z (snd sp));
              ProgressIndicator.sd_message := None;
              ProgressIndicator.sd_results :=
                if String.eqb (fst sp) "completed"
                then Some PayloadSpec.payload_of_code else None |})
      (("processing", 5) :: ("processing", 10) :: ("processing", 30)
       :: ("processing", 70) :: ("processing", 100) :: ("completed", 100) :: nil)%string.

(** A response that ends the polling: the request failed, or the status is
    completed or failed. *)
Definition final (r : ProgressIndicator.Response) : bool :=
  match r with
  | ProgressIndicator.Rejected => true
  | ProgressIndicator.Resolved sd =>
      String.eqb (ProgressIndicator.sd_status sd) "completed"
      || String.eqb (ProgressIndicator.sd_status sd) "failed"
  end.

(** The colours of the two terminal states. *)
Definition terminal_colour (colour : string) : bool :=
  String.eqb colour "#10b981" || String.eqb colour "#ef4444".

End PollingSpec.

Module AppSpec.
Import App.

(** A form typed in: both files chosen, 100 in every required input but the
    discount rate, which is 0.08. *)
Definition typed_form : UploadForm.State :=
  fold_left UploadForm.handleEvent
    (UploadForm.FileChange "pvProduction" (Some ("pv_production.csv"%string :: nil))
     :: UploadForm.FileChange "pricing" (Some ("pricing.csv"%string :: nil))
     :: map (fun f => UploadForm.InputChange f
                        (if String.eqb f "discountRate" then "0.08" else "100")%string)
          UploadForm.requiredFields)
    UploadForm.initialState.

(** A server that accepts every request as task-1. *)
Definition accept_all (_ : list (string * UploadForm.FormValue)) : UploadForm.Submission :=
  UploadForm.Accepted "task-1".

(** A status completed that carries no results. *)
Definition completed_empty : ProgressIndicator.StatusData :=
  {| ProgressIndicator.sd_status := "completed";
     ProgressIndicator.sd_progress := Some (Js.num_of_Z 100);
     ProgressIndicator.sd_message := None;
     ProgressIndicator.sd_results := None |}.

(** No task is polled while results or an error are held, and no error is
    held beside results. *)
Definition consistent (st : State) : Prop :=
  (currentTaskId st <> None -> results st = None /\ error st = None)
  /\ (results st <> None -> error st = None).

End AppSpec.

(* ===================================================================== *)
(** * The components on concrete inputs *)
(* ===================================================================== *)

Module Examples.
Import Js Payload.

(** The binary64 number nearest to 0.08. *)
Example parseFloat_decimal :
  parseFloat "0.08" = Finite (5764607523034235 # 72057594037927936).
Proof. vm_compute. reflexivity. Qed.

Example parseFloat_prefix : parseFloat "  1.5e2 MW" = Finite 150.
Proof. vm_compute. reflexivity. Qed.

Example parseFloat_no_digits : parseFloat "-." = NaN /\ parseFloat "" = NaN.
Proof. split; reflexivity. Qed.

(** Texts that binary64 cannot tell from 1 and from 0, and one beyond the
    largest number. *)
Example parseFloat_rounds :
  parseFloat "1.00000000000000001" = Finite 1
  /\ parseFloat "1e-400" = Finite 0
  /\ parseFloat "1e400" = Infinity false.
Proof. repeat split; vm_compute; reflexivity. Qed.

(** Sums round: 1 is lost beside 10^16. *)
Example add_rounds :
  add (Finite (inject_Z (10 ^ 16))) (Finite 1) = Finite (inject_Z (10 ^ 16)).
Proof. vm_compute. reflexivity. Qed.

Example toFixed_rounds_half_up : toFixed (Finite (125 # 1000)) 2 = "0.13"%string.
Proof. vm_compute. reflexivity. Qed.

(** 1.005 is a binary64 number just below 1.005. *)
Example toFixed_of_the_number_read : toFixed (parseFloat "1.005") 2 = "1.00"%string.
Proof. vm_compute. reflexivity. Qed.

Example toFixed_negative_small : toFixed (Finite (- (1 # 1000))) 2 = "-0.00"%string.
Proof. vm_compute. reflexivity. Qed.

Example toFixed_large :
  toFixed (Finite (inject_Z (10 ^ 21))) 2 = "1e+21"%string
  /\ toFixed (parseFloat "-123456789012345678901234") 2
     = "-1.2345678901234569e+23"%string.
Proof. split; vm_compute; reflexivity. Qed.

Example format_usd_groups : format_usd (Finite 107500000) = "$107,500,000"%string.
Proof. vm_compute. reflexivity. Qed.

Example formatPercent_rate :
  ResultsDisplay.formatPercent (JNum (Finite (1 # 8))) = "12.50%"%string.
Proof. vm_compute. reflexivity. Qed.

(** The product is rounded before it is printed: 0.00065 * 100 is a number
    just above 0.065. *)
Example formatPercent_rounds_the_product :
  ResultsDisplay.formatPercent (JNum (parseFloat "0.00065")) = "0.07%"%string.
Proof. vm_compute. reflexivity. Qed.

Example formatPercent_zero :
  ResultsDisplay.formatPercent (JNum (Finite 0)) = "N/A"%string.
Proof. reflexivity. Qed.

Example formatPercent_infinite :
  ResultsDisplay.formatPercent (JNum (Infinity false)) = "Infinity%"%string.
Proof. reflexivity. Qed.

Example year_labels :
  MonthlyRevenueChart.string_of_Z (-2024) = "-2024"%string
  /\ MonthlyRevenueChart.string_of_Z (2 ^ 64) = "18446744073709552000"%string
  /\ MonthlyRevenueChart.string_of_Z (10 ^ 21) = "1e+21"%string.
Proof. repeat split; vm_compute; reflexivity. Qed.

(** Two months of year 2 around one of year 1, and a year that is not an
    array index: the indices come first in ascending order. *)
Example chartData_groups_and_orders :
  map MonthlyRevenueChart.point_year
    (MonthlyRevenueChart.chartData
       (Some ({| year := 2; month := 1; revenue := Finite 10 |}
              :: {| year := -3; month := 1; revenue := Finite 1 |}
              :: {| year := 1; month := 1; revenue := Finite 5 |}
              :: {| year := 2; month := 2; revenue := Finite 7 |} :: nil)))
  = ("Year 1" :: "Year 2" :: "Year -3" :: nil)%string
  /\ map MonthlyRevenueChart.revenueFormatted
       (MonthlyRevenueChart.chartData
          (Some ({| year := 2; month := 1; revenue := Finite 10 |}
                 :: {| year := -3; month := 1; revenue := Finite 1 |}
                 :: {| year := 1; month := 1; revenue := Finite 5 |}
                 :: {| year := 2; month := 2; revenue := Finite 7 |} :: nil)))
     = ("$5" :: "$17" :: "$1" :: nil)%string.
Proof. split; vm_compute; reflexivity. Qed.

(** The request of PLAN.md validates. *)
Example validateForm_plan_request :
  UploadForm.validateForm FormSpec.both_files
    (<["discountRate" := "0.08"]> FormSpec.discount_rate_one) = true.
Proof. vm_compute. reflexivity. Qed.

Example validateForm_initial_form :
  UploadForm.validateForm {| UploadForm.pvProduction := None; UploadForm.pricing := None |}
    UploadForm.initialFormData = false.
Proof. vm_compute. reflexivity. Qed.

(** The polling of TESTING_E2E.md delivers the results once. *)
Example e2e_polling_delivers_results :
  ProgressIndicator.calls ProgressIndicator.initialState PollingSpec.e2e_responses
  = ProgressIndicator.onComplete (Some PayloadSpec.payload_of_code) :: nil
  /\ map ProgressIndicator.status
       (ProgressIndicator.observe ProgressIndicator.initialState PollingSpec.e2e_responses)
     = ("processing" :: "processing" :: "processing" :: "processing"
        :: "processing" :: "completed" :: nil)%string.
Proof. split; vm_compute; reflexivity. Qed.

End Examples.

(* ===================================================================== *)
(** * Facts about the runtime *)
(* ===================================================================== *)

Module JsFacts.
Import Js Shape.

Lemma append_cons (c : ascii) (a b : string) :
  String.append (String c a) b = String c (String.append a b).
Proof. reflexivity. Qed.

Lemma append_nil (b : string) : String.append EmptyString b = b.
Proof. reflexivity. Qed.

Lemma append_assoc (a b c : string) :
  String.append (String.append a b) c = String.append a (String.append b c).
Proof.
  induction a as [|x a IH]; [reflexivity |].
  now rewrite !append_cons, IH.
Qed.

Lemma length_append (a b : string) :
  String.length (String.append a b) = (String.length a + String.length b)%nat.
Proof.
  induction a as [|x a IH]; [reflexivity |].
  rewrite append_cons. simpl. now rewrite IH.
Qed.

Lemma all_digits_append (a b : string) :
  all_digits (String.append a b) = all_digits a && all_digits b.
Proof.
  induction a as [|x a IH]; [reflexivity |].
  rewrite append_cons. simpl. rewrite IH. now rewrite andb_assoc.
Qed.

Lemma all_digits_zeros (k : nat) : all_digits (zeros k) = true.
Proof. induction k as [|k IH]; simpl; [reflexivity | exact IH]. Qed.

Lemma length_zeros (k : nat) : String.length (zeros k) = k.
Proof. induction k as [|k IH]; simpl; [reflexivity | now rewrite IH]. Qed.

Lemma take_drop (k : nat) (s : string) : String.append (take k s) (drop k s) = s.
Proof.
  revert s; induction k as [|k IH]; intros [|c s]; simpl; try reflexivity.
  now rewrite append_cons, IH.
Qed.

Lemma length_take (k : nat) (s : string) :
  (k <= String.length s)%nat -> String.length (take k s) = k.
Proof.
  revert s; induction k as [|k IH]; intros [|c s] H; simpl in *; try reflexivity; try lia.
  rewrite IH; [reflexivity | lia].
Qed.

Lemma length_drop (k : nat) (s : string) :
  String.length (drop k s) = (String.length s - k)%nat.
Proof.
  revert s; induction k as [|k IH]; intros [|c s]; simpl; try reflexivity.
  apply IH.
Qed.

Lemma all_digits_take (k : nat) (s : string) :
  all_digits s = true -> all_digits (take k s) = true.
Proof.
  revert s; induction k as [|k IH]; intros [|c s] H; simpl in *; try reflexivity.
  apply andb_true_iff in H as [Hc Hs]. rewrite Hc. now apply IH.
Qed.

Lemma all_digits_drop (k : nat) (s : string) :
  all_digits s = true -> all_digits (drop k s) = true.
Proof.
  revert s; induction k as [|k IH]; intros [|c s] H; simpl in *; try assumption.
  apply andb_true_iff in H as [_ Hs]. now apply IH.
Qed.

Lemma all_digits_uint (d : Decimal.uint) :
  all_digits (NilEmpty.string_of_uint d) = true.
Proof. induction d; simpl; auto. Qed.

Lemma all_digits_of_Z (n : Z) : all_digits (digits_of_Z n) = true.
Proof.
  unfold digits_of_Z, NilZero.string_of_uint.
  destruct (N.to_uint (Z.to_N n)); try reflexivity; apply all_digits_uint.
Qed.

(** A text that ends with the percent sign is not the text N/A. *)
Lemma percent_not_NA (s : string) : String.append s "%" <> "N/A"%string.
Proof.
  destruct s as [|a [|b [|c s]]]; rewrite ?append_cons, ?append_nil; try discriminate.
  intros H. injection H as _ _ _ H. destruct s; discriminate.
Qed.

Lemma is_zero_Finite (q : Q) : is_zero (Finite q) = true <-> q == 0.
Proof.
  unfold is_zero, Qsgn, Qeq. simpl. rewrite Z.eqb_eq, Z.sgn_null_iff. lia.
Qed.

(** The shape of a fixed-notation rendering with two decimals, which is the
    notation of magnitudes below 10^21. *)
Lemma toFixed_two_decimals (q : Q) :
  Qle_bool (inject_Z (10 ^ 21)) (Qabs q) = false ->
  exists sign int dec : string,
    toFixed (Finite q) 2 = String.append sign (String.append int (String.append "." dec))
    /\ (sign = EmptyString \/ sign = "-"%string)
    /\ int <> EmptyString /\ all_digits int = true
    /\ String.length dec = 2%nat /\ all_digits dec = true.
Proof.
  intros Hsmall. unfold toFixed. rewrite Hsmall.
  set (m0 := digits_of_Z (round_scaled q 2)).
  set (m := String.append (zeros (3 - String.length m0)) m0).
  assert (Hd : all_digits m = true).
  { unfold m. rewrite all_digits_append, all_digits_zeros. apply all_digits_of_Z. }
  assert (Hl : (3 <= String.length m)%nat).
  { unfold m. rewrite length_append, length_zeros. lia. }
  exists (if Qsgn q <? 0 then "-"%string else EmptyString),
    (take (String.length m - 2) m), (drop (String.length m - 2) m).
  repeat split.
  - destruct (Qsgn q <? 0); [right | left]; reflexivity.
  - intros E. apply (f_equal String.length) in E.
    rewrite length_take in E by lia. simpl in E. lia.
  - now apply all_digits_take.
  - rewrite length_drop. lia.
  - now apply all_digits_drop.
Qed.

End JsFacts.

(* ===================================================================== *)
(** * ResultsDisplay: the rate of return *)
(* ===================================================================== *)

Module FormatPercentFacts.
Import Js Payload ResultsDisplay Shape JsFacts.

Lemma formatPercent_number (n : JsNum) :
  formatPercent (JNum n) =
    if is_zero n || num_isNaN n then "N/A"%string
    else String.append (toFixed (mul n (Finite 100)) 2) "%".
Proof.
  unfold formatPercent, truthy, isNaN, ToNumber.
  destruct (is_zero n) eqn:Hz, (num_isNaN n) eqn:Hn; reflexivity.
Qed.

End FormatPercentFacts.

(* ===================================================================== *)
(** * MonthlyRevenueChart: aggregation by year *)
(* ===================================================================== *)

Module ChartFacts.
Import Js Payload MonthlyRevenueChart ChartSpec.

(** ** Addition of numbers *)

Lemma Qplus_comm_eq (a b : Q) : (a + b)%Q = (b + a)%Q.
Proof. unfold Qplus. f_equal; [ring | apply Pos.mul_comm]. Qed.

Lemma add_comm (x y : JsNum) : add x y = add y x.
Proof.
  destruct x as [| s | a], y as [| t | b]; cbn [add]; try reflexivity.
  - destruct s, t; reflexivity.
  - now rewrite Qplus_comm_eq.
Qed.

(** The total of a year is that of the entries of the year, in their order. *)
Lemma year_total_ext (d1 d2 : list RevenueEntry) (y : Z) :
  List.filter (fun e => year e =? y) d1 = List.filter (fun e => year e =? y) d2 ->
  year_total d1 y = year_total d2 y.
Proof. intros H. unfold year_total. now rewrite H. Qed.

Lemma In_year_filter (d : list RevenueEntry) (y : Z) :
  In y (map year d) <-> List.filter (fun e => year e =? y) d <> nil.
Proof.
  induction d as [| e d IH]; simpl; [tauto |].
  destruct (Z.eqb_spec (year e) y) as [E | E].
  - split; [discriminate | now left].
  - rewrite <- IH. tauto.
Qed.

Lemma year_total_snoc (l : list RevenueEntry) (e : RevenueEntry) (k : Z) :
  year_total (l ++ e :: nil) k =
    if year e =? k then add (year_total l k) (revenue e) else year_total l k.
Proof.
  unfold year_total. rewrite List.filter_app. simpl.
  destruct (year e =? k).
  - now rewrite List.map_app, fold_left_app.
  - now rewrite app_nil_r.
Qed.

Lemma year_total_absent (l : list RevenueEntry) (k : Z) :
  ~ In k (map year l) -> year_total l k = Finite 0.
Proof.
  intros H. unfold year_total.
  replace (List.filter (fun e => year e =? k) l) with (@nil RevenueEntry); [reflexivity |].
  induction l as [| e l IH]; [reflexivity |]. simpl in *.
  destruct (year e =? k) eqn:E.
  - apply Z.eqb_eq in E. tauto.
  - apply IH. tauto.
Qed.

(** ** The yearly table *)

Lemma has_key_In (yd : YearlyData) (k : Z) :
  has_key yd k = true <-> In k (map fst yd).
Proof.
  induction yd as [| [k' it] yd IH]; simpl.
  - split; [discriminate | tauto].
  - rewrite orb_true_iff, Z.eqb_eq, IH. tauto.
Qed.

Lemma add_revenue_keys (yd : YearlyData) (k : Z) (r : JsNum) :
  map fst (add_revenue yd k r) = map fst yd.
Proof.
  induction yd as [| [k' it] yd IH]; simpl; [reflexivity |].
  destruct (k' =? k); simpl; [reflexivity | now rewrite IH].
Qed.

Lemma add_revenue_absent (yd : YearlyData) (k : Z) (r : JsNum) :
  ~ In k (map fst yd) -> add_revenue yd k r = yd.
Proof.
  induction yd as [| [k' it] yd IH]; simpl; intros H; [reflexivity |].
  destruct (k' =? k) eqn:E.
  - apply Z.eqb_eq in E. tauto.
  - rewrite IH; tauto.
Qed.

Lemma add_revenue_app_absent (yd yd' : YearlyData) (k : Z) (r : JsNum) :
  ~ In k (map fst yd) ->
  add_revenue (yd ++ yd') k r = (yd ++ add_revenue yd' k r)%list.
Proof.
  induction yd as [| [k' it] yd IH]; simpl; intros H; [reflexivity |].
  destruct (k' =? k) eqn:E.
  - apply Z.eqb_eq in E. tauto.
  - rewrite IH; tauto.
Qed.

(** What [add_revenue] leaves in a table whose keys are distinct. *)
Lemma In_add_revenue (yd : YearlyData) (k : Z) (r : JsNum) (k' : Z) (it' : YearItem) :
  List.NoDup (map fst yd) ->
  In (k', it') (add_revenue yd k r) ->
  (k' <> k /\ In (k', it') yd)
  \/ (k' = k /\ exists it, In (k, it) yd
                /\ it' = {| item_year := item_year it;
                            item_revenue := add (item_revenue it) r |}).
Proof.
  induction yd as [| [k0 it0] yd IH]; simpl; intros Hnd H; [tauto |].
  apply List.NoDup_cons_iff in Hnd as [Hnotin Hnd'].
  destruct (k0 =? k) eqn:E.
  - apply Z.eqb_eq in E. subst k0. destruct H as [H | H].
    + injection H as <- <-. right. split; [reflexivity |]. eauto.
    + left. split; [| now right].
      intros E. apply Hnotin. apply in_map_iff. exists (k', it'). now split.
  - apply Z.eqb_neq in E. destruct H as [H | H].
    + injection H as <- <-. left. split; [assumption | now left].
    + destruct (IH Hnd' H) as [[Hne Hin] | [-> (it & Hin & ->)]].
      * left. split; [assumption | now right].
      * right. split; [reflexivity |]. exists it. split; [now right | reflexivity].
Qed.

Lemma table_of_step (l : list RevenueEntry) (yd : YearlyData) (e : RevenueEntry) :
  table_of l yd -> table_of (l ++ e :: nil) (forEach_body yd e).
Proof.
  intros (Hnd & Hkeys & Hval). unfold forEach_body.
  destruct (has_key yd (year e)) eqn:Hk; cbn [negb].
  - apply has_key_In in Hk. split; [| split].
    + now rewrite add_revenue_keys.
    + intros k. rewrite add_revenue_keys, List.map_app, in_app_iff, Hkeys. simpl.
      split; [tauto |]. intros [H | [<- | []]]; [assumption | now apply Hkeys].
    + intros k it H. rewrite year_total_snoc.
      apply In_add_revenue in H; [| assumption].
      destruct H as [[Hne H] | [-> (it0 & H & ->)]].
      * apply Hval in H as [Hy ->]. split; [assumption |].
        destruct (year e =? k) eqn:E; [| reflexivity].
        apply Z.eqb_eq in E. congruence.
      * apply Hval in H as [Hy <-]. rewrite Z.eqb_refl. now split.
  - assert (Hno : ~ In (year e) (map fst yd)).
    { rewrite <- has_key_In. congruence. }
    rewrite add_revenue_app_absent by assumption. simpl. rewrite Z.eqb_refl.
    split; [| split].
    + rewrite List.map_app. simpl.
      apply Stdlib.Sorting.Permutation.Permutation_NoDup with (year e :: map fst yd).
      * apply Permutation_cons_append.
      * now constructor.
    + intros k. rewrite !List.map_app, !in_app_iff, Hkeys. reflexivity.
    + intros k it H. rewrite year_total_snoc.
      apply in_app_iff in H as [H | [H | []]].
      * destruct (year e =? k) eqn:E.
        -- apply Z.eqb_eq in E. subst k. exfalso. apply Hno.
           apply in_map_iff. now exists (year e, it).
        -- now apply Hval in H.
      * injection H as <- <-. simpl. rewrite Z.eqb_refl. split; [reflexivity |].
        rewrite year_total_absent; [reflexivity |].
        now rewrite <- Hkeys.
Qed.

Lemma table_of_yearly (data : list RevenueEntry) : table_of data (yearly data).
Proof.
  unfold yearly. induction data as [| e l IH] using rev_ind.
  - split; [constructor | split]; simpl; [tauto | intros k it []].
  - rewrite fold_left_app. simpl. now apply table_of_step.
Qed.

(** ** Enumeration order *)

Lemma insert_by_key_perm (x : Z * YearItem) (l : YearlyData) :
  Permutation (insert_by_key x l) (x :: l).
Proof.
  induction l as [| y l IH]; simpl; [reflexivity |].
  destruct (fst x <=? fst y); [reflexivity |].
  rewrite IH. apply perm_swap.
Qed.

Lemma sort_by_key_perm (l : YearlyData) : Permutation (sort_by_key l) l.
Proof.
  induction l as [| x l IH]; simpl; [reflexivity |].
  rewrite insert_by_key_perm. now constructor.
Qed.

Lemma filter_split_perm {A : Type} (f : A -> bool) (l : list A) :
  Permutation (List.filter f l ++ List.filter (fun x => negb (f x)) l) l.
Proof.
  induction l as [| x l IH]; simpl; [reflexivity |].
  destruct (f x); simpl.
  - now constructor.
  - symmetry. apply Permutation_cons_app. now symmetry.
Qed.

Lemma Object_values_perm (yd : YearlyData) :
  Permutation (Object_values yd) (map snd yd).
Proof.
  unfold Object_values. apply Permutation_map.
  rewrite sort_by_key_perm. apply filter_split_perm.
Qed.

(** ** The entries of the chart *)

Lemma items_years (data : list RevenueEntry) :
  Permutation (map item_year (Object_values (yearly data))) (map fst (yearly data)).
Proof.
  destruct (table_of_yearly data) as (_ & _ & Hval).
  rewrite Object_values_perm, List.map_map.
  replace (map (fun p => item_year (snd p)) (yearly data)) with (map fst (yearly data));
    [reflexivity |].
  apply map_ext_in. intros [k it] H. simpl. now apply Hval in H as [-> _].
Qed.

Lemma In_items (data : list RevenueEntry) (it : YearItem) :
  In it (Object_values (yearly data)) <->
  In (item_year it) (map year data) /\ item_revenue it = year_total data (item_year it).
Proof.
  destruct (table_of_yearly data) as (_ & Hkeys & Hval).
  split.
  - intros H. apply (Permutation_in _ (Object_values_perm _)) in H.
    apply in_map_iff in H as ([k it'] & E & H). simpl in E. subst it'.
    destruct (Hval _ _ H) as [<- Hr]. split; [| assumption].
    apply Hkeys. apply in_map_iff. now exists (item_year it, it).
  - intros [Hy Hr]. apply (Permutation_in _ (Permutation_sym (Object_values_perm _))).
    apply Hkeys in Hy. apply in_map_iff in Hy as ([k it'] & E & H). simpl in E. subst k.
    apply in_map_iff. exists (item_year it, it'). split; [| assumption].
    simpl. destruct (Hval _ _ H) as [Hy' Hr']. destruct it, it'; simpl in *. congruence.
Qed.

Lemma NoDup_items (data : list RevenueEntry) :
  List.NoDup (map item_year (Object_values (yearly data))).
Proof.
  destruct (table_of_yearly data) as (Hnd & _ & _).
  apply Stdlib.Sorting.Permutation.Permutation_NoDup with (map fst (yearly data)); [| assumption].
  symmetry. apply items_years.
Qed.

Lemma chartData_items (data : list RevenueEntry) :
  chartData (Some data) = map to_point (Object_values (yearly data)).
Proof. now destruct data. Qed.

(** The table of two lists with the same years and the same totals holds the
    same entries. *)
Lemma yearly_same (d1 d2 : list RevenueEntry) :
  (forall y, In y (map year d1) <-> In y (map year d2)) ->
  (forall y, year_total d1 y = year_total d2 y) ->
  Permutation (yearly d1) (yearly d2).
Proof.
  intros Hyears Htotals.
  destruct (table_of_yearly d1) as (Hnd1 & Hk1 & Hv1).
  destruct (table_of_yearly d2) as (Hnd2 & Hk2 & Hv2).
  assert (Hhalf : forall da db,
            (forall y, In y (map year da) -> In y (map year db)) ->
            (forall y, year_total da y = year_total db y) ->
            (forall k, In k (map fst (yearly da)) <-> In k (map year da)) ->
            (forall k, In k (map fst (yearly db)) <-> In k (map year db)) ->
            (forall k it, In (k, it) (yearly da) ->
               item_year it = k /\ item_revenue it = year_total da k) ->
            (forall k it, In (k, it) (yearly db) ->
               item_year it = k /\ item_revenue it = year_total db k) ->
            forall p, In p (yearly da) -> In p (yearly db)).
  { intros da db Hab Hsum Hka Hkb Hva Hvb [k it] Hin.
    destruct (Hva _ _ Hin) as [Hy Hr].
    assert (Hk : In k (map fst (yearly db))).
    { apply Hkb, Hab, Hka. apply in_map_iff. now exists (k, it). }
    apply in_map_iff in Hk as ([k' it'] & E & Hin'). simpl in E. subst k'.
    destruct (Hvb _ _ Hin') as [Hy' Hr'].
    rewrite <- (Hsum k) in Hr'.
    replace it with it'; [exact Hin' |].
    destruct it, it'; simpl in *; congruence. }
  apply Stdlib.Sorting.Permutation.NoDup_Permutation.
  - eapply List.NoDup_map_inv, Hnd1.
  - eapply List.NoDup_map_inv, Hnd2.
  - intros p. split.
    + apply (Hhalf d1 d2); auto. intros y. apply Hyears.
    + apply (Hhalf d2 d1); auto. intros y. apply Hyears.
Qed.

(** C10 (as the code has it). The chart has one point per distinct year of
    the list; the point of a year carries the label of the year, the sum of
    the revenues of that year's entries, added in binary64 in the order of
    the list, and that sum in dollars. Two lists in which every year has the
    same entries in the same order give the same totals and the same points,
    however the years are interleaved, and a permutation of a list leaves the
    years of the chart and the number of its points unchanged. A null or
    empty list gives no chart data (the component then shows that no revenue
    data is available). *)
Theorem chart_aggregates_revenue_by_year :
  (forall data : list RevenueEntry,
     let items := Object_values (yearly data) in
     chartData (Some data) = map to_point items
     /\ length (chartData (Some data)) = length (nodup Z.eq_dec (map year data))
     /\ List.NoDup (map item_year items)
     /\ (forall y, In y (map item_year items) <-> In y (map year data))
     /\ (forall it, In it items -> item_revenue it = year_total data (item_year it))
     /\ (forall p, In p (chartData (Some data)) <->
           exists y, In y (map year data)
                     /\ p = {| point_year := String.append "Year " (string_of_Z y);
                               point_revenue := year_total data y;
                               revenueFormatted := format_usd (year_total data y) |}))
  /\ (forall d1 d2 : list RevenueEntry,
        (forall y, List.filter (fun e => year e =? y) d1
                   = List.filter (fun e => year e =? y) d2) ->
        (forall y, year_total d1 y = year_total d2 y)
        /\ Permutation (chartData (Some d1)) (chartData (Some d2)))
  /\ (forall d1 d2 : list RevenueEntry, Permutation d1 d2 ->
        Permutation (map item_year (Object_values (yearly d1)))
                    (map item_year (Object_values (yearly d2)))
        /\ length (chartData (Some d1)) = length (chartData (Some d2)))
  /\ (chartData None = nil /\ chartData (Some nil) = nil
      /\ MonthlyRevenueChart None = NoRevenueData
      /\ MonthlyRevenueChart (Some nil) = NoRevenueData).
Proof.
  assert (Hyears : forall data y,
            In y (map item_year (Object_values (yearly data))) <-> In y (map year data)).
  { intros data y. split.
    - intros H. apply in_map_iff in H as (it & <- & H). now apply In_items in H.
    - intros H. destruct (table_of_yearly data) as (_ & Hkeys & _).
      apply (Permutation_in _ (Permutation_sym (items_years data))). now apply Hkeys. }
  split; [| split; [| split]].
  - intros data items. subst items. split; [| split; [| split; [| split; [| split]]]].
    + apply chartData_items.
    + rewrite chartData_items, length_map, <- (length_map item_year).
      apply Permutation_length. apply Stdlib.Sorting.Permutation.NoDup_Permutation.
      * apply NoDup_items.
      * apply List.NoDup_nodup.
      * intros y. rewrite nodup_In. apply Hyears.
    + apply NoDup_items.
    + apply Hyears.
    + intros it H. now apply In_items in H.
    + intros p. rewrite chartData_items, in_map_iff. split.
      * intros (it & <- & Hit). apply In_items in Hit as [Hy Hr].
        exists (item_year it). split; [exact Hy |]. unfold to_point. now rewrite Hr.
      * intros (y & Hy & ->).
        exists {| item_year := y; item_revenue := year_total data y |}.
        split; [reflexivity |]. apply In_items. now split.
  - intros d1 d2 Hsame.
    assert (Htot : forall y, year_total d1 y = year_total d2 y).
    { intros y. apply year_total_ext, Hsame. }
    split; [exact Htot |].
    rewrite !chartData_items. apply Permutation_map.
    rewrite !Object_values_perm. apply Permutation_map.
    apply yearly_same; [| exact Htot].
    intros y. rewrite !In_year_filter. now rewrite Hsame.
  - intros d1 d2 Hp.
    assert (Hperm : Permutation (map item_year (Object_values (yearly d1)))
                                (map item_year (Object_values (yearly d2)))).
    { apply Stdlib.Sorting.Permutation.NoDup_Permutation; try apply NoDup_items.
      intros y. rewrite !Hyears. split; intros H.
      - eapply Permutation_in; [apply Permutation_map, Hp | exact H].
      - eapply Permutation_in; [apply Permutation_map, Permutation_sym, Hp | exact H]. }
    split; [exact Hperm |].
    rewrite !chartData_items, !length_map, <- !(length_map item_year).
    now apply Permutation_length.
  - repeat split.
Qed.

(** C10, refuted as stated: the total of a year depends on the order of its
    entries. Of the revenues 10^16, 1 and -10^16 of one year the sum is 0 in
    this order, the 1 being lost beside 10^16, and 1 when the 1 comes last;
    the two lists are permutations of each other and their charts differ. *)
Lemma year_total_depends_on_the_order :
  Permutation
    ({| year := 1; month := 1; revenue := Finite (inject_Z (10 ^ 16)) |}
     :: {| year := 1; month := 2; revenue := Finite 1 |}
     :: {| year := 1; month := 3; revenue := Finite (inject_Z (- 10 ^ 16)) |} :: nil)
    ({| year := 1; month := 1; revenue := Finite (inject_Z (10 ^ 16)) |}
     :: {| year := 1; month := 3; revenue := Finite (inject_Z (- 10 ^ 16)) |}
     :: {| year := 1; month := 2; revenue := Finite 1 |} :: nil)
  /\ map point_revenue
       (chartData
          (Some ({| year := 1; month := 1; revenue := Finite (inject_Z (10 ^ 16)) |}
                 :: {| year := 1; month := 2; revenue := Finite 1 |}
                 :: {| year := 1; month := 3; revenue := Finite (inject_Z (- 10 ^ 16)) |}
                 :: nil)))
     = Finite 0 :: nil
  /\ map point_revenue
       (chartData
          (Some ({| year := 1; month := 1; revenue := Finite (inject_Z (10 ^ 16)) |}
                 :: {| year := 1; month := 3; revenue := Finite (inject_Z (- 10 ^ 16)) |}
                 :: {| year := 1; month := 2; revenue := Finite 1 |} :: nil)))
     = Finite 1 :: nil.
Proof.
  split; [apply perm_skip, perm_swap | split; vm_compute; reflexivity].
Qed.

(** ** Years that are array indices *)

Ltac split_leb :=
  repeat match goal with
         | |- context [?a <=? ?b] => destruct (Z.leb_spec a b); simpl
         end.

Lemma insert_by_key_comm (x y : Z * YearItem) (l : YearlyData) :
  fst x <> fst y ->
  insert_by_key x (insert_by_key y l) = insert_by_key y (insert_by_key x l).
Proof.
  intros Hne. induction l as [| z l IH]; simpl.
  - split_leb; try reflexivity; lia.
  - split_leb; try reflexivity; try lia. now rewrite IH.
Qed.

(** Sorting a table with distinct keys does not depend on its order. *)
Lemma sort_by_key_perm_eq (l l' : YearlyData) :
  Permutation l l' -> List.NoDup (map fst l) -> sort_by_key l = sort_by_key l'.
Proof.
  induction 1 as [| x l l' Hp IH | x y l | l l' l'' Hp1 IH1 Hp2 IH2]; intros Hnd; simpl.
  - reflexivity.
  - apply List.NoDup_cons_iff in Hnd as [_ Hnd]. now rewrite IH.
  - apply insert_by_key_comm.
    simpl in Hnd. apply List.NoDup_cons_iff in Hnd as [Hin _]. simpl in Hin.
    intros E. apply Hin. now left.
  - rewrite IH1 by assumption. apply IH2.
    eapply Stdlib.Sorting.Permutation.Permutation_NoDup; [| exact Hnd].
    now apply Permutation_map.
Qed.

Lemma insert_by_key_sorted (x : Z * YearItem) (l : YearlyData) :
  StronglySorted (fun a b => fst a <= fst b) l ->
  StronglySorted (fun a b => fst a <= fst b) (insert_by_key x l).
Proof.
  induction 1 as [| y l Hs IH Hall]; simpl.
  - constructor; constructor.
  - destruct (Z.leb_spec (fst x) (fst y)).
    + constructor; [now constructor |].
      constructor; [assumption |].
      eapply List.Forall_impl; [| exact Hall]. intros z Hz. simpl in Hz. lia.
    + constructor; [exact IH |].
      eapply Stdlib.Sorting.Permutation.Permutation_Forall;
        [symmetry; apply insert_by_key_perm |].
      constructor; [lia | exact Hall].
Qed.

Lemma sort_by_key_sorted (l : YearlyData) :
  StronglySorted (fun a b => fst a <= fst b) (sort_by_key l).
Proof.
  induction l as [| x l IH]; simpl; [constructor | now apply insert_by_key_sorted].
Qed.

Lemma sorted_items (l : YearlyData) :
  StronglySorted (fun a b => fst a <= fst b) l ->
  (forall p, In p l -> item_year (snd p) = fst p) ->
  StronglySorted Z.le (map (fun p => item_year (snd p)) l).
Proof.
  induction 1 as [| p l Hs IH Hall]; intros Hin; simpl; constructor.
  - apply IH. intros q Hq. apply Hin. now right.
  - apply List.Forall_map. rewrite List.Forall_forall in *.
    intros q Hq. rewrite (Hin p (or_introl eq_refl)), (Hin q (or_intror Hq)).
    now apply Hall.
Qed.

Lemma filter_all {A : Type} (f : A -> bool) (l : list A) :
  Forall (fun x => f x = true) l ->
  List.filter f l = l /\ List.filter (fun x => negb (f x)) l = nil.
Proof.
  induction 1 as [| x l Hx _ [IH1 IH2]]; simpl; [now split |].
  rewrite Hx. simpl. now rewrite IH1, IH2.
Qed.

Lemma Object_values_of_indices (yd : YearlyData) :
  Forall (fun p => is_array_index (fst p) = true) yd ->
  Object_values yd = map snd (sort_by_key yd).
Proof.
  intros H. unfold Object_values.
  destruct (filter_all (fun p => is_array_index (fst p)) yd H) as [-> ->].
  now rewrite app_nil_r.
Qed.

Lemma yearly_indices (data : list RevenueEntry) :
  Forall (fun e => is_array_index (year e) = true) data ->
  Forall (fun p => is_array_index (fst p) = true) (yearly data).
Proof.
  intros H. destruct (table_of_yearly data) as (_ & Hkeys & _).
  rewrite List.Forall_forall in *. intros [k it] Hin. simpl.
  assert (Hk : In k (map year data)).
  { apply Hkeys. apply in_map_iff. now exists (k, it). }
  apply in_map_iff in Hk as (e & <- & He). now apply H.
Qed.

Lemma insert_by_key_map (g : Z * YearItem -> Z * YearItem) (x : Z * YearItem)
    (l : YearlyData) :
  (forall p, fst (g p) = fst p) ->
  insert_by_key (g x) (map g l) = map g (insert_by_key x l).
Proof.
  intros Hg. induction l as [| y l IH]; simpl; [reflexivity |].
  rewrite !Hg. destruct (fst x <=? fst y); simpl; [reflexivity | now rewrite IH].
Qed.

Lemma sort_by_key_map (g : Z * YearItem -> Z * YearItem) (l : YearlyData) :
  (forall p, fst (g p) = fst p) ->
  sort_by_key (map g l) = map g (sort_by_key l).
Proof.
  intros Hg. induction l as [| x l IH]; simpl; [reflexivity |].
  now rewrite IH, insert_by_key_map.
Qed.

(** The keys of the sorted table depend on the years of the list only. *)
Lemma sorted_keys (d1 d2 : list RevenueEntry) :
  (forall y, In y (map year d1) <-> In y (map year d2)) ->
  map fst (sort_by_key (yearly d1)) = map fst (sort_by_key (yearly d2)).
Proof.
  intros Hyears.
  set (g := fun p : Z * YearItem =>
              (fst p, {| item_year := fst p; item_revenue := Finite 0 |})).
  assert (Hg : forall p, fst (g p) = fst p) by reflexivity.
  assert (Hfst : forall l : YearlyData, map fst (map g l) = map fst l).
  { intros l. rewrite List.map_map. now apply map_ext. }
  rewrite <- (Hfst (sort_by_key (yearly d1))), <- (Hfst (sort_by_key (yearly d2))).
  rewrite <- !sort_by_key_map by exact Hg. f_equal.
  destruct (table_of_yearly d1) as (Hnd1 & Hk1 & _).
  destruct (table_of_yearly d2) as (Hnd2 & Hk2 & _).
  apply sort_by_key_perm_eq; [| now rewrite Hfst].
  assert (Hin : forall d p, In p (map g (yearly d)) <->
                            In (fst p) (map fst (yearly d)) /\ p = g p).
  { intros d p. rewrite !in_map_iff. split.
    - intros (x & <- & Hx). split; [now exists x | reflexivity].
    - intros ((x & E & Hx) & Hp). exists x. split; [| exact Hx].
      rewrite Hp. unfold g. now rewrite E. }
  apply Stdlib.Sorting.Permutation.NoDup_Permutation.
  - eapply List.NoDup_map_inv. rewrite Hfst. exact Hnd1.
  - eapply List.NoDup_map_inv. rewrite Hfst. exact Hnd2.
  - intros p. rewrite !Hin, Hk1, Hk2, Hyears. tauto.
Qed.

Lemma items_of_sorted (data : list RevenueEntry) :
  map item_year (map snd (sort_by_key (yearly data)))
  = map fst (sort_by_key (yearly data)).
Proof.
  destruct (table_of_yearly data) as (_ & _ & Hval).
  rewrite List.map_map. apply map_ext_in. intros [k it] H.
  apply (Permutation_in _ (sort_by_key_perm _)) in H. simpl.
  now apply Hval in H as [-> _].
Qed.

(** The chart of a list whose years are all array indices (from 0 up to
    2^32 - 2, as the project years are): its points come in ascending order of
    the year, every permutation of the list gives the same labels in the same
    order, and it gives the very same chart data if it keeps the entries of
    each year in their order. *)
Theorem chart_of_index_years_is_ascending_and_stable (d1 d2 : list RevenueEntry) :
  Forall (fun e => is_array_index (year e) = true) d1 ->
  Permutation d1 d2 ->
  StronglySorted Z.le (map item_year (Object_values (yearly d1)))
  /\ map point_year (chartData (Some d1)) = map point_year (chartData (Some d2))
  /\ ((forall y, List.filter (fun e => year e =? y) d1
                 = List.filter (fun e => year e =? y) d2) ->
      chartData (Some d1) = chartData (Some d2)).
Proof.
  intros Hidx Hp.
  assert (Hidx2 : Forall (fun e => is_array_index (year e) = true) d2).
  { eapply Stdlib.Sorting.Permutation.Permutation_Forall; eassumption. }
  assert (Hyears : forall y, In y (map year d1) <-> In y (map year d2)).
  { intros y. split; intros H.
    - eapply Permutation_in; [apply Permutation_map, Hp | exact H].
    - eapply Permutation_in; [apply Permutation_map, Permutation_sym, Hp | exact H]. }
  destruct (table_of_yearly d1) as (Hnd & _ & Hval).
  rewrite !chartData_items,
    (Object_values_of_indices _ (yearly_indices d1 Hidx)),
    (Object_values_of_indices _ (yearly_indices d2 Hidx2)).
  split; [| split].
  - rewrite List.map_map.
    apply sorted_items; [apply sort_by_key_sorted |].
    intros [k it] H. apply (Permutation_in _ (sort_by_key_perm _)) in H.
    simpl. now apply Hval in H as [-> _].
  - rewrite !(List.map_map to_point point_year). cbn [to_point point_year].
    rewrite <- !(List.map_map item_year (fun y => String.append "Year " (string_of_Z y))).
    now rewrite !items_of_sorted, (sorted_keys d1 d2 Hyears).
  - intros Hsame. f_equal. f_equal.
    apply sort_by_key_perm_eq; [| exact Hnd].
    apply yearly_same; [exact Hyears |].
    intros y. apply year_total_ext, Hsame.
Qed.

Lemma chart_of_two_years_is_stable :
  let jan := {| year := 2; month := 1; revenue := Finite 10 |} in
  let feb := {| year := 1; month := 2; revenue := Finite 5 |} in
  StronglySorted Z.le (map item_year (Object_values (yearly (jan :: feb :: nil))))
  /\ map point_year (chartData (Some (jan :: feb :: nil)))
     = map point_year (chartData (Some (feb :: jan :: nil)))
  /\ ((forall y, List.filter (fun e => year e =? y) (jan :: feb :: nil)
                 = List.filter (fun e => year e =? y) (feb :: jan :: nil)) ->
      chartData (Some (jan :: feb :: nil)) = chartData (Some (feb :: jan :: nil))).
Proof.
  apply chart_of_index_years_is_ascending_and_stable.
  - repeat constructor.
  - apply perm_swap.
Defined.

End ChartFacts.

(* ===================================================================== *)
(** * MonthlyRevenueChart: totals and labels *)
(* ===================================================================== *)

Module ChartTotals.
Import Js Payload MonthlyRevenueChart ChartSpec ChartFacts.

(** ** Labels *)

Lemma append_inj_l (p a b : string) : String.append p a = String.append p b -> a = b.
Proof.
  induction p as [| c p IH]; rewrite ?JsFacts.append_nil; [easy |].
  rewrite !JsFacts.append_cons. intros [= H]. now apply IH.
Qed.

Lemma to_uint_nonnil (n : N) : N.to_uint n <> Decimal.Nil.
Proof.
  destruct n as [| p]; [discriminate |]. apply DecimalPos.Unsigned.to_uint_nonnil.
Qed.

Lemma digits_of_Z_inj (n m : Z) :
  0 <= n -> 0 <= m -> digits_of_Z n = digits_of_Z m -> n = m.
Proof.
  unfold digits_of_Z. intros Hn Hm H.
  apply (f_equal NilZero.uint_of_string) in H.
  rewrite !NilZero.usu in H by apply to_uint_nonnil.
  injection H as H. apply DecimalN.Unsigned.to_uint_inj in H. lia.
Qed.

Lemma digits_not_minus (n : Z) (r : string) : digits_of_Z n <> String "-" r.
Proof.
  intros H. pose proof (JsFacts.all_digits_of_Z n) as Hd. rewrite H in Hd.
  simpl in Hd. discriminate.
Qed.

Lemma string_of_Z_safe (a : Z) :
  Z.abs a <= 2 ^ 53 ->
  string_of_Z a = String.append (if a <? 0 then "-" else "") (digits_of_Z (Z.abs a)).
Proof.
  intros Ha. unfold string_of_Z.
  destruct (Z.leb_spec (Z.abs a) (2 ^ 53)) as [_ | H]; [reflexivity | lia].
Qed.

(** Safe integers (up to 2^53 in magnitude) print as their decimal digits, so
    that their texts tell them apart. *)
Lemma string_of_Z_inj (a b : Z) :
  Z.abs a <= 2 ^ 53 -> Z.abs b <= 2 ^ 53 -> string_of_Z a = string_of_Z b -> a = b.
Proof.
  intros Ha Hb. rewrite !string_of_Z_safe by assumption.
  destruct (Z.ltb_spec a 0) as [Ha0 | Ha0], (Z.ltb_spec b 0) as [Hb0 | Hb0];
    rewrite ?JsFacts.append_cons, ?JsFacts.append_nil; intros H.
  - injection H as H'. apply digits_of_Z_inj in H'; lia.
  - symmetry in H. now apply digits_not_minus in H.
  - now apply digits_not_minus in H.
  - apply digits_of_Z_inj in H; lia.
Qed.

Lemma NoDup_map_inj_in {A B : Type} (f : A -> B) (l : list A) :
  (forall x y, In x l -> In y l -> f x = f y -> x = y) ->
  List.NoDup l -> List.NoDup (map f l).
Proof.
  intros Hf Hnd. induction Hnd as [| x l Hx _ IH]; simpl; constructor.
  - intros H. apply in_map_iff in H as (y & E & Hy).
    apply Hf in E; [now subst | now right | now left].
  - apply IH. intros a b Ha Hb. apply Hf; now right.
Qed.

(** No two points of the chart of a list of safe-integer years (up to 2^53
    in magnitude, where a number prints as its decimal digits) carry the same
    label, and each label is the word Year followed by the decimal text of a
    year of the data. *)
Theorem chart_labels_are_distinct (data : list RevenueEntry) :
  Forall (fun e => Z.abs (year e) <= 2 ^ 53) data ->
  List.NoDup (map point_year (chartData (Some data)))
  /\ (forall p, In p (chartData (Some data)) ->
        exists y, In y (map year data)
                  /\ point_year p
                     = String.append "Year "
                         (String.append (if y <? 0 then "-" else "")
                                        (digits_of_Z (Z.abs y)))).
Proof.
  intros Hsafe. rewrite List.Forall_forall in Hsafe.
  assert (Hyear : forall it, In it (Object_values (yearly data)) ->
                             Z.abs (item_year it) <= 2 ^ 53).
  { intros it Hit. apply In_items in Hit as [Hy _].
    apply in_map_iff in Hy as (e & <- & He). now apply Hsafe. }
  rewrite chartData_items. split.
  - rewrite List.map_map. cbn [to_point point_year].
    rewrite <- (List.map_map item_year (fun y => String.append "Year " (string_of_Z y))).
    apply NoDup_map_inj_in; [| apply NoDup_items].
    intros x y Hx Hy H.
    apply in_map_iff in Hx as (ix & <- & Hx). apply in_map_iff in Hy as (iy & <- & Hy).
    apply append_inj_l, string_of_Z_inj in H; auto.
  - intros p Hp. apply in_map_iff in Hp as (it & <- & Hit).
    pose proof (Hyear _ Hit) as Hs. apply In_items in Hit as [Hy _].
    exists (item_year it). split; [exact Hy |].
    cbn [to_point point_year]. now rewrite string_of_Z_safe.
Qed.

Lemma chart_labels_of_two_years_are_distinct :
  List.NoDup
    (map point_year
       (chartData (Some ({| year := 2; month := 1; revenue := Finite 10 |}
                         :: {| year := 1; month := 2; revenue := Finite 5 |} :: nil)))).
Proof.
  apply (chart_labels_are_distinct
           ({| year := 2; month := 1; revenue := Finite 10 |}
            :: {| year := 1; month := 2; revenue := Finite 5 |} :: nil)).
  repeat constructor; vm_compute; discriminate.
Defined.

End ChartTotals.

(* ===================================================================== *)
(** * UploadForm: validation of the scenario parameters *)
(* ===================================================================== *)

Module UploadFormFacts.
Import Js UploadForm FormSpec.

(** ** Blank texts and [parseFloat] *)

Lemma trimStart_head (s : string) :
  trimStart s = EmptyString
  \/ exists c r, trimStart s = String c r /\ is_whitespace c = false.
Proof.
  induction s as [| c s IH]; simpl; [now left |].
  destruct (is_whitespace c) eqn:E; [exact IH |].
  right. now exists c, s.
Qed.

Lemma rev_string_acc (s acc : string) :
  rev_string s acc = String.append (rev_string s EmptyString) acc.
Proof.
  revert acc. induction s as [| c s IH]; intros acc; simpl; [reflexivity |].
  rewrite IH, (IH (String c EmptyString)).
  now rewrite JsFacts.append_assoc.
Qed.

Lemma rev_string_empty (s : string) :
  rev_string s EmptyString = EmptyString -> s = EmptyString.
Proof.
  destruct s as [| c s]; [reflexivity |]. simpl. rewrite rev_string_acc.
  intros H. apply (f_equal String.length) in H.
  rewrite JsFacts.length_append in H. simpl in H. lia.
Qed.

Lemma trimStart_append_nonspace (a b : string) (c : ascii) :
  is_whitespace c = false ->
  trimStart (String.append a (String c b)) <> EmptyString.
Proof.
  intros Hc. induction a as [| x a IH].
  - rewrite JsFacts.append_nil. simpl. now rewrite Hc.
  - rewrite JsFacts.append_cons. simpl. destruct (is_whitespace x); [exact IH | discriminate].
Qed.

(** A text that [trim] empties has nothing after its leading white space. *)
Lemma trim_empty (s : string) : trim s = EmptyString -> trimStart s = EmptyString.
Proof.
  unfold trim, trimEnd. intros H. apply rev_string_empty in H.
  destruct (trimStart_head s) as [E | (c & r & E & Hc)]; [exact E |].
  rewrite E in H. simpl in H. rewrite rev_string_acc in H.
  now apply trimStart_append_nonspace in H.
Qed.

Lemma parseFloat_blank (s : string) : trim s = EmptyString -> parseFloat s = NaN.
Proof.
  intros H. apply trim_empty in H. unfold parseFloat. now rewrite H.
Qed.

Lemma is_blank_Some (s : string) : is_blank (Some s) = false <-> trim s <> EmptyString.
Proof.
  simpl. destruct (String.eqb_spec (trim s) ""); split; congruence.
Qed.

Lemma not_value_blank (value : option string) :
  not_value value || is_blank value = is_blank value.
Proof. destruct value as [[| c s] |]; reflexivity. Qed.

(** ** Comparisons *)

Lemma gt_0_iff (x : JsNum) :
  gt x (Finite 0) = true <-> num_isNaN x = false /\ le x (Finite 0) = false.
Proof.
  destruct x as [| [|] | q]; cbn [gt lt le num_isNaN].
  - split; [discriminate | intros []; discriminate].
  - split; [discriminate | intros []; discriminate].
  - split; [now split | reflexivity].
  - destruct (Qle_bool q 0); cbn [negb]; split; try tauto; try discriminate.
    intros []; discriminate.
Qed.

Lemma le_1_iff (x : JsNum) :
  gt x (Finite 0) = true ->
  (lt x (Finite 0) || gt x (Finite 1) = false <-> le x (Finite 1) = true).
Proof.
  destruct x as [| [|] | q]; cbn [gt lt le]; try discriminate.
  - intros _. split; discriminate.
  - intros H. apply negb_true_iff in H.
    assert (H0 : Qle_bool 0 q = true).
    { apply Qle_bool_iff. apply Qnot_lt_le. intros Hlt.
      apply Qlt_le_weak, Qle_bool_iff in Hlt. congruence. }
    rewrite H0. cbn [negb orb].
    destruct (Qle_bool q 1); cbn [negb]; split; congruence.
Qed.

Lemma zero_not_positive (q : Q) :
  q == 0 -> num_isNaN (Finite q) || le (Finite q) (Finite 0) = true.
Proof.
  intros H. cbn [num_isNaN le orb]. apply Qle_bool_iff. rewrite H. apply Qle_refl.
Qed.

(** ** The checks, one at a time *)

Lemma check_required_unfold (formData : FormData) (errs : Errors) (field : string) :
  check_required formData errs field =
    match required_error formData field with
    | Some m => <[field := m]> errs
    | None => errs
    end.
Proof.
  unfold check_required, required_error. rewrite not_value_blank.
  destruct (is_blank (formData !! field)); [reflexivity |].
  now destruct (_ || _).
Qed.

Lemma required_error_None (formData : FormData) (field : string) :
  required_error formData field = None <-> positive_number (formData !! field).
Proof.
  unfold required_error, positive_number.
  destruct (formData !! field) as [s |] eqn:E; simpl.
  - destruct (String.eqb_spec (trim s) "") as [Hb | Hb].
    + split; [discriminate |]. intros (s' & [= <-] & Hne & _). contradiction.
    + destruct (num_isNaN (parseFloat s) || le (parseFloat s) (Finite 0)) eqn:Hc.
      * split; [discriminate |]. intros (s' & [= <-] & _ & Hgt).
        apply gt_0_iff in Hgt as [H1 H2]. rewrite H1, H2 in Hc. discriminate.
      * split; [| reflexivity]. intros _. exists s. repeat split; [assumption |].
        apply gt_0_iff. now apply orb_false_iff in Hc.
  - split; [discriminate |]. intros (s' & [=] & _).
Qed.

Lemma fold_required_other (formData : FormData) (fields : list string) (k : string) :
  ~ In k fields ->
  forall errs : Errors,
    fold_left (check_required formData) fields errs !! k = errs !! k.
Proof.
  induction fields as [| f fields IH]; intros Hno errs; simpl; [reflexivity |].
  simpl in Hno. rewrite IH by tauto. rewrite check_required_unfold.
  destruct (required_error formData f); [| reflexivity].
  rewrite lookup_insert_ne; [reflexivity | tauto].
Qed.

Lemma fold_required_lookup (formData : FormData) (fields : list string) (k m : string) :
  In k fields -> required_error formData k = Some m ->
  forall errs : Errors,
    fold_left (check_required formData) fields errs !! k = Some m.
Proof.
  intros Hin Hk. induction fields as [| f fields IH]; intros errs; [destruct Hin |].
  simpl. destruct (in_dec string_dec k fields) as [Hin' | Hno].
  - now apply IH.
  - destruct Hin as [-> | Hin]; [| contradiction].
    rewrite fold_required_other by assumption.
    rewrite check_required_unfold, Hk. apply lookup_insert_eq.
Qed.

Lemma fold_required_empty (formData : FormData) (fields : list string) :
  forall errs : Errors,
    fold_left (check_required formData) fields errs = ∅ <->
    errs = ∅ /\ forall f, In f fields -> required_error formData f = None.
Proof.
  induction fields as [| f fields IH]; intros errs; simpl.
  - split; [intros H; split; [exact H | tauto] | tauto].
  - rewrite IH, check_required_unfold. split.
    + intros [H Hall]. destruct (required_error formData f) eqn:Ef.
      * now apply insert_non_empty in H.
      * split; [exact H |]. intros f' [<- | Hin]; [exact Ef | now apply Hall].
    + intros [-> Hall]. split; [| intros f' Hin; apply Hall; now right].
      now rewrite (Hall f (or_introl eq_refl)).
Qed.

Lemma check_files_empty (files : Files) :
  check_files files = ∅ <-> pvProduction files <> None /\ pricing files <> None.
Proof.
  unfold check_files.
  destruct (pvProduction files), (pricing files); split; try (intros [H1 H2]; congruence);
    intros H; try (split; congruence); try now apply insert_non_empty in H.
Qed.

Lemma check_discountRate_empty (formData : FormData) (errs : Errors) :
  positive_number (formData !! "discountRate") ->
  (check_discountRate formData errs = ∅ <->
   errs = ∅ /\ le (parseFloat (text (formData !! "discountRate"))) (Finite 1) = true).
Proof.
  intros (s & E & Hb & Hgt). unfold check_discountRate. rewrite E. simpl text.
  assert (Hnv : not_value (Some s) = false).
  { destruct s; [| reflexivity]. now contradiction Hb. }
  rewrite Hnv. cbn [negb].
  pose proof (le_1_iff _ Hgt) as Hle.
  destruct (lt (parseFloat s) (Finite 0) || gt (parseFloat s) (Finite 1)) eqn:Hc.
  - split; [intros H; now apply insert_non_empty in H |].
    intros [_ H]. apply Hle in H. discriminate.
  - split; [intros ->; split; [reflexivity | now apply Hle] | now intros [-> _]].
Qed.

Lemma check_optional_empty (formData : FormData) (errs : Errors) (field : string) :
  check_optional formData errs field = ∅ <->
  errs = ∅ /\ empty_or_positive (formData !! field).
Proof.
  unfold check_optional, empty_or_positive.
  destruct (formData !! field) as [[| c s] |]; simpl.
  - split; [intros ->; split; [reflexivity | now right; left] | now intros [-> _]].
  - set (x := parseFloat (String c s)).
    destruct (num_isNaN x || le x (Finite 0)) eqn:Hc.
    + split; [intros H; now apply insert_non_empty in H |].
      intros [_ [H | [H | (s' & [= <-] & Hgt)]]]; try discriminate.
      apply gt_0_iff in Hgt as [H1 H2]. fold x in H1, H2. rewrite H1, H2 in Hc. discriminate.
    + split; [| now intros [-> _]]. intros ->. split; [reflexivity |].
      right; right. exists (String c s). split; [reflexivity |].
      apply gt_0_iff. now apply orb_false_iff in Hc.
  - split; [intros ->; split; [reflexivity | now left] | now intros [-> _]].
Qed.

Lemma validateForm_empty (files : Files) (formData : FormData) :
  validateForm files formData = true <-> newErrors files formData = ∅.
Proof.
  unfold validateForm. rewrite Nat.eqb_eq. apply map_size_empty_iff.
Qed.

(** [validateForm] accepts exactly the forms with both files, every required
    parameter a number above 0, a discount rate of at most 1, and each
    optional ceiling either left empty or a number above 0. *)
Lemma validateForm_accepts (files : Files) (formData : FormData) :
  validateForm files formData = true <->
    (pvProduction files <> None /\ pricing files <> None)
    /\ (forall f, In f requiredFields -> positive_number (formData !! f))
    /\ le (parseFloat (text (formData !! "discountRate"))) (Finite 1) = true
    /\ empty_or_positive (formData !! "pvMaxSizeMw")
    /\ empty_or_positive (formData !! "bessMaxSizeMwh").
Proof.
  rewrite validateForm_empty. unfold newErrors.
  rewrite !check_optional_empty. split.
  - intros [[H Hpv] Hbess].
    assert (Hreq : forall f, In f requiredFields -> positive_number (formData !! f)).
    { intros f Hf. apply required_error_None.
      destruct (decide (fold_left (check_required formData) requiredFields
                          (check_files files) = ∅)) as [E | E].
      - apply fold_required_empty in E as [_ E]. now apply E.
      - exfalso. apply E. clear E Hf.
        unfold check_discountRate in H.
        destruct (negb _); [| exact H].
        destruct (_ || _); [| exact H]. now apply insert_non_empty in H. }
    apply check_discountRate_empty in H; [| apply Hreq; simpl; tauto].
    destruct H as [H Hle]. apply fold_required_empty in H as [H _].
    apply check_files_empty in H. tauto.
  - intros (Hf & Hreq & Hle & Hpv & Hbess).
    split; [split |]; try assumption.
    apply check_discountRate_empty; [apply Hreq; simpl; tauto |].
    split; [| assumption]. apply fold_required_empty. split.
    + now apply check_files_empty.
    + intros f Hin. apply required_error_None. now apply Hreq.
Qed.

Lemma required_not_optional (f : string) :
  In f requiredFields -> f <> "pvMaxSizeMw"%string /\ f <> "bessMaxSizeMwh"%string
                         /\ f <> "pvProduction"%string /\ f <> "pricing"%string.
Proof.
  simpl. intros H. repeat destruct H as [<- | H]; try contradiction;
    repeat split; discriminate.
Qed.

Lemma check_optional_lookup (formData : FormData) (errs : Errors) (field k : string) :
  k <> field -> check_optional formData errs field !! k = errs !! k.
Proof.
  intros Hne. unfold check_optional.
  destruct (_ && _); [| reflexivity]. now rewrite lookup_insert_ne.
Qed.

(** The message a required parameter gets when it is 0. *)
Lemma zero_required_message (files : Files) (formData : FormData) (f s : string) (q : Q) :
  In f requiredFields -> formData !! f = Some s -> parseFloat s = Finite q -> q == 0 ->
  newErrors files formData !! f = Some "Must be a positive number"%string.
Proof.
  intros Hin Hs Hp Hq.
  destruct (required_not_optional f Hin) as (H1 & H2 & _).
  assert (Hreq : required_error formData f = Some "Must be a positive number"%string).
  { unfold required_error. rewrite Hs. simpl text.
    destruct (is_blank (Some s)) eqn:Hb.
    - simpl in Hb. apply String.eqb_eq in Hb. apply parseFloat_blank in Hb. congruence.
    - rewrite Hp. now rewrite zero_not_positive. }
  unfold newErrors.
  rewrite !check_optional_lookup by assumption.
  assert (Hfold : fold_left (check_required formData) requiredFields (check_files files) !! f
                  = Some "Must be a positive number"%string).
  { now apply fold_required_lookup. }
  unfold check_discountRate.
  destruct (negb _); [| exact Hfold].
  destruct (lt _ _ || gt _ _) eqn:Hc; [| exact Hfold].
  destruct (decide (f = "discountRate"%string)) as [-> | Hne].
  - exfalso. rewrite Hs in Hc. simpl text in Hc. rewrite Hp in Hc.
    cbn [gt lt] in Hc.
    assert (H0 : Qle_bool 0 q = true) by (apply Qle_bool_iff; rewrite Hq; apply Qle_refl).
    assert (H1' : Qle_bool q 1 = true) by (apply Qle_bool_iff; rewrite Hq; discriminate).
    rewrite H0, H1' in Hc. discriminate.
  - rewrite lookup_insert_ne by congruence. exact Hfold.
Qed.

End UploadFormFacts.

Module UploadFormClaims.
Import Js UploadForm FormSpec UploadFormFacts.

Lemma gt_1_not_le (x : JsNum) : gt x (Finite 1) = true -> le x (Finite 1) = false.
Proof.
  destruct x as [| [|] | q]; cbn [gt lt le]; try discriminate; try reflexivity.
  intros H. now apply negb_true_iff in H.
Qed.

Lemma error_rejects (files : Files) (formData : FormData) (k m : string) :
  newErrors files formData !! k = Some m -> validateForm files formData = false.
Proof.
  intros H. destruct (validateForm files formData) eqn:E; [| reflexivity].
  apply validateForm_empty in E. rewrite E in H. now rewrite lookup_empty in H.
Qed.

(** C4 (as the code has it). A required parameter that is present and equal
    to 0 is rejected: its field gets the message that it must be a positive
    number and the form does not validate. The check of the required fields
    asks for a number above 0, so a zero escalation rate, zero capex rates and
    a zero on-site cap are all refused; a form validates only if every
    required parameter is present and parses to a number above 0. *)
Theorem zero_valued_required_parameter_is_rejected
    (files : Files) (formData : FormData) (f s : string) (q : Q) :
  In f requiredFields -> formData !! f = Some s ->
  parseFloat s = Finite q -> q == 0 ->
  newErrors files formData !! f = Some "Must be a positive number"%string
  /\ validateForm files formData = false
  /\ ~ positive_number (formData !! f)
  /\ forall files' formData',
       validateForm files' formData' = true ->
       forall f', In f' requiredFields -> positive_number (formData' !! f').
Proof.
  intros Hin Hs Hp Hq.
  pose proof (zero_required_message files formData f s q Hin Hs Hp Hq) as Hm.
  split; [exact Hm | split; [| split]].
  - eapply error_rejects, Hm.
  - intros (s' & E & _ & Hgt). rewrite Hs in E. injection E as <-.
    apply gt_0_iff in Hgt as [H1 H2].
    pose proof (zero_not_positive q Hq) as H0. rewrite <- Hp in H0.
    rewrite H1, H2 in H0. discriminate.
  - intros files' formData' Hv. now apply validateForm_accepts in Hv as (_ & Hreq & _).
Qed.

(** The zero escalation rate of Scenario A is an instance. *)
Lemma zero_escalation_rate_is_rejected :
  newErrors both_files scenario_A !! "yoyPriceEscalationRate"%string
    = Some "Must be a positive number"%string
  /\ validateForm both_files scenario_A = false
  /\ ~ positive_number (scenario_A !! "yoyPriceEscalationRate"%string)
  /\ forall files' formData',
       validateForm files' formData' = true ->
       forall f', In f' requiredFields -> positive_number (formData' !! f').
Proof.
  apply (zero_valued_required_parameter_is_rejected
           both_files scenario_A "yoyPriceEscalationRate" "0" 0).
  - simpl; tauto.
  - vm_compute; reflexivity.
  - vm_compute; reflexivity.
  - reflexivity.
Defined.

(** C4, refuted as stated: the inputs of Scenario A do not validate; the two
    capex rates, the on-site cap and the escalation rate, all 0, are each
    refused. *)
Lemma scenario_A_does_not_validate :
  validateForm both_files scenario_A = false
  /\ newErrors both_files scenario_A !! "pvCapexPerMw"%string
       = Some "Must be a positive number"%string
  /\ newErrors both_files scenario_A !! "bessCapexPerMwh"%string
       = Some "Must be a positive number"%string
  /\ newErrors both_files scenario_A !! "onsiteLoadMaxMw"%string
       = Some "Must be a positive number"%string
  /\ newErrors both_files scenario_A !! "yoyPriceEscalationRate"%string
       = Some "Must be a positive number"%string.
Proof. repeat split; vm_compute; reflexivity. Qed.

(** C5 (as the code has it). The form validates exactly when both files are
    chosen, every required parameter is present and parses to a number above
    0, the discount rate is at most 1, and each optional ceiling is empty or
    above 0. Hence a required parameter that is missing, blank, not a number
    or not above 0 fails the validation, and so does every discount rate
    above 1; a discount rate of exactly 1 passes. *)
Theorem validation_fails_unless_positive_and_rate_at_most_one
    (files : Files) (formData : FormData) :
  (validateForm files formData = true <->
     (pvProduction files <> None /\ pricing files <> None)
     /\ (forall f, In f requiredFields -> positive_number (formData !! f))
     /\ le (parseFloat (text (formData !! "discountRate"%string))) (Finite 1) = true
     /\ empty_or_positive (formData !! "pvMaxSizeMw"%string)
     /\ empty_or_positive (formData !! "bessMaxSizeMwh"%string))
  /\ (forall f, In f requiredFields -> ~ positive_number (formData !! f) ->
        validateForm files formData = false)
  /\ (gt (parseFloat (text (formData !! "discountRate"%string))) (Finite 1) = true ->
        validateForm files formData = false).
Proof.
  split; [apply validateForm_accepts | split].
  - intros f Hin Hno. destruct (validateForm files formData) eqn:E; [| reflexivity].
    apply validateForm_accepts in E as (_ & Hreq & _). now apply Hreq in Hin.
  - intros Hgt. destruct (validateForm files formData) eqn:E; [| reflexivity].
    apply validateForm_accepts in E as (_ & _ & Hle & _).
    apply gt_1_not_le in Hgt. congruence.
Qed.

(** C5, refuted as stated: a discount rate of exactly 1 validates. *)
Lemma discount_rate_of_one_validates :
  parseFloat "1" = Finite 1
  /\ validateForm both_files discount_rate_one = true.
Proof. split; vm_compute; reflexivity. Qed.

(** What is submitted. Nothing is sent unless the form validates; the body
    then carries both files, each scenario field of the request under its
    name with the text of its input, a number above 0, and a ceiling exactly
    when its input is not empty. *)
Theorem only_validated_scenarios_are_submitted
    (files : Files) (formData : FormData) (body : list (string * FormValue)) :
  handleSubmit files formData = Some body ->
  validateForm files formData = true
  /\ (exists pv price, In ("pv_production_file"%string, FileValue (Some pv)) body
                        /\ In ("pricing_file"%string, FileValue (Some price)) body)
  /\ (forall name input, In (name, input) scenario_fields ->
        exists s, In (name, TextValue (Some s)) body
                  /\ formData !! input = Some s
                  /\ gt (parseFloat s) (Finite 0) = true)
  /\ (In "pv_max_size_mw"%string (map fst body)
       <-> not_value (formData !! "pvMaxSizeMw"%string) = false)
  /\ (In "bess_max_size_mwh"%string (map fst body)
       <-> not_value (formData !! "bessMaxSizeMwh"%string) = false)
  /\ length body = (9 + (if not_value (formData !! "pvMaxSizeMw"%string) then 0 else 1)
                      + (if not_value (formData !! "bessMaxSizeMwh"%string) then 0 else 1))%nat.
Proof.
  unfold handleSubmit. destruct (validateForm files formData) eqn:Hv; [| discriminate].
  intros [= <-]. split; [reflexivity |].
  apply validateForm_accepts in Hv as ((Hpv & Hprice) & Hreq & _).
  unfold submitData. split; [| split; [| split; [| split]]].
  - destruct (pvProduction files) as [pv |]; [| congruence].
    destruct (pricing files) as [price |]; [| congruence].
    exists pv, price. split; simpl; tauto.
  - intros name input Hin.
    assert (Hf : In input requiredFields).
    { simpl in Hin. simpl.
      repeat destruct Hin as [[= <- <-] | Hin]; try tauto. }
    destruct (Hreq input Hf) as (s & Hs & _ & Hgt).
    exists s. split; [| split; assumption].
    rewrite <- Hs. simpl in Hin.
    repeat destruct Hin as [[= <- <-] | Hin]; try destruct Hin;
      apply in_app_iff; left; simpl; tauto.
  - destruct (not_value (formData !! "pvMaxSizeMw"%string));
      destruct (not_value (formData !! "bessMaxSizeMwh"%string)); simpl;
      split; try discriminate; try tauto;
      intros H; repeat destruct H as [H | H]; try discriminate; try tauto.
  - destruct (not_value (formData !! "pvMaxSizeMw"%string));
      destruct (not_value (formData !! "bessMaxSizeMwh"%string)); simpl;
      split; try discriminate; try tauto;
      intros H; repeat destruct H as [H | H]; try discriminate; try tauto.
  - destruct (not_value (formData !! "pvMaxSizeMw"%string));
      destruct (not_value (formData !! "bessMaxSizeMwh"%string)); reflexivity.
Qed.

(** The request of PLAN.md is submitted with its nine fields. *)
Lemma plan_request_is_submitted :
  validateForm both_files (<["discountRate" := "0.08"]> discount_rate_one) = true
  /\ (exists pv price, In ("pv_production_file"%string, FileValue (Some pv))
                           (submitData both_files (<["discountRate" := "0.08"]> discount_rate_one))
                        /\ In ("pricing_file"%string, FileValue (Some price))
                             (submitData both_files (<["discountRate" := "0.08"]> discount_rate_one)))
  /\ (forall name input, In (name, input) scenario_fields ->
        exists s, In (name, TextValue (Some s))
                     (submitData both_files (<["discountRate" := "0.08"]> discount_rate_one))
                  /\ (<["discountRate" := "0.08"]> discount_rate_one) !! input = Some s
                  /\ gt (parseFloat s) (Finite 0) = true)
  /\ (In "pv_max_size_mw"%string
         (map fst (submitData both_files (<["discountRate" := "0.08"]> discount_rate_one)))
       <-> not_value ((<["discountRate" := "0.08"]> discount_rate_one) !! "pvMaxSizeMw"%string)
           = false)
  /\ (In "bess_max_size_mwh"%string
         (map fst (submitData both_files (<["discountRate" := "0.08"]> discount_rate_one)))
       <-> not_value ((<["discountRate" := "0.08"]> discount_rate_one) !! "bessMaxSizeMwh"%string)
           = false)
  /\ length (submitData both_files (<["discountRate" := "0.08"]> discount_rate_one))
     = (9 + (if not_value ((<["discountRate" := "0.08"]> discount_rate_one)
                             !! "pvMaxSizeMw"%string) then 0 else 1)
          + (if not_value ((<["discountRate" := "0.08"]> discount_rate_one)
                             !! "bessMaxSizeMwh"%string) then 0 else 1))%nat.
Proof.
  apply (only_validated_scenarios_are_submitted both_files
           (<["discountRate" := "0.08"]> discount_rate_one)).
  vm_compute. reflexivity.
Defined.

End UploadFormClaims.

(* ===================================================================== *)
(** * UploadForm: the message of each field *)
(* ===================================================================== *)

Module UploadFormTable.
Import Js UploadForm FormSpec UploadFormFacts.

Lemma fold_required_none (formData : FormData) (fields : list string) (k : string) :
  required_error formData k = None ->
  forall errs : Errors,
    fold_left (check_required formData) fields errs !! k = errs !! k.
Proof.
  intros Hk. induction fields as [| f fields IH]; intros errs; simpl; [reflexivity |].
  rewrite IH, check_required_unfold.
  destruct (required_error formData f) eqn:E; [| reflexivity].
  rewrite lookup_insert_ne; [reflexivity |]. intros ->. congruence.
Qed.

Lemma check_files_lookup (files : Files) (k : string) :
  check_files files !! k =
    if String.eqb k "pricing" then
      match pricing files with
      | None => Some "Pricing CSV file is required"%string
      | Some _ => None
      end
    else if String.eqb k "pvProduction" then
      match pvProduction files with
      | None => Some "PV production CSV file is required"%string
      | Some _ => None
      end
    else None.
Proof.
  unfold check_files.
  destruct (String.eqb_spec k "pricing") as [-> | H1].
  - destruct (pricing files); [| apply lookup_insert_eq].
    destruct (pvProduction files); [apply lookup_empty |].
    rewrite lookup_insert_ne by discriminate. apply lookup_empty.
  - destruct (String.eqb_spec k "pvProduction") as [-> | H2].
    + destruct (pricing files); [| rewrite lookup_insert_ne by discriminate];
        (destruct (pvProduction files); [apply lookup_empty | apply lookup_insert_eq]).
    + destruct (pricing files); [| rewrite lookup_insert_ne by congruence];
        (destruct (pvProduction files);
         [apply lookup_empty | rewrite lookup_insert_ne by congruence; apply lookup_empty]).
Qed.

Lemma fold_required_get (files : Files) (formData : FormData) (f : string) :
  In f requiredFields ->
  fold_left (check_required formData) requiredFields (check_files files) !! f
  = required_error formData f.
Proof.
  intros Hin. destruct (required_error formData f) as [m |] eqn:E.
  - now apply fold_required_lookup.
  - rewrite fold_required_none by assumption.
    rewrite check_files_lookup.
    destruct (required_not_optional f Hin) as (_ & _ & H1 & H2).
    apply String.eqb_neq in H1, H2. now rewrite H1, H2.
Qed.

Lemma check_discountRate_lookup (formData : FormData) (errs : Errors) (k : string) :
  k <> "discountRate"%string -> check_discountRate formData errs !! k = errs !! k.
Proof.
  intros Hne. unfold check_discountRate.
  destruct (negb _); [| reflexivity].
  destruct (_ || _); [| reflexivity]. now rewrite lookup_insert_ne.
Qed.

(** A blank text is not a rate outside of the range: it is either skipped or
    not a number. *)
Lemma blank_rate (value : option string) :
  is_blank value = true ->
  not_value value = true
  \/ lt (parseFloat (text value)) (Finite 0) || gt (parseFloat (text value)) (Finite 1) = false.
Proof.
  destruct value as [s |]; [| now left]. simpl. intros H. right.
  apply String.eqb_eq in H. now rewrite (parseFloat_blank s H).
Qed.

Lemma not_blank_value (value : option string) :
  is_blank value = false -> not_value value = false.
Proof. destruct value as [[| c s] |]; simpl; congruence. Qed.

(** The message of a required field after the whole of [validateForm]. *)
Lemma newErrors_required (files : Files) (formData : FormData) (f : string) :
  In f requiredFields ->
  newErrors files formData !! f =
    (let value := formData !! f in
     let x := parseFloat (text value) in
     if is_blank value then Some "This field is required"%string
     else if String.eqb f "discountRate" && (lt x (Finite 0) || gt x (Finite 1))
          then Some "Discount rate must be between 0 and 1 (e.g., 0.08 for 8%)"%string
     else if num_isNaN x || le x (Finite 0) then Some "Must be a positive number"%string
     else None).
Proof.
  intros Hin. cbv zeta.
  destruct (required_not_optional f Hin) as (H1 & H2 & _).
  unfold newErrors. rewrite !check_optional_lookup by assumption.
  pose proof (fold_required_get files formData f Hin) as Hget.
  unfold required_error in Hget. cbv zeta in Hget.
  destruct (String.eqb_spec f "discountRate") as [-> | Hne]; cbn [andb].
  - unfold check_discountRate.
    destruct (is_blank (formData !! "discountRate"%string)) eqn:Hb.
    + destruct (blank_rate _ Hb) as [Hnv | Hr].
      * rewrite Hnv. exact Hget.
      * rewrite Hr. now destruct (negb _).
    + rewrite (not_blank_value _ Hb). cbn [negb].
      destruct (lt _ _ || gt _ _); [apply lookup_insert_eq | exact Hget].
  - rewrite check_discountRate_lookup by assumption. exact Hget.
Qed.

(** The message of an optional ceiling. *)
Lemma newErrors_optional (files : Files) (formData : FormData) (f : string) :
  f = "pvMaxSizeMw"%string \/ f = "bessMaxSizeMwh"%string ->
  newErrors files formData !! f =
    (let value := formData !! f in
     let x := parseFloat (text value) in
     if negb (not_value value) && (num_isNaN x || le x (Finite 0))
     then Some "Must be a positive number"%string
     else None).
Proof.
  assert (Hbase : forall k, ~ In k requiredFields ->
            k <> "pvProduction"%string -> k <> "pricing"%string ->
            check_discountRate formData
              (fold_left (check_required formData) requiredFields (check_files files)) !! k
            = None).
  { intros k Hno Hk1 Hk2.
    rewrite check_discountRate_lookup by (intros ->; apply Hno; simpl; tauto).
    rewrite fold_required_other by assumption.
    rewrite check_files_lookup.
    apply String.eqb_neq in Hk1, Hk2. now rewrite Hk1, Hk2. }
  assert (Hpv : ~ In "pvMaxSizeMw"%string requiredFields).
  { simpl. intros H. repeat destruct H as [H | H]; try discriminate; exact H. }
  assert (Hbess : ~ In "bessMaxSizeMwh"%string requiredFields).
  { simpl. intros H. repeat destruct H as [H | H]; try discriminate; exact H. }
  cbv zeta. unfold newErrors. intros [-> | ->].
  - rewrite check_optional_lookup by discriminate.
    unfold check_optional at 1.
    destruct (_ && _); [apply lookup_insert_eq |].
    apply Hbase; [assumption | discriminate | discriminate].
  - unfold check_optional at 1.
    destruct (_ && _); [apply lookup_insert_eq |].
    rewrite check_optional_lookup by discriminate.
    apply Hbase; [assumption | discriminate | discriminate].
Qed.

(** The message of a file input, and of every name that is not a field. *)
Lemma newErrors_other (files : Files) (formData : FormData) (k : string) :
  ~ In k requiredFields ->
  k <> "pvMaxSizeMw"%string -> k <> "bessMaxSizeMwh"%string ->
  newErrors files formData !! k = check_files files !! k.
Proof.
  intros Hno H1 H2. unfold newErrors.
  rewrite !check_optional_lookup by assumption.
  rewrite check_discountRate_lookup by (intros ->; apply Hno; simpl; tauto).
  now apply fold_required_other.
Qed.

Lemma In_required_dec (k : string) : {In k requiredFields} + {~ In k requiredFields}.
Proof. apply in_dec, string_dec. Qed.

(** The message of a field depends on the text of that field alone. *)
Lemma newErrors_local (files : Files) (fd fd' : FormData) (k : string) :
  fd !! k = fd' !! k -> newErrors files fd !! k = newErrors files fd' !! k.
Proof.
  intros H.
  destruct (In_required_dec k) as [Hin | Hno].
  - rewrite !newErrors_required by assumption. cbv zeta. now rewrite H.
  - destruct (string_dec k "pvMaxSizeMw") as [-> | H1].
    + rewrite !newErrors_optional by now left. cbv zeta. now rewrite H.
    + destruct (string_dec k "bessMaxSizeMwh") as [-> | H2].
      * rewrite !newErrors_optional by now right. cbv zeta. now rewrite H.
      * now rewrite !newErrors_other.
Qed.

(** Every message is one of the five texts of [validateForm]; none is empty. *)
Lemma newErrors_nonempty (files : Files) (formData : FormData) (k m : string) :
  newErrors files formData !! k = Some m -> m <> EmptyString.
Proof.
  destruct (In_required_dec k) as [Hin | Hno].
  - rewrite newErrors_required by assumption. cbv zeta.
    destruct (is_blank _); [intros [= <-]; discriminate |].
    destruct (_ && _); [intros [= <-]; discriminate |].
    destruct (_ || _); [intros [= <-]; discriminate | discriminate].
  - destruct (string_dec k "pvMaxSizeMw") as [-> | H1].
    + rewrite newErrors_optional by now left. cbv zeta.
      destruct (_ && _); [intros [= <-]; discriminate | discriminate].
    + destruct (string_dec k "bessMaxSizeMwh") as [-> | H2].
      * rewrite newErrors_optional by now right. cbv zeta.
        destruct (_ && _); [intros [= <-]; discriminate | discriminate].
      * rewrite newErrors_other, check_files_lookup by assumption.
        destruct (String.eqb k "pricing");
          [destruct (pricing files); [discriminate | intros [= <-]; discriminate] |].
        destruct (String.eqb k "pvProduction");
          [destruct (pvProduction files); [discriminate | intros [= <-]; discriminate] |].
        discriminate.
Qed.

(** The message of a required parameter, case by case: a text that is
    missing, empty or white space only is reported as required; otherwise a
    discount rate below 0 or above 1 gets the message of the range, a text
    that is not a number or not above 0 the message that it must be positive,
    and any other text no message. *)
Theorem required_field_message_by_case
    (files : Files) (formData : FormData) (f : string) :
  In f requiredFields ->
  newErrors files formData !! f =
    (let value := formData !! f in
     let x := parseFloat (text value) in
     if is_blank value then Some "This field is required"%string
     else if String.eqb f "discountRate" && (lt x (Finite 0) || gt x (Finite 1))
          then Some "Discount rate must be between 0 and 1 (e.g., 0.08 for 8%)"%string
     else if num_isNaN x || le x (Finite 0) then Some "Must be a positive number"%string
     else None).
Proof.
  intros Hin. apply newErrors_required, Hin.
Qed.

(** A negative discount rate gets the message of the range, a discount rate
    of 0 the message that it must be positive, and white space the message
    that the field is required. *)
Lemma discount_rate_messages :
  newErrors both_files (<["discountRate" := "-0.5"]> scenario_A) !! "discountRate"%string
    = Some "Discount rate must be between 0 and 1 (e.g., 0.08 for 8%)"%string
  /\ newErrors both_files (<["discountRate" := "0"]> scenario_A) !! "discountRate"%string
    = Some "Must be a positive number"%string
  /\ newErrors both_files (<["discountRate" := "  "]> scenario_A) !! "discountRate"%string
    = Some "This field is required"%string.
Proof.
  assert (Hin : In "discountRate"%string requiredFields) by (simpl; tauto).
  rewrite !(required_field_message_by_case both_files _ "discountRate" Hin).
  repeat split; vm_compute; reflexivity.
Defined.

(** The other names. A file input has a message exactly when no file is
    chosen; an optional ceiling has one exactly when its text is not empty
    and is not a number above 0, white space included; no other name ever
    gets a message, and no message is the empty text. *)
Theorem file_and_ceiling_messages (files : Files) (formData : FormData) :
  newErrors files formData !! "pvProduction"%string
    = match pvProduction files with
      | None => Some "PV production CSV file is required"%string
      | Some _ => None
      end
  /\ newErrors files formData !! "pricing"%string
    = match pricing files with
      | None => Some "Pricing CSV file is required"%string
      | Some _ => None
      end
  /\ (forall f, f = "pvMaxSizeMw"%string \/ f = "bessMaxSizeMwh"%string ->
        newErrors files formData !! f =
          if negb (not_value (formData !! f))
             && (num_isNaN (parseFloat (text (formData !! f)))
                 || le (parseFloat (text (formData !! f))) (Finite 0))
          then Some "Must be a positive number"%string
          else None)
  /\ (forall k m, newErrors files formData !! k = Some m ->
        m <> EmptyString
        /\ (In k requiredFields
            \/ In k ("pvProduction" :: "pricing" :: "pvMaxSizeMw" :: "bessMaxSizeMwh" :: nil)%string)).
Proof.
  assert (Hfile : forall k, k = "pvProduction"%string \/ k = "pricing"%string ->
            newErrors files formData !! k = check_files files !! k).
  { intros k Hk. apply newErrors_other.
    - simpl. intros H.
      destruct Hk as [-> | ->]; repeat destruct H as [H | H]; try discriminate; exact H.
    - destruct Hk as [-> | ->]; discriminate.
    - destruct Hk as [-> | ->]; discriminate. }
  split; [| split; [| split]].
  - rewrite Hfile by now left. now rewrite check_files_lookup.
  - rewrite Hfile by now right. now rewrite check_files_lookup.
  - intros f Hf. now rewrite newErrors_optional.
  - intros k m Hk. split; [eapply newErrors_nonempty, Hk |].
    destruct (In_required_dec k) as [Hin | Hno]; [now left | right].
    destruct (string_dec k "pvMaxSizeMw") as [-> | H1]; [simpl; tauto |].
    destruct (string_dec k "bessMaxSizeMwh") as [-> | H2]; [simpl; tauto |].
    rewrite newErrors_other, check_files_lookup in Hk by assumption.
    destruct (String.eqb_spec k "pricing") as [-> | H3]; [simpl; tauto |].
    destruct (String.eqb_spec k "pvProduction") as [-> | H4]; [simpl; tauto |].
    discriminate.
Qed.

(** Validation goes field by field: the message of a field depends on the
    text of that field alone (and a file message on the files), so editing
    one input changes no other verdict of the next validation; and typing
    a number above 0 into a required input other than the discount rate
    leaves that input without a message. *)
Theorem editing_one_input_changes_only_its_verdict :
  (forall (files : Files) (fd fd' : FormData) (k : string),
     fd !! k = fd' !! k -> newErrors files fd !! k = newErrors files fd' !! k)
  /\ (forall (files : Files) (fd : FormData) (name value k : string),
        k <> name ->
        newErrors files (handleInputChange name value fd) !! k = newErrors files fd !! k)
  /\ (forall (files : Files) (fd : FormData) (name value : string),
        In name requiredFields -> name <> "discountRate"%string ->
        trim value <> EmptyString -> gt (parseFloat value) (Finite 0) = true ->
        newErrors files (handleInputChange name value fd) !! name = None).
Proof.
  split; [exact newErrors_local | split].
  - intros files fd name value k Hne. apply newErrors_local.
    unfold handleInputChange. now rewrite lookup_insert_ne.
  - intros files fd name value Hin Hne Hb Hgt.
    rewrite newErrors_required by assumption. cbv zeta.
    unfold handleInputChange. rewrite lookup_insert_eq. simpl text.
    apply is_blank_Some in Hb. rewrite Hb.
    apply String.eqb_neq in Hne. rewrite Hne. cbn [andb].
    apply gt_0_iff in Hgt as [-> ->]. reflexivity.
Qed.

End UploadFormTable.

(* ===================================================================== *)
(** * UploadForm: the handlers on the state of the form *)
(* ===================================================================== *)

Module UploadFormState.
Import Js UploadForm FormSpec UploadFormFacts UploadFormTable.

Lemma clear_error_lookup (name k : string) (errs : Errors) :
  clear_error name errs !! k =
    if String.eqb k name
    then match errs !! name with
         | Some EmptyString => Some EmptyString
         | _ => None
         end
    else errs !! k.
Proof.
  unfold clear_error.
  destruct (String.eqb_spec k name) as [-> | Hne].
  - destruct (errs !! name) as [[| c m] |] eqn:E; simpl.
    + exact E.
    + apply lookup_delete_eq.
    + exact E.
  - destruct (not_value (errs !! name)); [reflexivity |].
    rewrite lookup_delete_ne; [reflexivity | congruence].
Qed.

Lemma clear_error_nonempty (name : string) (errs : Errors) :
  messages_nonempty errs -> messages_nonempty (clear_error name errs).
Proof.
  intros H k m. rewrite clear_error_lookup.
  destruct (String.eqb k name); [| apply H].
  destruct (errs !! name) as [[| c s] |] eqn:E; try discriminate.
  intros _. now apply H in E.
Qed.

Lemma submit_nonempty (respond : list (string * FormValue) -> Submission) (st : State) :
  messages_nonempty (errors (after (submit respond st))).
Proof.
  unfold submit.
  destruct (handleSubmit (files st) (formData st)) as [body |]; simpl.
  - destruct (respond body) as [taskId | detail]; simpl.
    + intros k m. apply newErrors_nonempty.
    + intros k m H. apply lookup_singleton_Some in H as [_ <-].
      destruct detail as [[| c d] |]; discriminate.
  - intros k m. apply newErrors_nonempty.
Qed.

Lemma handleEvent_nonempty (st : State) (e : Event) :
  messages_nonempty (errors st) -> messages_nonempty (errors (handleEvent st e)).
Proof.
  intros H. destruct e as [name value | name fileList | respond]; simpl.
  - now apply clear_error_nonempty.
  - destruct fileList as [[| file rest] |]; simpl; try assumption.
    now apply clear_error_nonempty.
  - apply submit_nonempty.
Qed.

Lemma reachable_nonempty (events : list Event) :
  forall st, messages_nonempty (errors st) ->
             messages_nonempty (errors (fold_left handleEvent events st)).
Proof.
  induction events as [| e events IH]; intros st H; simpl; [assumption |].
  now apply IH, handleEvent_nonempty.
Qed.

Lemma initial_nonempty : messages_nonempty (errors initialState).
Proof. intros k m. simpl. now rewrite lookup_empty. Qed.

(** The contract of [handleSubmit]. A form that does not validate sends
    nothing, calls nothing, and is left with the messages of the validation,
    of which there is at least one. A form that validates sends its body
    once and ends with the submit button enabled again; accepted, the task id
    of the response is handed on and no message remains; refused, nothing is
    handed on and the only message is that of the submission, which is the
    detail of the response or, without one, the fixed text. The inputs and
    the files are not touched. *)
Theorem handleSubmit_contract
    (respond : list (string * FormValue) -> Submission) (st : State) :
  let out := submit respond st in
  formData (after out) = formData st
  /\ files (after out) = files st
  /\ (validateForm (files st) (formData st) = false ->
        sent out = None /\ onOptimizationStart out = None
        /\ errors (after out) = newErrors (files st) (formData st)
        /\ errors (after out) <> ∅
        /\ isSubmitting (after out) = isSubmitting st)
  /\ (validateForm (files st) (formData st) = true ->
        sent out = Some (submitData (files st) (formData st))
        /\ isSubmitting (after out) = false
        /\ match respond (submitData (files st) (formData st)) with
           | Accepted taskId =>
               onOptimizationStart out = Some taskId /\ errors (after out) = ∅
           | Refused detail =>
               onOptimizationStart out = None
               /\ exists m, errors (after out) = {[ "submit"%string := m ]}
                            /\ m <> EmptyString
                            /\ (forall d, detail = Some d -> d <> EmptyString -> m = d)
                            /\ (detail = None \/ detail = Some EmptyString ->
                                m = "Failed to submit optimization. Please try again."%string)
           end).
Proof.
  cbv zeta. unfold submit, handleSubmit.
  destruct (validateForm (files st) (formData st)) eqn:Hv.
  - assert (He : newErrors (files st) (formData st) = ∅) by now apply validateForm_empty.
    destruct (respond (submitData (files st) (formData st))) as [taskId | detail];
      cbn [after sent onOptimizationStart formData files errors isSubmitting];
      (split; [reflexivity | split; [reflexivity | split; [discriminate |]]]);
      intros _; (split; [reflexivity | split; [reflexivity |]]).
    + now split.
    + split; [reflexivity |]. eexists. split; [reflexivity |].
      destruct detail as [[| c d] |].
      * split; [discriminate | split; [intros d' [= <-] H; now contradiction H | reflexivity]].
      * split; [discriminate | split; [now intros d' [= <-] _ | intros [H | H]; discriminate]].
      * split; [discriminate | split; [discriminate | reflexivity]].
  - cbn [after sent onOptimizationStart formData files errors isSubmitting].
    split; [reflexivity | split; [reflexivity | split; [| discriminate]]].
    intros _. repeat split.
    intros H. apply validateForm_empty in H. congruence.
Qed.

(** In every state the form can reach, no stored message is the empty text.
    Hence changing an input always removes the message of that input, and of
    that input only; it sets the text of that input, and of that input only;
    choosing a file does the same for the file input, and a file dialog that
    is closed without a file changes nothing. *)
Theorem changing_an_input_removes_its_message (events : list Event) :
  let st := fold_left handleEvent events initialState in
  (forall k m, errors st !! k = Some m -> m <> EmptyString)
  /\ (forall name value,
        let st' := inputChange name value st in
        errors st' !! name = None
        /\ formData st' !! name = Some value
        /\ (forall k, k <> name ->
              errors st' !! k = errors st !! k /\ formData st' !! k = formData st !! k)
        /\ files st' = files st)
  /\ (forall name file rest,
        let st' := handleFileChange name (Some (file :: rest)) st in
        errors st' !! name = None
        /\ (forall k, k <> name -> errors st' !! k = errors st !! k)
        /\ formData st' = formData st
        /\ (name = "pvProduction"%string -> pvProduction (files st') = Some file
                                             /\ pricing (files st') = pricing (files st))
        /\ (name = "pricing"%string -> pricing (files st') = Some file
                                        /\ pvProduction (files st') = pvProduction (files st)))
  /\ (forall name, handleFileChange name None st = st
                   /\ handleFileChange name (Some nil) st = st).
Proof.
  cbv zeta.
  pose proof (reachable_nonempty events initialState initial_nonempty) as Hne.
  set (st := fold_left handleEvent events initialState) in *.
  assert (Hclear : forall name, clear_error name (errors st) !! name = None).
  { intros name. rewrite clear_error_lookup, String.eqb_refl.
    destruct (errors st !! name) as [[| c m] |] eqn:E; try reflexivity.
    now apply Hne in E. }
  assert (Hkeep : forall name k, k <> name ->
            clear_error name (errors st) !! k = errors st !! k).
  { intros name k Hk. rewrite clear_error_lookup.
    apply String.eqb_neq in Hk. now rewrite Hk. }
  split; [exact Hne | split; [| split]].
  - intros name value. simpl. split; [apply Hclear | split; [| split]].
    + unfold handleInputChange. apply lookup_insert_eq.
    + intros k Hk. split; [now apply Hkeep |].
      unfold handleInputChange. rewrite lookup_insert_ne; [reflexivity | congruence].
    + reflexivity.
  - intros name file rest. simpl. split; [apply Hclear | split; [| split; [| split]]].
    + intros k Hk. now apply Hkeep.
    + reflexivity.
    + intros ->. now split.
    + intros ->. now split.
  - intros name. now split.
Qed.

Lemma fold_inputs_formData (vals : string -> string) (fields : list string) :
  forall st,
    formData (fold_left handleEvent (map (fun f => InputChange f (vals f)) fields) st)
    = fold_left (fun fd f => <[f := vals f]> fd) fields (formData st).
Proof.
  induction fields as [| f fields IH]; intros st; simpl; [reflexivity |].
  now rewrite IH.
Qed.

Lemma fold_inputs_files (vals : string -> string) (fields : list string) :
  forall st,
    files (fold_left handleEvent (map (fun f => InputChange f (vals f)) fields) st)
    = files st.
Proof.
  induction fields as [| f fields IH]; intros st; simpl; [reflexivity |].
  now rewrite IH.
Qed.

Lemma fold_insert_lookup (vals : string -> string) (fields : list string) (k : string) :
  forall fd : FormData,
    fold_left (fun fd f => <[f := vals f]> fd) fields fd !! k
    = if in_dec string_dec k fields then Some (vals k) else fd !! k.
Proof.
  induction fields as [| f fields IH]; intros fd; simpl; [reflexivity |].
  rewrite IH.
  destruct (in_dec string_dec k fields) as [Hin | Hno].
  - destruct (string_dec f k); reflexivity.
  - destruct (string_dec f k) as [-> | Hne].
    + apply lookup_insert_eq.
    + now rewrite lookup_insert_ne.
Qed.

(** Filling in the form. Starting from the empty form, choosing the two
    files and typing into each of the seven required inputs a text that is a
    number above 0, the discount rate being at most 1, gives a form that
    validates; its submission sends the two files and the seven texts as
    typed, under the names of the request, and no ceiling. *)
Theorem a_filled_in_form_is_sent_as_typed
    (vals : string -> string) (pv price : string)
    (respond : list (string * FormValue) -> Submission) :
  (forall f, In f requiredFields ->
     trim (vals f) <> EmptyString /\ gt (parseFloat (vals f)) (Finite 0) = true) ->
  le (parseFloat (vals "discountRate"%string)) (Finite 1) = true ->
  let st := fold_left handleEvent
              (FileChange "pvProduction" (Some (pv :: nil))
               :: FileChange "pricing" (Some (price :: nil))
               :: map (fun f => InputChange f (vals f)) requiredFields)
              initialState in
  validateForm (files st) (formData st) = true
  /\ sent (submit respond st)
     = Some (("pv_production_file", FileValue (Some pv))
             :: ("pricing_file", FileValue (Some price))
             :: ("pv_capex_per_mw", TextValue (Some (vals "pvCapexPerMw")))
             :: ("bess_capex_per_mwh", TextValue (Some (vals "bessCapexPerMwh")))
             :: ("discount_rate", TextValue (Some (vals "discountRate")))
             :: ("interconnection_capacity_mw",
                 TextValue (Some (vals "interconnectionCapacityMw")))
             :: ("onsite_load_price_per_mwh", TextValue (Some (vals "onsiteLoadPricePerMwh")))
             :: ("onsite_load_max_mw", TextValue (Some (vals "onsiteLoadMaxMw")))
             :: ("yoy_price_escalation_rate",
                 TextValue (Some (vals "yoyPriceEscalationRate")))
             :: nil)%string.
Proof.
  intros Hpos Hrate st.
  assert (Hfd : forall k, formData st !! k
                = if in_dec string_dec k requiredFields then Some (vals k)
                  else initialFormData !! k).
  { intros k. subst st. cbn [fold_left handleEvent handleFileChange].
    rewrite fold_inputs_formData. cbn [formData]. apply fold_insert_lookup. }
  assert (Hfiles : files st = {| pvProduction := Some pv; pricing := Some price |}).
  { subst st. cbn [fold_left handleEvent handleFileChange].
    rewrite fold_inputs_files. reflexivity. }
  assert (Hreq : forall f, In f requiredFields -> formData st !! f = Some (vals f)).
  { intros f Hin. rewrite Hfd. destruct (in_dec string_dec f requiredFields); tauto. }
  assert (Hpvmax : formData st !! "pvMaxSizeMw"%string = Some EmptyString).
  { rewrite Hfd. reflexivity. }
  assert (Hbessmax : formData st !! "bessMaxSizeMwh"%string = Some EmptyString).
  { rewrite Hfd. reflexivity. }
  assert (Hv : validateForm (files st) (formData st) = true).
  { apply validateForm_accepts. rewrite Hfiles. cbn [pvProduction pricing].
    split; [split; discriminate | split; [| split; [| split]]].
    - intros f Hin. exists (vals f). split; [now apply Hreq | now apply Hpos].
    - rewrite Hreq by (simpl; tauto). exact Hrate.
    - right; left. exact Hpvmax.
    - right; left. exact Hbessmax. }
  split; [exact Hv |].
  unfold submit, handleSubmit. rewrite Hv.
  assert (Hbody : submitData (files st) (formData st)
                  = (("pv_production_file", FileValue (Some pv))
             :: ("pricing_file", FileValue (Some price))
             :: ("pv_capex_per_mw", TextValue (Some (vals "pvCapexPerMw")))
             :: ("bess_capex_per_mwh", TextValue (Some (vals "bessCapexPerMwh")))
             :: ("discount_rate", TextValue (Some (vals "discountRate")))
             :: ("interconnection_capacity_mw",
                 TextValue (Some (vals "interconnectionCapacityMw")))
             :: ("onsite_load_price_per_mwh", TextValue (Some (vals "onsiteLoadPricePerMwh")))
             :: ("onsite_load_max_mw", TextValue (Some (vals "onsiteLoadMaxMw")))
             :: ("yoy_price_escalation_rate",
                 TextValue (Some (vals "yoyPriceEscalationRate")))
             :: nil)%string).
  { unfold submitData. rewrite Hfiles, Hpvmax, Hbessmax.
    rewrite !Hreq by (simpl; tauto). reflexivity. }
  rewrite Hbody. now destruct (respond _).
Qed.

(** A form typed in: 100 in every required input but the discount rate,
    which is 0.08. *)
Lemma a_form_typed_in_is_sent :
  let vals := fun f : string =>
                if String.eqb f "discountRate" then "0.08"%string else "100"%string in
  let st := fold_left handleEvent
              (FileChange "pvProduction" (Some ("pv_production.csv"%string :: nil))
               :: FileChange "pricing" (Some ("pricing.csv"%string :: nil))
               :: map (fun f => InputChange f (vals f)) requiredFields)
              initialState in
  validateForm (files st) (formData st) = true
  /\ sent (submit (fun _ => Accepted "task-1") st)
     = Some (("pv_production_file", FileValue (Some "pv_production.csv"))
             :: ("pricing_file", FileValue (Some "pricing.csv"))
             :: ("pv_capex_per_mw", TextValue (Some "100"))
             :: ("bess_capex_per_mwh", TextValue (Some "100"))
             :: ("discount_rate", TextValue (Some "0.08"))
             :: ("interconnection_capacity_mw", TextValue (Some "100"))
             :: ("onsite_load_price_per_mwh", TextValue (Some "100"))
             :: ("onsite_load_max_mw", TextValue (Some "100"))
             :: ("yoy_price_escalation_rate", TextValue (Some "100"))
             :: nil)%string.
Proof.
  intros vals.
  apply (a_filled_in_form_is_sent_as_typed
           vals "pv_production.csv" "pricing.csv" (fun _ => Accepted "task-1")).
  - intros f Hin. simpl in Hin.
    repeat destruct Hin as [<- | Hin]; try contradiction;
      (split; [vm_compute; discriminate | vm_compute; reflexivity]).
  - vm_compute. reflexivity.
Defined.

End UploadFormState.

(* ===================================================================== *)
(** * ResultsDisplay: the fields of the result payload *)
(* ===================================================================== *)

Module ResultsDisplayFacts.
Import Js Payload ResultsDisplay PayloadSpec.

Lemma prop_insert_ne (r : Results) (k k' : string) (v : JsVal) :
  k <> k' -> prop (<[k := v]> r) k' = prop r k'.
Proof. intros H. unfold prop. now rewrite lookup_insert_ne. Qed.

Lemma prop_ext (r r' : Results) (k : string) :
  r !! k = r' !! k -> prop r k = prop r' k.
Proof. intros H. unfold prop. now rewrite H. Qed.

(** Two payloads that agree on the fields read are displayed alike. *)
Lemma ResultsDisplay_ext (r r' : Results) :
  (forall k, In k fields_read -> r !! k = r' !! k) ->
  ResultsDisplay (Some r) = ResultsDisplay (Some r').
Proof.
  intros H. unfold ResultsDisplay.
  rewrite (prop_ext r r' "optimal_pv_size_mw"), (prop_ext r r' "optimal_bess_size_mwh"),
    (prop_ext r r' "capex_total"), (prop_ext r r' "npv"), (prop_ext r r' "irr"),
    (prop_ext r r' "total_revenue_25_years"), (prop_ext r r' "monthly_revenues"),
    (prop_ext r r' "representative_days_used"), (prop_ext r r' "scale_factor");
    try reflexivity; apply H; simpl; tauto.
Qed.

Lemma total_revenue_of_view (r : Results) (view : ResultsView) :
  ResultsDisplay (Some r) = View view ->
  total_revenue view = formatCurrency (prop r "total_revenue_25_years").
Proof.
  unfold ResultsDisplay.
  destruct (call_toFixed (prop r "optimal_pv_size_mw")); [| discriminate].
  destruct (call_toFixed (prop r "optimal_bess_size_mwh")); [| discriminate].
  destruct (note_section _ _); [| discriminate].
  now intros [= <-].
Qed.

(** C1 (as the code has it). The component reads the payload through the
    fields optimal_pv_size_mw, optimal_bess_size_mwh, capex_total, npv, irr,
    total_revenue_25_years, monthly_revenues, representative_days_used and
    scale_factor, and through no other: payloads that agree on them are
    displayed alike, each of them changes the display of some payload, the
    total revenue shown is the field total_revenue_25_years, and a field named
    total_revenue_over_horizon is not looked at. *)
Theorem results_display_reads_total_revenue_25_years :
  (forall r r' : Results,
     (forall k, In k fields_read -> r !! k = r' !! k) ->
     ResultsDisplay (Some r) = ResultsDisplay (Some r'))
  /\ (forall k, In k fields_read ->
        exists (r : Results) (v : JsVal),
          ResultsDisplay (Some (<[k := v]> r)) <> ResultsDisplay (Some r))
  /\ (forall (r : Results) (view : ResultsView),
        ResultsDisplay (Some r) = View view ->
        total_revenue view = formatCurrency (prop r "total_revenue_25_years"))
  /\ (forall (r : Results) (v : JsVal),
        ResultsDisplay (Some (<["total_revenue_over_horizon" := v]> r))
          = ResultsDisplay (Some r)).
Proof.
  split; [exact ResultsDisplay_ext | split; [| split; [exact total_revenue_of_view |]]].
  - intros k Hk. exists ones.
    simpl in Hk.
    destruct Hk as [<- | [<- | [<- | [<- | [<- | [<- | [<- | [<- | [<- | []]]]]]]]]].
    1-6, 9: exists (JNum (Finite 2)); vm_compute; discriminate.
    + exists (JArr (january :: nil)). vm_compute; discriminate.
    + exists JNull. vm_compute; discriminate.
  - intros r v. apply ResultsDisplay_ext. intros k Hk.
    rewrite lookup_insert_ne; [reflexivity |].
    simpl in Hk. intros <-. repeat destruct Hk as [Hk | Hk]; try discriminate. exact Hk.
Qed.

(** C1, refuted as stated: of a payload that names the total revenue
    total_revenue_over_horizon the component shows no total ("$NaN"); it
    shows the total of the payload that names it total_revenue_25_years. *)
Lemma total_revenue_over_horizon_is_not_displayed :
  (exists view, ResultsDisplay (Some payload_of_spec) = View view
                /\ total_revenue view = "$NaN"%string)
  /\ (exists view, ResultsDisplay (Some payload_of_code) = View view
                   /\ total_revenue view = "$150,000,000"%string).
Proof.
  split; eexists; (split; [vm_compute; reflexivity | reflexivity]).
Qed.

End ResultsDisplayFacts.

(* ===================================================================== *)
(** * ProgressIndicator and App: delivery of the outcome *)
(* ===================================================================== *)

Module DeliveryFacts.
Import Js Payload ProgressIndicator.

Lemma string_or_nonempty (s : option string) (fallback : string) :
  fallback <> EmptyString -> string_or s fallback <> EmptyString.
Proof. destruct s as [[| c s] |]; simpl; intros H; congruence. Qed.

Lemma poll_completed (st : State) (sd : StatusData) :
  sd_status sd = "completed"%string ->
  called (poll st (Resolved sd)) = onComplete (sd_results sd) :: nil
  /\ cleared (poll st (Resolved sd)) = true.
Proof. intros H. unfold poll. rewrite H. now split. Qed.

Lemma poll_failed (st : State) (sd : StatusData) :
  sd_status sd = "failed"%string ->
  called (poll st (Resolved sd))
    = onError (string_or (sd_message sd) "Optimization failed") :: nil
  /\ cleared (poll st (Resolved sd)) = true
  /\ status (next (poll st (Resolved sd))) = "failed"%string
  /\ message (next (poll st (Resolved sd))) = string_or (sd_message sd) "Processing...".
Proof. intros H. unfold poll. rewrite H. now repeat split. Qed.

Lemma poll_onComplete (st : State) (r : Response) (res : option Results) :
  In (onComplete res) (called (poll st r)) ->
  exists sd, r = Resolved sd /\ sd_status sd = "completed"%string /\ res = sd_results sd.
Proof.
  destruct r as [sd |]; unfold poll.
  - destruct (String.eqb_spec (sd_status sd) "completed") as [E | E].
    + simpl. intros [[= <-] | []]. now exists sd.
    + destruct (String.eqb (sd_status sd) "failed"); simpl;
        [intros [H | []]; discriminate | intros []].
  - simpl. intros [H | []]; discriminate.
Qed.

Lemma calls_onComplete (responses : list Response) :
  forall (st : State) (res : option Results),
    In (onComplete res) (calls st responses) ->
    exists sd, In (Resolved sd) responses
               /\ sd_status sd = "completed"%string /\ res = sd_results sd.
Proof.
  induction responses as [| r rest IH]; intros st res; simpl; [tauto |].
  rewrite in_app_iff. intros [H | H].
  - apply poll_onComplete in H as (sd & -> & Hs & Hr). exists sd. tauto.
  - destruct (cleared (poll st r)); [destruct H |].
    apply IH in H as (sd & Hin & Hs & Hr). exists sd. tauto.
Qed.

(** The App keeps no results while only errors are delivered. *)
Lemma handle_errors_keep_results (cs : list Callback) :
  (forall res, ~ In (onComplete res) cs) ->
  forall app : App.State,
    App.results (fold_left App.handle cs app) = App.results app.
Proof.
  induction cs as [| c cs IH]; intros Hno app; simpl; [reflexivity |].
  rewrite IH.
  - destruct c as [res | m]; [| reflexivity]. exfalso. apply (Hno res). now left.
  - intros res H. apply (Hno res). now right.
Qed.

(** Whether some response of a run is completed can be decided. *)
Lemma classic_complete (st : State) (responses : list Response) :
  (exists sd, In (Resolved sd) responses /\ sd_status sd = "completed"%string)
  \/ (forall sd, In (Resolved sd) responses -> sd_status sd <> "completed"%string).
Proof.
  induction responses as [| r rest [(sd & Hin & Hs) | Hno]].
  - right. intros sd [].
  - left. exists sd. split; [now right | exact Hs].
  - destruct r as [sd |].
    + destruct (String.eqb_spec (sd_status sd) "completed") as [E | E].
      * left. exists sd. split; [now left | exact E].
      * right. intros sd' [[= <-] | Hin]; [exact E | now apply Hno].
    + right. intros sd' [H | Hin]; [discriminate | now apply Hno].
Qed.

(** One polling run calls back at most once: the response that calls a prop
    also clears the interval. A request that fails calls [onError] with the
    fixed message, clears the interval and leaves the indicator as it was. *)
Theorem polling_calls_back_at_most_once :
  (forall (responses : list Response) (st : State),
     (length (calls st responses) <= 1)%nat)
  /\ (forall st : State,
        called (poll st Rejected) = onError "Failed to check optimization status" :: nil
        /\ cleared (poll st Rejected) = true
        /\ next (poll st Rejected) = st)
  /\ (forall (st : State) (r : Response),
        cleared (poll st r) = false -> called (poll st r) = nil).
Proof.
  assert (Hone : forall st r, (length (called (poll st r)) <= 1)%nat
                              /\ (cleared (poll st r) = false -> called (poll st r) = nil)).
  { intros st [sd |]; unfold poll; [| split; [simpl; lia | discriminate]].
    destruct (String.eqb (sd_status sd) "completed"); [split; [simpl; lia | discriminate] |].
    destruct (String.eqb (sd_status sd) "failed"); split; simpl; try lia; try discriminate.
    reflexivity. }
  split; [| split].
  - induction responses as [| r rest IH]; intros st; simpl; [lia |].
    rewrite length_app. destruct (Hone st r) as [Hlen Hnil].
    destruct (cleared (poll st r)).
    + simpl. lia.
    + rewrite (Hnil eq_refl). simpl. apply IH.
  - intros st. repeat split.
  - intros st r. apply Hone.
Qed.

End DeliveryFacts.

(* ===================================================================== *)
(** * ResultsDisplay: what is rendered, and when the render fails *)
(* ===================================================================== *)

Module ResultsDisplayMore.
Import Js Payload MonthlyRevenueChart ResultsDisplay DisplaySpec ChartFacts ChartTotals.



(** A list of entries that is not empty gives a chart with at least one
    point, and with no more points than entries. *)
Lemma chartData_nonempty (e : RevenueEntry) (l : list RevenueEntry) :
  chartData (Some (e :: l)) <> nil
  /\ (length (chartData (Some (e :: l))) <= length (e :: l))%nat.
Proof.
  rewrite ChartFacts.chartData_items. split.
  - intros H. apply map_eq_nil in H.
    assert (Hin : In {| item_year := year e; item_revenue := year_total (e :: l) (year e) |}
                     (Object_values (yearly (e :: l)))).
    { apply In_items. cbn [item_year item_revenue]. split; [now left | reflexivity]. }
    rewrite H in Hin. destruct Hin.
  - rewrite length_map, <- (length_map item_year), <- (length_map year (e :: l)).
    apply NoDup_incl_length; [apply NoDup_items |].
    intros y Hy. apply in_map_iff in Hy as (it & <- & Hit).
    now apply In_items in Hit as [Hy _].
Qed.


(** The chart section. The chart is rendered exactly when monthly_revenues
    is a list that is not empty; it then has at least one point and at most
    as many as the list has entries, so the placeholder of the chart for
    missing data is never what ResultsDisplay shows. *)
Theorem results_chart_is_never_the_placeholder (r : Results) (v : ResultsView) :
  ResultsDisplay (Some r) = View v ->
  (forall c, revenue_chart v = Element c <->
             exists e l, prop r "monthly_revenues" = JArr (e :: l)
                         /\ c = LineChart (chartData (Some (e :: l))))
  /\ revenue_chart v <> Element NoRevenueData
  /\ (forall e l, prop r "monthly_revenues" = JArr (e :: l) ->
        chartData (Some (e :: l)) <> nil
        /\ (length (chartData (Some (e :: l))) <= length (e :: l))%nat)
  /\ (prop r "monthly_revenues" = JArr nil \/ prop r "monthly_revenues" = JUndefined ->
        revenue_chart v = Nothing).
Proof.
  unfold ResultsDisplay.
  destruct (call_toFixed (prop r "optimal_pv_size_mw")) as [pv |]; [| discriminate].
  destruct (call_toFixed (prop r "optimal_bess_size_mwh")) as [bess |]; [| discriminate].
  destruct (note_section _ _) as [note |]; [| discriminate].
  intros [= <-]. cbn [revenue_chart].
  assert (Hshown : forall e l,
            chart_section (JArr (e :: l)) = Element (LineChart (chartData (Some (e :: l))))).
  { intros e l. cbn [chart_section truthy]. unfold MonthlyRevenueChart.
    destruct (chartData (Some (e :: l))) eqn:E; [| reflexivity].
    now destruct (chartData_nonempty e l) as [H _]. }
  assert (Hiff : forall ch, chart_section (prop r "monthly_revenues") = Element ch <->
             exists e l, prop r "monthly_revenues" = JArr (e :: l)
                         /\ ch = LineChart (chartData (Some (e :: l)))).
  { intros ch. destruct (prop r "monthly_revenues") as [| | b | n | [| e l]] eqn:E.
    1-2: split; [discriminate | intros (e & l & H & _); discriminate].
    - split; [destruct b; discriminate | intros (e & l & H & _); discriminate].
    - split; [| intros (e & l & H & _); discriminate].
      unfold chart_section. destruct (truthy (JNum n)); [discriminate |].
      destruct n as [| sg | q]; discriminate.
    - split; [discriminate | intros (e & l & H & _); discriminate].
    - rewrite Hshown. split.
      + intros [= <-]. now exists e, l.
      + intros (e' & l' & [= <- <-] & ->). reflexivity. }
  split; [exact Hiff | split; [| split]].
  - intros H. apply Hiff in H as (e & l & _ & H). discriminate.
  - intros e l _. apply chartData_nonempty.
  - intros [-> | ->]; reflexivity.
Qed.

(** A payload with one month of revenue is rendered with its chart. *)
Lemma payload_of_code_shows_its_chart :
  exists v, ResultsDisplay (Some PayloadSpec.payload_of_code) = View v
            /\ revenue_chart v
               = Element (LineChart (chartData (Some (PayloadSpec.january :: nil)))).
Proof.
  eexists. split; [vm_compute; reflexivity |].
  apply (results_chart_is_never_the_placeholder PayloadSpec.payload_of_code).
  - vm_compute. reflexivity.
  - exists PayloadSpec.january, nil. split; vm_compute; reflexivity.
Defined.

(** The chart on its own. It shows its placeholder exactly when the data
    are missing or empty; otherwise it draws a line through the points of
    [chartData], of which there is at least one and no more than there are
    entries. *)
Theorem chart_placeholder_exactly_for_missing_data (data : option (list RevenueEntry)) :
  (MonthlyRevenueChart data = NoRevenueData <-> data = None \/ data = Some nil)
  /\ (forall points, MonthlyRevenueChart data = LineChart points ->
        points = chartData data /\ points <> nil
        /\ exists entries, data = Some entries /\ entries <> nil
                           /\ (length points <= length entries)%nat).
Proof.
  unfold MonthlyRevenueChart. destruct data as [[| e l] |].
  - split; [split; [now right | reflexivity] | discriminate].
  - destruct (chartData_nonempty e l) as [Hne Hlen].
    destruct (chartData (Some (e :: l))) as [| p points'] eqn:E; [now contradiction Hne |].
    split.
    + split; [discriminate | intros [H | H]; discriminate].
    + intros points [= <-]. split; [reflexivity | split; [discriminate |]].
      exists (e :: l). split; [reflexivity | split; [discriminate | exact Hlen]].
  - split; [split; [now left | reflexivity] | discriminate].
Qed.

(** The note on the scaling. It is rendered exactly when
    representative_days_used is truthy, with the scale factor in two
    decimals, or with nothing in its place when the factor is absent or
    null; which truthy value the field holds makes no difference to the
    whole display. A field that is the number 0 or NaN is not skipped
    silently: React renders the number itself. *)
Theorem scaling_note_depends_on_truthiness_only (r : Results) :
  (forall v, ResultsDisplay (Some r) = View v ->
     (truthy (prop r "representative_days_used") = true ->
        (forall n, prop r "scale_factor" = JNum n ->
                   scaling_note v = Element (toFixed n 2))
        /\ (prop r "scale_factor" = JUndefined \/ prop r "scale_factor" = JNull ->
            scaling_note v = Element EmptyString))
     /\ (truthy (prop r "representative_days_used") = false ->
          (forall s, scaling_note v <> Element s)
          /\ (scaling_note v = Nothing <->
              forall n, prop r "representative_days_used" <> JNum n)))
  /\ (forall u u' : JsVal,
        truthy u = true -> truthy u' = true ->
        ResultsDisplay (Some (<["representative_days_used" := u]> r))
        = ResultsDisplay (Some (<["representative_days_used" := u']> r))).
Proof.
  split.
  - intros v. unfold ResultsDisplay.
    destruct (call_toFixed (prop r "optimal_pv_size_mw")) as [pv |]; [| discriminate].
    destruct (call_toFixed (prop r "optimal_bess_size_mwh")) as [bess |]; [| discriminate].
    unfold note_section.
    destruct (truthy (prop r "representative_days_used")) eqn:Hu.
    + destruct (optional_toFixed (prop r "scale_factor")) as [s |] eqn:Ef; [| discriminate].
      intros [= <-]. cbn [scaling_note]. split; [| discriminate].
      intros _. split.
      * intros n Hn. rewrite Hn in Ef. cbn in Ef. now injection Ef as <-.
      * intros [Hn | Hn]; rewrite Hn in Ef; cbn in Ef; now injection Ef as <-.
    + intros [= <-]. cbn [scaling_note]. split; [discriminate |].
      intros _. destruct (prop r "representative_days_used") as [| | b | n | l];
        cbn [falsy_child]; (split; [try destruct n; discriminate |]).
      * split; [discriminate | reflexivity].
      * split; [discriminate | reflexivity].
      * split; [discriminate | reflexivity].
      * split; [destruct n; discriminate | intros H; now contradiction (H n)].
      * split; [discriminate | reflexivity].
  - intros u u' Hu Hu'. unfold ResultsDisplay, prop.
    rewrite !lookup_insert_eq. cbn [default].
    rewrite !lookup_insert_ne by discriminate.
    unfold note_section, id. now rewrite Hu, Hu'.
Qed.

End ResultsDisplayMore.

(* ===================================================================== *)
(** * formatCurrency: whole dollars, grouped in threes *)
(* ===================================================================== *)

Module CurrencyFacts.
Import Js Payload ResultsDisplay DisplaySpec Shape JsFacts.








Lemma value_of_digits_of_Z (n : Z) : 0 <= n -> value_of_digits (digits_of_Z n) = Some n.
Proof.
  intros Hn. unfold value_of_digits, digits_of_Z.
  rewrite NilZero.usu by apply ChartTotals.to_uint_nonnil. cbn [option_map].
  rewrite DecimalN.Unsigned.of_to. f_equal. lia.
Qed.

Lemma digits_of_Z_nonempty (n : Z) : digits_of_Z n <> EmptyString.
Proof.
  intros H. pose proof (NilZero.usu (N.to_uint (Z.to_N n)) (ChartTotals.to_uint_nonnil _)) as E.
  unfold digits_of_Z in H. rewrite H in E. discriminate.
Qed.




(** ** Two decimals *)

Lemma value_of_digits_zero (s : string) :
  s <> EmptyString -> value_of_digits (String "0" s) = value_of_digits s.
Proof.
  destruct s as [| c s]; [intros H; now contradiction H | intros _].
  unfold value_of_digits, NilZero.uint_of_string.
  cbn [NilEmpty.uint_of_string].
  destruct (uint_of_char c (NilEmpty.uint_of_string s)); reflexivity.
Qed.

Lemma value_of_digits_zeros (k : nat) (s : string) :
  s <> EmptyString -> value_of_digits (String.append (zeros k) s) = value_of_digits s.
Proof.
  intros Hs. induction k as [| k IH]; cbn [zeros]; rewrite ?append_nil; [reflexivity |].
  rewrite append_cons, value_of_digits_zero; [exact IH |].
  intros E. apply (f_equal String.length) in E. rewrite length_append in E.
  destruct s; [now contradiction Hs | simpl in E; lia].
Qed.

Lemma round_scaled_2 (q : Q) :
  0 <= round_scaled q 2
  /\ (inject_Z (round_scaled q 2) <= Qabs q * 100 + (1 # 2))%Q
  /\ (Qabs q * 100 + (1 # 2) < inject_Z (round_scaled q 2) + 1)%Q.
Proof.
  unfold round_scaled. destruct q as [a d]. cbn [Qnum Qden].
  change (10 ^ Z.of_nat 2) with 100.
  set (N := 2 * Z.abs a * 100 + Z.pos d). set (D := 2 * Z.pos d).
  assert (HD : 0 < D) by (unfold D; lia).
  assert (HN : 0 <= N) by (unfold N; lia).
  pose proof (Z.mul_div_le N D HD) as Hlo.
  pose proof (Z.mul_succ_div_gt N D HD) as Hhi.
  split; [apply Z.div_pos; assumption |].
  unfold Qle, Qlt, Qplus, Qmult, Qabs, inject_Z. cbn [Qnum Qden].
  rewrite !Pos2Z.inj_mul. unfold N, D in *. split; nia.
Qed.

(** The text of [toFixed(2)] of a magnitude below 10^21, read back. *)
Lemma toFixed_2_value (q : Q) :
  Qle_bool (inject_Z (10 ^ 21)) (Qabs q) = false ->
  exists (n : Z) (int dec : string),
    toFixed (Finite q) 2
    = String.append (if Qsgn q <? 0 then "-"%string else EmptyString)
        (String.append int (String.append "." dec))
    /\ int <> EmptyString /\ String.length dec = 2%nat
    /\ value_of_digits (String.append int dec) = Some n
    /\ 0 <= n
    /\ (inject_Z n <= Qabs q * 100 + (1 # 2) /\ Qabs q * 100 + (1 # 2) < inject_Z n + 1)%Q.
Proof.
  intros Hsmall.
  destruct (round_scaled_2 q) as (Hn & Hlo & Hhi).
  unfold toFixed. rewrite Hsmall.
  set (m0 := digits_of_Z (round_scaled q 2)).
  set (m := String.append (zeros (3 - String.length m0)) m0).
  assert (Hl : (3 <= String.length m)%nat).
  { unfold m. rewrite length_append, length_zeros. lia. }
  exists (round_scaled q 2), (take (String.length m - 2) m), (drop (String.length m - 2) m).
  split; [reflexivity | split; [| split; [| split; [| split; [exact Hn | now split]]]]].
  - intros E. apply (f_equal String.length) in E.
    rewrite length_take in E by lia. simpl in E. lia.
  - rewrite length_drop. lia.
  - rewrite take_drop. unfold m.
    rewrite value_of_digits_zeros by apply digits_of_Z_nonempty.
    now apply value_of_digits_of_Z.
Qed.

Lemma div_half_even_nonneg (n d : Z) : 0 <= n -> 0 < d -> 0 <= div_half_even n d.
Proof.
  intros Hn Hd. unfold div_half_even.
  assert (0 <= n / d) by (apply Z.div_pos; lia).
  destruct (2 * (n mod d) ?= d); [destruct (Z.even (n / d)) | |]; lia.
Qed.

(** Rounding to binary64 never changes the side of zero. *)
Lemma round64_sign (q p : Q) :
  round64 q = Finite p -> (Qsgn p <? 0) = true -> (Qsgn q <? 0) = true.
Proof.
  unfold round64. destruct q as [a d]. cbn [Qnum Qden Qsgn].
  destruct (Z.eqb_spec (Z.abs a) 0) as [Ha | Ha].
  { intros [= <-]. discriminate. }
  set (u := Z.max (floor_log2 (Z.abs a) (Z.pos d) - 52) (-1074)).
  set (m0 := if 0 <=? u then div_half_even (Z.abs a) (Z.pos d * 2 ^ u)
             else div_half_even (Z.abs a * 2 ^ (- u)) (Z.pos d)).
  assert (Hm0 : 0 <= m0).
  { unfold m0. destruct (Z.leb_spec 0 u) as [Hu | Hu]; apply div_half_even_nonneg;
      try lia;
      solve [ apply Z.mul_pos_pos; [lia | apply Z.pow_pos_nonneg; lia]
            | apply Z.mul_nonneg_nonneg; [lia | apply Z.pow_nonneg; lia] ]. }
  destruct (Z.ltb_spec a 0) as [Hneg | Hpos].
  { intros _ _. apply Z.ltb_lt. unfold Qsgn. cbn [Qnum].
    rewrite Z.sgn_neg by exact Hneg. lia. }
  intros Hp Hs. exfalso. apply Z.ltb_lt in Hs.
  assert (Hnn : 0 <= Qnum p);
    [| unfold Qsgn in Hs; pose proof (Z.sgn_nonneg (Qnum p)); lia].
  destruct (0 <=? u) eqn:Hu.
  - destruct (2 ^ 1024 <=? Z.abs m0 * 2 ^ u); [discriminate |].
    injection Hp as <-. cbn [inject_Z Qnum].
    apply Z.mul_nonneg_nonneg; [lia | apply Z.pow_nonneg; lia].
  - injection Hp as <-.
    pose proof (Qred_correct (m0 # Z.to_pos (2 ^ (- u)))) as E.
    assert (H0 : (0 <= Qred (m0 # Z.to_pos (2 ^ (- u))))%Q).
    { rewrite E. unfold Qle. cbn [Qnum Qden]. lia. }
    unfold Qle in H0. cbn [Qnum Qden] in H0. lia.
Qed.

(** The sizes and the rate of return are shown rounded to two decimals,
    halves away from zero, as long as the number shown is below 10^21 in
    magnitude: the digits of a size card, the point dropped, are the size
    times 100 rounded to a whole number; the digits of a rate other than 0
    are those of the percentage, the binary64 product of the rate and 100,
    times 100 rounded to a whole number. Each has a minus sign exactly when
    the number shown is negative, which a percentage is for a negative rate
    only. *)
Theorem sizes_and_rates_are_rounded_to_two_decimals :
  (forall q : Q,
     Qle_bool (inject_Z (10 ^ 21)) (Qabs q) = false ->
     exists (n : Z) (int dec : string),
       call_toFixed (JNum (Finite q))
       = Some (String.append (if Qsgn q <? 0 then "-"%string else EmptyString)
                 (String.append int (String.append "." dec)))
       /\ int <> EmptyString /\ String.length dec = 2%nat
       /\ value_of_digits (String.append int dec) = Some n
       /\ 0 <= n
       /\ (inject_Z n <= Qabs q * 100 + (1 # 2)
           /\ Qabs q * 100 + (1 # 2) < inject_Z n + 1)%Q)
  /\ (forall q p : Q,
        ~ q == 0 ->
        mul (Finite q) (Finite 100) = Finite p ->
        Qle_bool (inject_Z (10 ^ 21)) (Qabs p) = false ->
        ((Qsgn p <? 0) = true -> (Qsgn q <? 0) = true)
        /\ exists (n : Z) (int dec : string),
             formatPercent (JNum (Finite q))
             = String.append (if Qsgn p <? 0 then "-"%string else EmptyString)
                 (String.append int (String.append "." (String.append dec "%")))
             /\ int <> EmptyString /\ String.length dec = 2%nat
             /\ value_of_digits (String.append int dec) = Some n
             /\ 0 <= n
             /\ (inject_Z n <= Qabs p * 100 + (1 # 2)
                 /\ Qabs p * 100 + (1 # 2) < inject_Z n + 1)%Q).
Proof.
  split.
  - intros q Hsmall.
    destruct (toFixed_2_value q Hsmall) as (n & int & dec & E & H).
    exists n, int, dec. cbn [call_toFixed]. now rewrite E.
  - intros q p Hq Hp Hsmall. split.
    + intros Hs. cbn [mul] in Hp. apply (round64_sign _ _ Hp) in Hs.
      unfold Qsgn in *. destruct q as [a d]. cbn [Qmult Qnum Qden] in Hs.
      cbn [Qnum]. apply Z.ltb_lt in Hs. apply Z.ltb_lt.
      destruct a; cbn in Hs |- *; lia.
    + destruct (toFixed_2_value p Hsmall)
        as (n & int & dec & E & Hi & Hd & Hv & Hn & Hlo & Hhi).
      exists n, int, dec.
      split; [| split; [exact Hi | split; [exact Hd | split; [exact Hv |
                split; [exact Hn | now split]]]]].
      rewrite FormatPercentFacts.formatPercent_number.
      destruct (is_zero (Finite q)) eqn:Hz; [apply is_zero_Finite in Hz; contradiction |].
      cbn [orb num_isNaN]. rewrite Hp, E. now rewrite !append_assoc.
Qed.

Lemma a_rate_of_eight_percent_is_shown_rounded :
  exists (n : Z) (int dec : string),
    formatPercent (JNum (Finite (5764607523034235 # 72057594037927936)))
    = String.append EmptyString
        (String.append int (String.append "." (String.append dec "%")))
    /\ int <> EmptyString /\ String.length dec = 2%nat
    /\ value_of_digits (String.append int dec) = Some n
    /\ 0 <= n
    /\ (inject_Z n <= Qabs (8 # 1) * 100 + (1 # 2)
        /\ Qabs (8 # 1) * 100 + (1 # 2) < inject_Z n + 1)%Q.
Proof.
  apply (proj2 sizes_and_rates_are_rounded_to_two_decimals
           (5764607523034235 # 72057594037927936) (8 # 1)).
  - vm_compute. discriminate.
  - vm_compute. reflexivity.
  - vm_compute. reflexivity.
Defined.

End CurrencyFacts.

(* ===================================================================== *)
(** * ResultsDisplay: when the rate of return is shown *)
(* ===================================================================== *)

Module FormatPercentClaims.
Import Js Payload ResultsDisplay Shape DisplaySpec JsFacts FormatPercentFacts CurrencyFacts.

(** C9 (as the code has it). [formatPercent] answers N/A exactly for the
    rates that are null, undefined, NaN or equal to 0, so a rate of exactly 0
    is shown like the undefined one. Every other finite rate is shown as the
    binary64 product of the rate and 100, printed by [toFixed(2)] and followed
    by the percent sign. Whenever that product is finite and below 10^21 in
    magnitude the text is a percentage with two decimals, whose digits, the
    point dropped, are the product times 100 rounded to a whole number,
    halves away from zero, with a minus sign exactly for a negative product. *)
Theorem formatPercent_NA_exactly_for_nullish_NaN_zero :
  (formatPercent JNull = "N/A"%string /\ formatPercent JUndefined = "N/A"%string)
  /\ (forall n : JsNum,
        formatPercent (JNum n) = "N/A"%string <->
        n = NaN \/ exists q, n = Finite q /\ q == 0)
  /\ (forall q : Q, q == 0 ->
        formatPercent (JNum (Finite q)) = formatPercent JUndefined)
  /\ (forall q : Q, ~ q == 0 ->
        formatPercent (JNum (Finite q))
          = String.append (toFixed (mul (Finite q) (Finite 100)) 2) "%"
        /\ forall p : Q,
             mul (Finite q) (Finite 100) = Finite p ->
             Qle_bool (inject_Z (10 ^ 21)) (Qabs p) = false ->
             two_decimal_percent (formatPercent (JNum (Finite q)))
             /\ exists (n : Z) (int dec : string),
                  formatPercent (JNum (Finite q))
                  = String.append (if Qsgn p <? 0 then "-"%string else EmptyString)
                      (String.append int (String.append "." (String.append dec "%")))
                  /\ int <> EmptyString /\ String.length dec = 2%nat
                  /\ value_of_digits (String.append int dec) = Some n
                  /\ 0 <= n
                  /\ (inject_Z n <= Qabs p * 100 + (1 # 2)
                      /\ Qabs p * 100 + (1 # 2) < inject_Z n + 1)%Q).
Proof.
  split; [split; reflexivity |].
  split; [| split].
  - intros n. rewrite formatPercent_number. split.
    + destruct n as [| s | q]; cbn [is_zero num_isNaN orb].
      * intros _. now left.
      * intros H. now apply percent_not_NA in H.
      * destruct (Qsgn q =? 0) eqn:Hz; cbn [orb].
        -- intros _. right. exists q. split; [reflexivity |].
           now apply is_zero_Finite.
        -- intros H. now apply percent_not_NA in H.
    + intros [-> | (q & -> & Hq)]; [reflexivity |].
      apply is_zero_Finite in Hq. now rewrite Hq.
  - intros q Hq. rewrite formatPercent_number.
    apply is_zero_Finite in Hq. now rewrite Hq.
  - intros q Hq. rewrite formatPercent_number.
    destruct (is_zero (Finite q)) eqn:Hz.
    { apply is_zero_Finite in Hz. contradiction. }
    cbn [orb num_isNaN]. split; [reflexivity |].
    intros p Hp Hsmall. rewrite Hp. split.
    + destruct (toFixed_two_decimals p Hsmall)
        as (sign & int & dec & E & Hs & Hi & Hid & Hl & Hd).
      exists sign, int, dec. rewrite E.
      repeat split; try assumption.
      now rewrite !append_assoc.
    + destruct (toFixed_2_value p Hsmall)
        as (n & int & dec & E & Hi & Hd & Hv & Hn & Hlo & Hhi).
      exists n, int, dec. rewrite E.
      split; [now rewrite !append_assoc |].
      split; [exact Hi | split; [exact Hd | split; [exact Hv | split; [exact Hn |]]]].
      now split.
Qed.

(** C9, refuted as stated: a rate of 10^19 is finite and not 0, its product
    with 100 is 10^21, and from there on [toFixed] prints an exponent: the
    text has no decimals. *)
Lemma formatPercent_prints_an_exponent_from_1e21 :
  formatPercent (JNum (Finite (inject_Z (10 ^ 19)))) = "1e+21%"%string
  /\ ~ two_decimal_percent "1e+21%".
Proof.
  split; [vm_compute; reflexivity |].
  intros (sign & int & dec & E & Hs & Hi & Hid & Hl & Hd).
  destruct int as [| c1 int]; [now contradiction Hi |].
  destruct Hs as [-> | ->]; rewrite ?append_cons, ?append_nil in E; [| discriminate].
  injection E as <- E.
  destruct int as [| c2 int]; rewrite ?append_cons, ?append_nil in E; [discriminate |].
  injection E as <- E. cbn [all_digits] in Hid.
  vm_compute in Hid. discriminate.
Qed.

End FormatPercentClaims.

(* ===================================================================== *)
(** * ProgressIndicator and App: the course of a session *)
(* ===================================================================== *)

Module PollingFacts.
Import Js Payload ProgressIndicator PollingSpec.

Lemma poll_cleared (st : State) (r : Response) : cleared (poll st r) = final r.
Proof.
  destruct r as [sd |]; [| reflexivity]. unfold poll, final.
  destruct (String.eqb (sd_status sd) "completed"); [reflexivity |].
  now destruct (String.eqb (sd_status sd) "failed").
Qed.

Lemma poll_called_state (st st' : State) (r : Response) :
  called (poll st r) = called (poll st' r).
Proof.
  destruct r as [sd |]; [| reflexivity]. unfold poll.
  destruct (String.eqb (sd_status sd) "completed"); [reflexivity |].
  now destruct (String.eqb (sd_status sd) "failed").
Qed.

Lemma poll_called_final (st : State) (r : Response) :
  final r = true -> exists c, called (poll st r) = c :: nil.
Proof.
  destruct r as [sd |]; [| intros _; now eexists]. unfold poll, final.
  destruct (String.eqb (sd_status sd) "completed"); [intros _; now eexists |].
  destruct (String.eqb (sd_status sd) "failed"); [intros _; now eexists | discriminate].
Qed.

Lemma poll_called_live (st : State) (r : Response) :
  final r = false -> called (poll st r) = nil.
Proof.
  destruct r as [sd |]; [| discriminate]. unfold poll, final.
  destruct (String.eqb (sd_status sd) "completed"); [discriminate |].
  destruct (String.eqb (sd_status sd) "failed"); [discriminate | reflexivity].
Qed.

Lemma poll_live_colour (st : State) (r : Response) :
  final r = false ->
  terminal_colour (getStatusColor (status (next (poll st r)))) = false.
Proof.
  destruct r as [sd |]; [| discriminate]. unfold poll, final.
  destruct (String.eqb (sd_status sd) "completed") eqn:E1; [discriminate |].
  destruct (String.eqb (sd_status sd) "failed") eqn:E2; [discriminate |].
  intros _. cbn [next status]. unfold getStatusColor. rewrite E1, E2.
  now destruct (String.eqb (sd_status sd) "processing").
Qed.

(** The calls of a run are those of its first final response. *)
Lemma calls_find (responses : list Response) :
  forall st,
    calls st responses =
      match find final responses with
      | Some r => called (poll st r)
      | None => nil
      end.
Proof.
  induction responses as [| r rest IH]; intros st; [reflexivity |].
  cbn [calls find]. rewrite poll_cleared.
  destruct (final r) eqn:E.
  - apply app_nil_r.
  - rewrite (poll_called_live st r E), IH. cbn [app].
    destruct (find final rest); [apply poll_called_state | reflexivity].
Qed.

Lemma observe_live (responses : list Response) :
  Forall (fun x => final x = false) responses ->
  forall st,
    length (observe st responses) = length responses
    /\ Forall (fun s => terminal_colour (getStatusColor (status s)) = false)
         (observe st responses).
Proof.
  induction 1 as [| r rest Hr _ IH]; intros st; cbn [observe]; [now split |].
  rewrite poll_cleared, Hr. destruct (IH (next (poll st r))) as [Hlen Hcol].
  split; [cbn [length]; now rewrite Hlen |].
  constructor; [now apply poll_live_colour | exact Hcol].
Qed.

Lemma observe_app_final (before : list Response) (r : Response) (later : list Response) :
  Forall (fun x => final x = false) before -> final r = true ->
  forall st,
    exists last,
      observe st (before ++ r :: later) = (observe st before ++ last :: nil)%list.
Proof.
  induction 1 as [| x rest Hx _ IH]; intros Hr st.
  - cbn [app observe]. rewrite poll_cleared, Hr. now eexists.
  - cbn [app observe]. rewrite poll_cleared, Hx.
    destruct (IH Hr (next (poll st x))) as (last & ->). now exists last.
Qed.

Lemma find_app_final (before : list Response) (r : Response) (later : list Response) :
  Forall (fun x => final x = false) before -> final r = true ->
  find final (before ++ r :: later) = Some r.
Proof.
  induction 1 as [| x rest Hx _ IH]; intros Hr; cbn [app find].
  - now rewrite Hr.
  - rewrite Hx. now apply IH.
Qed.

Lemma find_live (responses : list Response) :
  Forall (fun x => final x = false) responses -> find final responses = None.
Proof.
  induction 1 as [| x rest Hx _ IH]; cbn [find]; [reflexivity |]. now rewrite Hx.
Qed.

(** The polling goes on, silently, until the first response that is final:
    a request that failed, or the status completed or failed. As long as
    the responses are not final, every one of them is shown, none is shown
    in the colour of a terminal state, and nothing is called. The first
    final response is the last one shown and the only one that makes a
    call; what the server answers after it is not looked at. *)
Theorem polling_ends_with_the_first_final_response :
  (forall (responses : list Response) (st : State),
     Forall (fun x => final x = false) responses ->
     calls st responses = nil
     /\ length (observe st responses) = length responses
     /\ Forall (fun s => terminal_colour (getStatusColor (status s)) = false)
          (observe st responses))
  /\ (forall (before : list Response) (r : Response) (later : list Response) (st : State),
        Forall (fun x => final x = false) before -> final r = true ->
        length (observe st (before ++ r :: later)) = S (length before)
        /\ (exists last, observe st (before ++ r :: later)
                         = (observe st before ++ last :: nil)%list)
        /\ (exists c, calls st (before ++ r :: later) = c :: nil
                      /\ calls st (before ++ r :: nil) = c :: nil))
  /\ (forall (st : State) (sd : StatusData),
        final (Resolved sd) = true ->
        terminal_colour (getStatusColor (status (next (poll st (Resolved sd))))) = true
        /\ spinner (next (poll st (Resolved sd))) = false).
Proof.
  split; [| split].
  - intros responses st Hlive. split; [| now apply observe_live].
    now rewrite calls_find, find_live.
  - intros before r later st Hlive Hr.
    destruct (observe_app_final before r later Hlive Hr st) as (last & E).
    split; [| split].
    + rewrite E, length_app. destruct (observe_live before Hlive st) as [-> _].
      simpl. lia.
    + now exists last.
    + destruct (poll_called_final st r Hr) as (c & Hc). exists c.
      rewrite !calls_find, !find_app_final by assumption. now split.
  - intros st sd. unfold final, poll.
    destruct (String.eqb_spec (sd_status sd) "completed") as [E1 | E1].
    + intros _. cbn [next status]. unfold spinner, getStatusColor. cbn [status].
      rewrite E1. now split.
    + destruct (String.eqb_spec (sd_status sd) "failed") as [E2 | E2]; [| discriminate].
      intros _. cbn [next status]. unfold spinner, getStatusColor. cbn [status].
      rewrite E2. now split.
Qed.

End PollingFacts.

Module AppFacts.
Import Js Payload App AppSpec PollingSpec PollingFacts.

Lemma screen_progress (st : State) (taskId : string) :
  screen st = ShowProgressIndicator taskId ->
  results st = None /\ currentTaskId st = Some taskId /\ taskId <> EmptyString.
Proof.
  unfold screen. destruct (results st); [discriminate |].
  destruct (currentTaskId st) as [[| c t] |]; try discriminate.
  intros [= <-]. repeat split. discriminate.
Qed.

Lemma dispatch_consistent (st : State) (e : Event) :
  consistent st -> consistent (dispatch st e).
Proof.
  intros [H1 H2]. unfold dispatch. destruct (enabled st e) eqn:En; [| now split].
  destruct e as [taskId | [res | m] |].
  - split; cbn [handleOptimizationStart currentTaskId results error];
      [intros _; now split | intros H; now contradiction H].
  - unfold enabled in En. destruct (screen st) as [| t | r] eqn:Es; try discriminate.
    apply screen_progress in Es as (Hr & Ht & _).
    destruct H1 as [_ He]; [congruence |].
    split; cbn [handle handleOptimizationComplete currentTaskId results error];
      [intros H; now contradiction H | now intros _].
  - unfold enabled in En. destruct (screen st) as [| t | r] eqn:Es; try discriminate.
    apply screen_progress in Es as (Hr & Ht & _).
    split; cbn [handle handleOptimizationError currentTaskId results error];
      [intros H; now contradiction H | intros H; congruence].
  - split; cbn [handleReset initialState currentTaskId results error];
      intros H; now contradiction H.
Qed.

Lemma reachable_consistent (events : list Event) :
  forall st, consistent st -> consistent (fold_left dispatch events st).
Proof.
  induction events as [| e events IH]; intros st H; simpl; [assumption |].
  now apply IH, dispatch_consistent.
Qed.

Lemma initial_consistent : consistent initialState.
Proof. split; simpl; congruence. Qed.

Lemma banner_error (st : State) (m : string) :
  error_banner st = Some m -> error st = Some m.
Proof.
  unfold error_banner. destruct (error st) as [[| c s] |]; try discriminate.
  now intros [= <-].
Qed.

(** In every state the App can reach, the error banner is shown only
    beside the upload form: never beside the progress indicator and never
    beside results. While a task is polled the App holds neither results nor
    an error. *)
Theorem error_banner_is_shown_only_beside_the_upload_form (events : list Event) :
  let st := fold_left dispatch events initialState in
  (forall m, error_banner st = Some m -> screen st = ShowUploadForm)
  /\ (forall r, screen st = ShowResults r ->
        error_banner st = None /\ results st = Some r)
  /\ (forall taskId, screen st = ShowProgressIndicator taskId ->
        error_banner st = None /\ results st = None /\ error st = None
        /\ currentTaskId st = Some taskId)
  /\ (screen st = ShowUploadForm -> results st = None).
Proof.
  cbv zeta.
  pose proof (reachable_consistent events initialState initial_consistent) as [H1 H2].
  set (st := fold_left dispatch events initialState) in *.
  split; [| split; [| split]].
  - intros m Hm. apply banner_error in Hm. unfold screen.
    destruct (results st) as [r |] eqn:Er.
    + rewrite H2 in Hm by discriminate. discriminate.
    + destruct (currentTaskId st) as [[| c t] |] eqn:Et; try reflexivity.
      destruct H1 as [_ He]; [discriminate | congruence].
  - intros r Hs. unfold screen in Hs.
    destruct (results st) as [r' |] eqn:Er.
    + injection Hs as ->. split; [| reflexivity].
      unfold error_banner. rewrite H2; [reflexivity | discriminate].
    + destruct (currentTaskId st) as [[| c t] |]; discriminate.
  - intros taskId Hs. apply screen_progress in Hs as (Hr & Ht & _).
    destruct H1 as [_ He]; [congruence |].
    unfold error_banner. rewrite He. now repeat split.
  - unfold screen. destruct (results st); [discriminate | reflexivity].
Qed.

Lemma polled_without_error (events : list Event) (taskId : string) :
  screen (fold_left dispatch events initialState) = ShowProgressIndicator taskId ->
  error (fold_left dispatch events initialState) = None
  /\ results (fold_left dispatch events initialState) = None.
Proof.
  intros Hs.
  pose proof (reachable_consistent events initialState initial_consistent) as [H1 _].
  apply screen_progress in Hs as (Hr & Ht & _).
  destruct H1 as [_ He]; [congruence |]. now split.
Qed.

(** A status completed that carries no results ends the polling and puts
    the upload form back, without results and without any message. *)
Theorem completed_without_results_returns_to_the_form
    (events : list Event) (shown : ProgressIndicator.State)
    (sd : ProgressIndicator.StatusData) (taskId : string) :
  let st := fold_left dispatch events initialState in
  screen st = ShowProgressIndicator taskId ->
  ProgressIndicator.sd_status sd = "completed"%string ->
  ProgressIndicator.sd_results sd = None ->
  let tick := ProgressIndicator.poll shown (ProgressIndicator.Resolved sd) in
  let st' := fold_left dispatch (map Indicator (ProgressIndicator.called tick)) st in
  ProgressIndicator.cleared tick = true
  /\ screen st' = ShowUploadForm
  /\ error_banner st' = None
  /\ results st' = None
  /\ currentTaskId st' = None.
Proof.
  intros st Hs Hc Hr tick st'.
  destruct (polled_without_error events taskId Hs) as (He & _).
  subst tick st'. unfold ProgressIndicator.poll. rewrite Hc.
  change (String.eqb "completed" "completed") with true. cbv iota.
  cbn [ProgressIndicator.called ProgressIndicator.cleared map fold_left].
  unfold dispatch, enabled. rewrite Hs. cbn [handle].
  fold st in He.
  unfold handleOptimizationComplete, screen, error_banner. cbn [results currentTaskId error].
  rewrite Hr, He. now repeat split.
Qed.

(** After task-1 has started, such a status puts the upload form back. *)
Lemma completed_empty_returns_to_the_form :
  let st := fold_left dispatch (OptimizationStart "task-1" :: nil) initialState in
  let tick := ProgressIndicator.poll ProgressIndicator.initialState
                (ProgressIndicator.Resolved completed_empty) in
  let st' := fold_left dispatch (map Indicator (ProgressIndicator.called tick)) st in
  ProgressIndicator.cleared tick = true
  /\ screen st' = ShowUploadForm
  /\ error_banner st' = None
  /\ results st' = None
  /\ currentTaskId st' = None.
Proof.
  apply (completed_without_results_returns_to_the_form
           (OptimizationStart "task-1" :: nil) ProgressIndicator.initialState
           completed_empty "task-1"); reflexivity.
Defined.

Lemma session_started (taskId : string) (cs : list ProgressIndicator.Callback)
    (app : State) :
  screen app = ShowUploadForm ->
  fold_left dispatch (map Indicator cs) (dispatch app (OptimizationStart taskId))
  = match taskId, cs with
    | String _ _, c :: _ => handle (handleOptimizationStart taskId app) c
    | _, _ => handleOptimizationStart taskId app
    end.
Proof.
  intros Hs. unfold dispatch at 2. unfold enabled. rewrite Hs.
  assert (Hoff : forall st cs', (forall t, screen st <> ShowProgressIndicator t) ->
            fold_left dispatch (map Indicator cs') st = st).
  { intros st cs' Hno. induction cs' as [| c cs' IH]; [reflexivity |].
    cbn [map fold_left]. unfold dispatch at 2. unfold enabled.
    destruct (screen st) as [| t | r] eqn:E; try exact IH. now contradiction (Hno t). }
  destruct taskId as [| ch t].
  - apply Hoff. intros t'. discriminate.
  - destruct cs as [| c cs]; [reflexivity |].
    cbn [map fold_left]. unfold dispatch at 2. unfold enabled.
    cbn [handleOptimizationStart screen results currentTaskId].
    apply Hoff. intros t'. destruct c as [res | m]; cbn; [destruct res |]; discriminate.
Qed.

(** The outcome of a session that starts at the upload form, when each
    status response is handled before the next tick of the interval, so that
    no request is in flight when the interval is cleared. A form that does
    not validate, or a request that is refused, leaves the App as it was.
    An accepted request with a task id that is not empty starts the polling,
    which the first final response ends: completed hands its results to the
    App, failed its message or, without one, the fixed text, a failed status
    request the text that the status could not be checked; without a final
    response the App goes on polling. Whatever was on screen before, results
    and error are cleared when the polling starts. *)
Theorem session_outcome
    (respond : list (string * UploadForm.FormValue) -> UploadForm.Submission)
    (responses : list ProgressIndicator.Response)
    (form : UploadForm.State) (app : State) :
  screen app = ShowUploadForm ->
  let app' := session respond responses form app in
  (UploadForm.validateForm (UploadForm.files form) (UploadForm.formData form) = false ->
   app' = app)
  /\ match UploadForm.onOptimizationStart (UploadForm.submit respond form) with
     | None => app' = app
     | Some EmptyString =>
         app' = {| currentTaskId := Some EmptyString; results := None; error := None |}
         /\ screen app' = ShowUploadForm
     | Some taskId =>
         match find final responses with
         | None =>
             app' = {| currentTaskId := Some taskId; results := None; error := None |}
             /\ screen app' = ShowProgressIndicator taskId
         | Some ProgressIndicator.Rejected =>
             app' = {| currentTaskId := None; results := None;
                       error := Some "Failed to check optimization status"%string |}
         | Some (ProgressIndicator.Resolved sd) =>
             if String.eqb (ProgressIndicator.sd_status sd) "completed" then
               app' = {| currentTaskId := None;
                         results := ProgressIndicator.sd_results sd; error := None |}
             else
               app' = {| currentTaskId := None; results := None;
                         error := Some (ProgressIndicator.string_or
                                          (ProgressIndicator.sd_message sd)
                                          "Optimization failed") |}
         end
     end.
Proof.
  intros Hs app'. subst app'. unfold session. split.
  - intros Hv. unfold UploadForm.submit, UploadForm.handleSubmit. now rewrite Hv.
  - destruct (UploadForm.onOptimizationStart (UploadForm.submit respond form))
      as [taskId |]; [| reflexivity].
    rewrite session_started by assumption. rewrite calls_find.
    destruct taskId as [| ch t]; [split; reflexivity |].
    destruct (find final responses) as [r |] eqn:Ef; [| split; reflexivity].
    apply find_some in Ef as [_ Hfin].
    destruct r as [sd |]; [| reflexivity].
    unfold ProgressIndicator.poll. unfold final in Hfin.
    destruct (String.eqb (ProgressIndicator.sd_status sd) "completed"); [reflexivity |].
    destruct (String.eqb (ProgressIndicator.sd_status sd) "failed"); [reflexivity |].
    discriminate.
Qed.

(** The session of TESTING_E2E.md: the typed form is accepted, the polling
    reads 5, 10, 30, 70 and 100 per cent and then completed, and the App
    ends with the results. *)
Lemma e2e_session_ends_with_the_results :
  session accept_all e2e_responses typed_form initialState
  = {| currentTaskId := None; results := Some PayloadSpec.payload_of_code; error := None |}.
Proof.
  pose proof (session_outcome accept_all e2e_responses typed_form initialState eq_refl)
    as [_ H].
  vm_compute in H. vm_compute. exact H.
Defined.

End AppFacts.

(* ===================================================================== *)
(** * What the caller receives *)
(* ===================================================================== *)

Module DeliveryClaims.
Import Js Payload ProgressIndicator PollingSpec AppSpec DeliveryFacts PollingFacts.

(** Results the App holds were there before or were handed to [onComplete]. *)
Lemma results_from_onComplete (cs : list Callback) :
  forall (app : App.State) (r : Results),
    App.results (fold_left App.handle cs app) = Some r ->
    App.results app = Some r \/ In (onComplete (Some r)) cs.
Proof.
  induction cs as [| c cs IH]; intros app r H; [now left |].
  cbn [fold_left] in H. apply IH in H as [H | H]; [| right; now right].
  destruct c as [res | m]; cbn in H; [| now left].
  right. left. now rewrite H.
Qed.

Lemma handled_onComplete (st : State) (responses : list Response) (res : option Results) :
  In (onComplete res) (handled st responses) ->
  exists sd, In (Resolved sd) responses
             /\ sd_status sd = "completed"%string /\ res = sd_results sd.
Proof.
  unfold handled. rewrite in_flat_map. intros (x & Hin & H).
  apply poll_onComplete in H as (sd & -> & Hs & Hr). now exists sd.
Qed.

(** What a sequential run leaves in the App that was started. *)
Lemma results_of_calls (st : State) (responses : list Response) (taskId : string)
    (app : App.State) :
  App.results (fold_left App.handle (calls st responses)
                 (App.handleOptimizationStart taskId app))
  = match find final responses with
    | Some (Resolved sd) =>
        if String.eqb (sd_status sd) "completed" then sd_results sd else None
    | _ => None
    end.
Proof.
  rewrite calls_find. destruct (find final responses) as [[sd |] |]; try reflexivity.
  unfold poll. destruct (String.eqb (sd_status sd) "completed"); [reflexivity |].
  now destruct (String.eqb (sd_status sd) "failed").
Qed.

(** C6 (as the code has it). A response with the status failed sets the
    indicator to failed with a message that is not empty, and calls [onError]
    with a message that is not empty and nothing else: the results of the App
    stay as they were. [onComplete] is called exactly for the status
    completed, with the results field of the response as it is, so that the
    App then holds a results object exactly when the response carries one.
    Whichever responses are handled, results the App holds afterwards were
    carried by a completed response; in a run in which each response is
    handled before the next tick the App holds results exactly when the
    first final response is completed and carries them, and, if every
    completed response carries results, exactly when it is completed. *)
Theorem results_are_delivered_exactly_on_completed :
  (forall (st : State) (sd : StatusData),
     sd_status sd = "failed"%string ->
     let t := poll st (Resolved sd) in
     status (next t) = "failed"%string
     /\ message (next t) <> EmptyString
     /\ cleared t = true
     /\ exists m, called t = onError m :: nil /\ m <> EmptyString
                  /\ forall app : App.State,
                       App.results (fold_left App.handle (called t) app) = App.results app
                       /\ App.error (fold_left App.handle (called t) app) = Some m)
  /\ (forall (st : State) (sd : StatusData),
        (exists res, In (onComplete res) (called (poll st (Resolved sd))))
        <-> sd_status sd = "completed"%string)
  /\ (forall (st : State) (sd : StatusData) (app : App.State),
        sd_status sd = "completed"%string ->
        called (poll st (Resolved sd)) = onComplete (sd_results sd) :: nil
        /\ App.results (fold_left App.handle (called (poll st (Resolved sd))) app)
           = sd_results sd
        /\ (App.results (fold_left App.handle (called (poll st (Resolved sd))) app) <> None
            <-> sd_results sd <> None))
  /\ (forall (st : State) (responses : list Response) (taskId : string)
             (app : App.State) (r : Results),
        App.results (fold_left App.handle (handled st responses)
                       (App.handleOptimizationStart taskId app)) = Some r ->
        exists sd, In (Resolved sd) responses
                   /\ sd_status sd = "completed"%string /\ sd_results sd = Some r)
  /\ (forall (st : State) (responses : list Response) (taskId : string)
             (app : App.State) (r : Results),
        App.results (fold_left App.handle (calls st responses)
                       (App.handleOptimizationStart taskId app)) = Some r
        <-> exists sd, find final responses = Some (Resolved sd)
                       /\ sd_status sd = "completed"%string /\ sd_results sd = Some r)
  /\ (forall (st : State) (responses : list Response) (taskId : string)
             (app : App.State),
        (forall sd, In (Resolved sd) responses -> sd_status sd = "completed"%string ->
                    sd_results sd <> None) ->
        (App.results (fold_left App.handle (calls st responses)
                        (App.handleOptimizationStart taskId app)) <> None
         <-> exists sd, find final responses = Some (Resolved sd)
                        /\ sd_status sd = "completed"%string)).
Proof.
  split; [| split; [| split; [| split; [| split]]]].
  - intros st sd Hs t. subst t.
    destruct (poll_failed st sd Hs) as (Hc & Hcl & Hst & Hm).
    split; [exact Hst | split; [| split; [exact Hcl |]]].
    + rewrite Hm. now apply string_or_nonempty.
    + exists (string_or (sd_message sd) "Optimization failed").
      split; [exact Hc | split].
      * now apply string_or_nonempty.
      * intros app. rewrite Hc. now split.
  - intros st sd. split.
    + intros (res & H). apply poll_onComplete in H as (sd' & [= <-] & Hs & _). exact Hs.
    + intros Hs. exists (sd_results sd).
      destruct (poll_completed st sd Hs) as [-> _]. now left.
  - intros st sd app Hs. destruct (poll_completed st sd Hs) as [-> _].
    split; [reflexivity | split; [reflexivity | reflexivity]].
  - intros st responses taskId app r H.
    apply results_from_onComplete in H as [H | H]; [discriminate |].
    apply handled_onComplete in H as (sd & Hin & Hs & Hr). now exists sd.
  - intros st responses taskId app r. rewrite results_of_calls.
    destruct (find final responses) as [[sd |] |].
    + destruct (String.eqb_spec (sd_status sd) "completed") as [E | E].
      * split; [intros H; now exists sd | intros (sd' & [= <-] & _ & H); exact H].
      * split; [discriminate | intros (sd' & [= <-] & H & _); contradiction].
    + split; [discriminate | intros (sd' & H & _); discriminate].
    + split; [discriminate | intros (sd' & H & _); discriminate].
  - intros st responses taskId app Hfull. rewrite results_of_calls.
    destruct (find final responses) as [[sd |] |] eqn:Hfind.
    + apply find_some in Hfind as [Hin _].
      destruct (String.eqb_spec (sd_status sd) "completed") as [E | E].
      * split; [intros _; now exists sd | intros _; now apply Hfull].
      * split; [congruence | intros (sd' & [= <-] & H); contradiction].
    + split; [congruence | intros (sd' & H & _); discriminate].
    + split; [congruence | intros (sd' & H & _); discriminate].
Qed.

(** C6, refuted as stated: a status completed whose response carries no
    results calls [onComplete] with nothing, and the caller is left without
    a results object although the terminal status is completed. *)
Lemma a_completed_status_can_deliver_no_results :
  sd_status completed_empty = "completed"%string
  /\ calls initialState (Resolved completed_empty :: nil) = onComplete None :: nil
  /\ App.results
       (fold_left App.handle (calls initialState (Resolved completed_empty :: nil))
          (App.handleOptimizationStart "task-1" App.initialState))
     = None.
Proof. repeat split. Qed.

End DeliveryClaims.

(* ===================================================================== *)
(** * Engine: the model builder and its two formulations *)
(* ===================================================================== *)

Module BuilderFacts.
Import Engine EngineSpec.
Local Open Scope Q_scope.

(** ** Rows and variables of a model *)

Lemma In_indexed (hrs : list RepHour) (h : nat) (hr : RepHour) :
  In (h, hr) (indexed hrs) -> (h < length hrs)%nat.
Proof.
  unfold indexed. intros H. apply in_combine_l in H. apply in_seq in H. lia.
Qed.

Lemma In_years (sc : ScenarioParameters) (y : nat) :
  In y (years sc) <-> (1 <= y <= horizon sc)%nat.
Proof. unfold years. rewrite in_seq. lia. Qed.






(** ** Counting the mode variables *)



(** ** The relaxed model admits a simultaneous charge and discharge *)



(** ** The strict model excludes it *)



End BuilderFacts.

(* ===================================================================== *)
(** * Engine: cash flows, NPV and the objective *)
(* ===================================================================== *)

Module FinanceFacts.
Import Engine EngineSpec.
Local Open Scope Q_scope.

(** ** Evaluation of expressions *)

Lemma eval_terms_app (v : Valuation) (l1 l2 : list (Q * Var)) (c1 c2 : Q) :
  eval v {| terms := (l1 ++ l2)%list; constant := c1 + c2 |}
  == eval v {| terms := l1; constant := c1 |} + eval v {| terms := l2; constant := c2 |}.
Proof.
  unfold eval. cbn [terms constant].
  induction l1 as [| t l1 IH]; cbn [fold_right app].
  - induction l2 as [| t l2 IH]; cbn [fold_right]; [ring |]. rewrite IH. ring.
  - rewrite IH. ring.
Qed.

Lemma eval_plus (v : Valuation) (a b : Expr) :
  eval v (plus a b) == eval v a + eval v b.
Proof. destruct a, b. apply eval_terms_app. Qed.

Lemma eval_scale (v : Valuation) (c : Q) (a : Expr) :
  eval v (scale c a) == c * eval v a.
Proof.
  destruct a as [l k]. unfold scale, eval. cbn [terms constant].
  induction l as [| t l IH]; cbn [fold_right map fst snd]; [ring |].
  rewrite IH. ring.
Qed.

Lemma eval_minus (v : Valuation) (a b : Expr) :
  eval v (minus a b) == eval v a - eval v b.
Proof. unfold minus. rewrite eval_plus, eval_scale. ring. Qed.

Lemma eval_const (v : Valuation) (c : Q) : eval v (const c) == c.
Proof. reflexivity. Qed.

(** ** Discounting *)

Lemma powq_nonzero (b : Q) (n : nat) : ~ b == 0 -> ~ powq b n == 0.
Proof.
  intros Hb. induction n as [| n IH]; cbn [powq].
  - discriminate.
  - intros H. apply Qmult_integral in H. tauto.
Qed.

(** Discounting one year less multiplies the sum by [1 + rate]. *)
Lemma discounted_from_shift (cashFlows : list Q) (rate : Q) :
  ~ 1 + rate == 0 ->
  forall y, discounted_from y cashFlows rate
            == (1 + rate) * discounted_from (S y) cashFlows rate.
Proof.
  intros Hr. induction cashFlows as [| c rest IH]; intros y; cbn [discounted_from].
  - ring.
  - rewrite (IH (S y)). cbn [powq].
    pose proof (powq_nonzero (1 + rate) y Hr) as Hp.
    field. split; assumption.
Qed.

(** The discounted revenues of the objective, as a discounted series that
    starts at exponent 0. *)
Lemma eval_discounted_sum (v : Valuation) (rate : Q) (f : nat -> Expr) (len : nat) :
  forall start,
    eval v (sum_exprs (map (fun y => scale (/ powq (1 + rate) (y - 1)) (f y))
                           (seq (S start) len)))
    == discounted_from start (map (fun y => eval v (f y)) (seq (S start) len)) rate.
Proof.
  induction len as [| len IH]; intros start; cbn [seq map sum_exprs fold_right discounted_from].
  - reflexivity.
  - fold (sum_exprs (map (fun y => scale (/ powq (1 + rate) (y - 1)) (f y))
                         (seq (S (S start)) len))).
    rewrite eval_plus, eval_scale, IH.
    replace (S start - 1)%nat with start by lia.
    unfold Qdiv. ring.
Qed.

(** The value of the objective: the revenues of year [y] discounted by
    [(1 + rate)^(y-1)], less the capex. *)
Lemma objective_value (sc : ScenarioParameters) (hrs : list RepHour) (v : Valuation) :
  eval v (objective_expr sc hrs)
  == discounted_from 0 (map (fun y => eval v (annual_net sc hrs y)) (years sc))
       (discount_rate sc)
     - eval v (capex sc).
Proof.
  unfold objective_expr, years. rewrite eval_minus.
  now rewrite (eval_discounted_sum v (discount_rate sc) (annual_net sc hrs) (horizon sc) 0).
Qed.

Lemma NPV_of_cash_flows (sc : ScenarioParameters) (hrs : list RepHour) (v : Valuation) :
  NPV (extract_cash_flows sc hrs v) (discount_rate sc)
  == discounted_from 1 (map (fun y => eval v (annual_net sc hrs y)) (years sc))
       (discount_rate sc)
     - eval v (capex sc).
Proof.
  unfold NPV, extract_cash_flows. cbn [discounted_from powq]. field.
Qed.

Lemma check_consistency_None (tol : Q) (cashFlows : list Q) (rate objectiveValue : Q) :
  check_consistency tol cashFlows rate objectiveValue = None
  <-> Qabs (NPV cashFlows rate - objectiveValue) <= tol.
Proof.
  unfold check_consistency.
  destruct (Qle_bool _ tol) eqn:E.
  - split; [intros _; now apply Qle_bool_iff | reflexivity].
  - split; [discriminate |]. intros H. apply Qle_bool_iff in H. congruence.
Qed.

(** The engine completes only with cash flows whose NPV is within the
    tolerance of the objective value it returns. *)
Lemma run_completed_consistent (solver : Model -> SolverResult) (c : Configuration)
    (sc : ScenarioParameters) (days : list RepresentativeDay) (s : Solution) :
  snd (run solver c sc days) = Completed s ->
  Qabs (NPV (cash_flows s) (discount_rate sc) - npv s) <= tolerance c.
Proof.
  unfold run.
  destruct (negb (valid_scenario sc)); [discriminate |].
  destruct (negb (valid_days days)); [discriminate |].
  destruct (solver_failure c _); [discriminate |].
  destruct (check_consistency _ _ _ _) eqn:E; [discriminate |].
  cbn [snd]. intros [= <-]. cbn [cash_flows npv].
  now apply check_consistency_None.
Qed.

(** A mismatch beyond the tolerance ends the run with the internal error. *)
Lemma run_mismatch_fails (solver : Model -> SolverResult) (c : Configuration)
    (sc : ScenarioParameters) (days : list RepresentativeDay) :
  valid_scenario sc = true -> valid_days days = true ->
  let r := solver (build sc days (mode c)) in
  solver_failure c (solver_status r) = None ->
  ~ Qabs (NPV (extract_cash_flows sc (rep_hours days) (variableValues r))
              (discount_rate sc) - objectiveValue r) <= tolerance c ->
  snd (run solver c sc days) = Failed InternalConsistencyError.
Proof.
  intros Hsc Hdays r Hok Hmis. unfold run. rewrite Hsc, Hdays. cbn [negb].
  fold r. rewrite Hok.
  destruct (check_consistency _ _ _ _) as [e |] eqn:E.
  - unfold check_consistency in E. destruct (Qle_bool _ _); [discriminate |].
    now injection E as <-.
  - apply check_consistency_None in E. contradiction.
Qed.

(** ** A small instance and its optimum *)

Lemma feasibleb_sound (v : Valuation) (m : Model) :
  feasibleb v m = true -> feasible v m.
Proof.
  unfold feasibleb, feasible. rewrite andb_true_iff, !forallb_forall, !List.Forall_forall.
  intros [Hd Hc]. split.
  - intros [x k] Hin. specialize (Hd _ Hin). unfold in_domainb, in_domain in *.
    cbn [fst snd] in *. destruct k.
    + now apply Qle_bool_iff.
    + apply orb_true_iff in Hd as [H | H]; apply Qeq_bool_iff in H; tauto.
  - intros c Hin. specialize (Hc _ Hin). destruct c; cbn [holdsb holds] in *.
    + now apply Qle_bool_iff.
    + now apply Qeq_bool_iff.
Qed.

Lemma Forall_nth_default {A : Type} (P : A -> Prop) (l : list A) (i : nat) (d : A) :
  Forall P l -> (i < length l)%nat -> P (nth i l d).
Proof.
  intros H Hi. rewrite List.Forall_forall in H. apply H. now apply nth_In.
Qed.

Lemma small_solution_feasible : feasible small_solution small_model.
Proof. apply feasibleb_sound. vm_compute. reflexivity. Qed.

(** No feasible point of the small instance earns more than 16250. *)
Lemma small_model_bound (v : Valuation) :
  feasible v small_model -> eval v (objective small_model) <= 16250.
Proof.
  intros [Hdom Hrows].
  assert (Hrow : forall i, (i < 123)%nat ->
                   holds v (nth i (constraints small_model) (Le (const 0) (const 0)))).
  { intros i Hi. apply Forall_nth_default; [exact Hrows | exact Hi]. }
  assert (Hvar : forall i, (i < 171)%nat ->
                   in_domain v (nth i (variables small_model) (pv_size_mw, Continuous))).
  { intros i Hi. apply Forall_nth_default; [exact Hdom | exact Hi]. }
  pose proof (Hrow 0%nat ltac:(lia)) as Hbalance.
  pose proof (Hrow 3%nat ltac:(lia)) as Hsoc.
  pose proof (Hrow 121%nat ltac:(lia)) as Hempty.
  pose proof (Hrow 122%nat ltac:(lia)) as Hceiling.
  pose proof (Hvar 1%nat ltac:(lia)) as Hbess.
  pose proof (Hvar 3%nat ltac:(lia)) as Honsite.
  pose proof (Hvar 6%nat ltac:(lia)) as Hdischarge.
  pose proof (Hvar 15%nat ltac:(lia)) as Hnext.
  clear Hrow Hvar Hdom Hrows.
  unfold small_model, build in *. cbn [objective].
  unfold holds, in_domain, eval, escalation in *.
  cbn in Hbalance, Hsoc, Hempty, Hceiling, Hbess, Honsite, Hdischarge, Hnext.
  cbn. lra.
Qed.

Lemma small_solution_optimal : optimal small_solution small_model.
Proof.
  split; [exact small_solution_feasible |].
  intros v Hv. apply small_model_bound in Hv.
  assert (E : eval small_solution (objective small_model) == 16250)
    by (vm_compute; reflexivity).
  now rewrite E.
Qed.

Lemma objective_of_build (sc : ScenarioParameters) (days : list RepresentativeDay)
    (m : Mode) :
  objective (build sc days m) = objective_expr sc (rep_hours days).
Proof. now destruct m. Qed.

(** C2 (as the formulas have it). The series discounts year [y] by
    [(1 + r)^y], the objective by [(1 + r)^(y-1)]: for every solution the
    objective plus the capex is [1 + r] times the NPV of the cash flows plus
    the capex. The two agree exactly when [r] times the discounted revenues is
    0, and the consistency check accepts exactly when that product is within
    the tolerance; whenever they differ by more the check reports the internal
    error, and the engine completes only within the tolerance. *)
Theorem npv_is_the_objective_discounted_one_more_year
    (sc : ScenarioParameters) (days : list RepresentativeDay)
    (mode : Mode) (v : Valuation) (tol : Q) :
  0 <= discount_rate sc ->
  let r := discount_rate sc in
  let cashFlows := extract_cash_flows sc (rep_hours days) v in
  let objectiveValue := eval v (objective (build sc days mode)) in
  let revenues := NPV cashFlows r + eval v (capex sc) in
  objectiveValue + eval v (capex sc) == (1 + r) * revenues
  /\ (NPV cashFlows r == objectiveValue <-> r * revenues == 0)
  /\ (check_consistency tol cashFlows r objectiveValue = None
       <-> Qabs (r * revenues) <= tol)
  /\ (~ Qabs (r * revenues) <= tol ->
       check_consistency tol cashFlows r objectiveValue = Some InternalConsistencyError)
  /\ (forall solver c s,
         snd (run solver c sc days) = Completed s ->
         Qabs (NPV (cash_flows s) r - npv s) <= tolerance c).
Proof.
  intros Hr r cashFlows objectiveValue revenues.
  assert (Hne : ~ 1 + r == 0) by (subst r; lra).
  assert (Hid : objectiveValue + eval v (capex sc) == (1 + r) * revenues).
  { subst objectiveValue revenues cashFlows r.
    rewrite objective_of_build, objective_value, NPV_of_cash_flows.
    rewrite (discounted_from_shift _ _ Hne 0%nat). ring. }
  assert (Hdiff : NPV cashFlows r - objectiveValue == - (r * revenues)).
  { subst revenues. lra. }
  assert (Hcheck : check_consistency tol cashFlows r objectiveValue = None
                   <-> Qabs (r * revenues) <= tol).
  { rewrite check_consistency_None, Hdiff, Qabs_opp. reflexivity. }
  split; [exact Hid | split; [| split; [exact Hcheck | split]]].
  - split; intros H; lra.
  - intros Hmis. unfold check_consistency.
    destruct (Qle_bool _ tol) eqn:E; [| reflexivity].
    exfalso. apply Hmis, Hcheck. unfold check_consistency. now rewrite E.
  - intros solver c s. apply run_completed_consistent.
Qed.

(** The relation on the small instance. *)
Lemma small_instance_npv_relation :
  let r := discount_rate small_scenario in
  let objectiveValue := eval small_solution (objective small_model) in
  let revenues := NPV small_cash_flows r + eval small_solution (capex small_scenario) in
  objectiveValue + eval small_solution (capex small_scenario) == (1 + r) * revenues
  /\ (NPV small_cash_flows r == objectiveValue <-> r * revenues == 0)
  /\ (check_consistency (1 # 1000000) small_cash_flows r objectiveValue = None
       <-> Qabs (r * revenues) <= 1 # 1000000)
  /\ (~ Qabs (r * revenues) <= 1 # 1000000 ->
       check_consistency (1 # 1000000) small_cash_flows r objectiveValue
         = Some InternalConsistencyError)
  /\ (forall solver c s,
         snd (run solver c small_scenario (small_day :: nil)) = Completed s ->
         Qabs (NPV (cash_flows s) r - npv s) <= tolerance c).
Proof.
  apply (npv_is_the_objective_discounted_one_more_year
           small_scenario (small_day :: nil) LP_RELAXED small_solution (1 # 1000000)).
  unfold Qle; simpl; lia.
Defined.

(** C2, refuted as stated: the small instance has an optimal solution with
    objective value 16250 whose cash flows, -2000 and 18250, have the NPV
    402250/27 (about 14898.15) at the discount rate 8 %; the check reports
    the internal error for every tolerance below 1351. *)
Lemma npv_of_optimal_cash_flows_misses_the_objective :
  optimal small_solution small_model
  /\ eval small_solution (objective small_model) == 16250
  /\ small_cash_flows = (- (2000 # 1)) :: (18250 # 1) :: nil
  /\ NPV small_cash_flows (discount_rate small_scenario) == 402250 # 27
  /\ (forall tol, tol < 1351 ->
        check_consistency tol small_cash_flows (discount_rate small_scenario)
          (eval small_solution (objective small_model))
        = Some InternalConsistencyError).
Proof.
  split; [exact small_solution_optimal |].
  split; [vm_compute; reflexivity |].
  split; [vm_compute; reflexivity |].
  split; [vm_compute; reflexivity |].
  intros tol Htol. unfold check_consistency.
  set (x := NPV small_cash_flows (discount_rate small_scenario)
            - eval small_solution (objective small_model)).
  assert (Hx : Qabs x == 36500 # 27) by (vm_compute; reflexivity).
  destruct (Qle_bool (Qabs x) tol) eqn:E; [| reflexivity].
  apply Qle_bool_iff in E. rewrite Hx in E. exfalso. lra.
Qed.

End FinanceFacts.

(* ===================================================================== *)
(** * Engine: the progress reporter *)
(* ===================================================================== *)

Module ProgressFacts.
Import Engine ProgressSpec.

(** ** Histories *)









(** ** The histories of the engine *)






(** ** What a polling client sees *)














End ProgressFacts.
